(** * keepupwithai: ingestion and summarization pipeline

    A shallow embedding of [fetcher.py] and [summarizer.py].

    Python [str] values are modelled by [string]; each [ascii] stands for
    one code point in the range U+0000..U+00FF.  Library calls whose code is
    not part of the repository (the HTTP session, the HTML and feed parsers,
    SHA-256, the JSON codec, the LLM SDKs) are either modelled after their
    documented behaviour or taken as parameters of a [Section]. *)

From Stdlib Require Import ZArith String Ascii List Lia Bool Sorted.
From stdpp Require Import base strings gmap list.

Local Open Scope string_scope.
Local Open Scope Z_scope.

(** ** Python string primitives *)

Module Py.

Definition code (c : ascii) : N := N_of_ascii c.

Definition between (lo hi : N) (c : ascii) : bool :=
  ((lo <=? code c) && (code c <=? hi))%N.

(** [str.isspace] on one code point below U+0100. *)
Definition isspace (c : ascii) : bool :=
  between 9 13 c || between 28 32 c || (code c =? 133)%N || (code c =? 160)%N.

Definition is_upper (c : ascii) : bool := between 65 90 c.
Definition is_lower (c : ascii) : bool := between 97 122 c.
Definition is_digit (c : ascii) : bool := between 48 57 c.
Definition is_ascii_alpha (c : ascii) : bool := is_upper c || is_lower c.

(** The class [\w] of [re] on [str] patterns, below U+0100. *)
Definition is_word (c : ascii) : bool :=
  is_ascii_alpha c || is_digit c || (code c =? 95)%N
  || (code c =? 170)%N || (code c =? 178)%N || (code c =? 179)%N
  || (code c =? 181)%N || (code c =? 185)%N || (code c =? 186)%N
  || between 188 190 c || between 192 214 c || between 216 246 c
  || between 248 255 c.

(** [str.lower] on one code point below U+0100. *)
Definition lower_char (c : ascii) : ascii :=
  if is_upper c || between 192 214 c || between 216 222 c
  then ascii_of_N (code c + 32)
  else c.

Fixpoint lower (s : string) : string :=
  match s with
  | EmptyString => EmptyString
  | String c r => String (lower_char c) (lower r)
  end.

(** [s.lstrip(chars)] and [s.rstrip(chars)], the set given as a predicate. *)
Fixpoint lstrip_by (p : ascii -> bool) (s : string) : string :=
  match s with
  | EmptyString => EmptyString
  | String c r => if p c then lstrip_by p r else s
  end.

Fixpoint rstrip_by (p : ascii -> bool) (s : string) : string :=
  match s with
  | EmptyString => EmptyString
  | String c r =>
      match rstrip_by p r with
      | EmptyString => if p c then EmptyString else String c EmptyString
      | r' => String c r'
      end
  end.

Definition strip (s : string) : string := lstrip_by isspace (rstrip_by isspace s).

(** [s.startswith(p)] *)
Definition startswith (p s : string) : bool := String.prefix p s.

(** [sub in s] *)
Fixpoint contains (sub s : string) : bool :=
  String.prefix sub s ||
  match s with
  | EmptyString => false
  | String _ r => contains sub r
  end.

(** [s[:n]] for [n >= 0] *)
Fixpoint take (n : nat) (s : string) : string :=
  match n, s with
  | O, _ => EmptyString
  | _, EmptyString => EmptyString
  | S k, String c r => String c (take k r)
  end.

Fixpoint take_while (p : ascii -> bool) (s : string) : string :=
  match s with
  | EmptyString => EmptyString
  | String c r => if p c then String c (take_while p r) else EmptyString
  end.

Fixpoint drop_while (p : ascii -> bool) (s : string) : string :=
  match s with
  | EmptyString => EmptyString
  | String c r => if p c then drop_while p r else s
  end.

Fixpoint remove_chars (p : ascii -> bool) (s : string) : string :=
  match s with
  | EmptyString => EmptyString
  | String c r => if p c then remove_chars p r else String c (remove_chars p r)
  end.

Fixpoint all_chars (p : ascii -> bool) (s : string) : bool :=
  match s with
  | EmptyString => true
  | String c r => p c && all_chars p r
  end.

(** [s.split(sep)] for a one-character separator. *)
Fixpoint split (sep : ascii) (s : string) : list string :=
  match s with
  | EmptyString => [EmptyString]
  | String c r =>
      if Ascii.eqb c sep then EmptyString :: split sep r
      else match split sep r with
           | [] => [String c EmptyString]
           | w :: ws => String c w :: ws
           end
  end.

(** [sep.join(parts)] *)
Definition join (sep : string) (parts : list string) : string :=
  String.concat sep parts.

(** Truth value of a [str] and of an optional [str] ([None] is false). *)
Definition truthy (s : string) : bool :=
  match s with EmptyString => false | _ => true end.

Definition truthy_opt (o : option string) : bool :=
  match o with Some s => truthy s | None => false end.

(** [BASE ** n] *)
Definition pow (base : Z) (n : nat) : Z := base ^ Z.of_nat n.

(** [c in s] for one character *)
Definition has_char (c : ascii) (s : string) : bool :=
  negb (all_chars (fun x => negb (Ascii.eqb x c)) s).

(** [s.partition(sep)] for a one-character separator: the text before the
    first [sep], whether there is one, and the text after it. *)
Fixpoint partition (sep : ascii) (s : string) : string * bool * string :=
  match s with
  | EmptyString => (EmptyString, false, EmptyString)
  | String c r =>
      if Ascii.eqb c sep then (EmptyString, true, r)
      else let '(before, found, after) := partition sep r in
           (String c before, found, after)
  end.

(** [s.rpartition(sep)[2]]: the text after the last [sep], or all of [s]
    when there is none. *)
Fixpoint after_last (sep : ascii) (s : string) : string :=
  match s with
  | EmptyString => EmptyString
  | String c r =>
      if has_char sep r then after_last sep r
      else if Ascii.eqb c sep then r
      else s
  end.

End Py.

(** ** [urllib.parse.urlparse(url).netloc]

    After CPython's [urlsplit]: leading C0 control characters and spaces are
    stripped, tab, CR and LF are removed, a scheme is split off at the first
    colon when everything before it is a scheme character and the first
    character is an ASCII letter, and the network location is what follows a
    leading double slash up to the first of [/], [?] and [#].  [urlsplit]
    raises [ValueError] when that text has one of the brackets without the
    other, or has both and fails [_check_bracketed_netloc].  The check of
    [_checknetloc] on the NFKC form never fails below U+0100, where no
    character decomposes into one of [/?#@:]. *)

Module UrlParse.

Definition is_c0_or_space (c : ascii) : bool := (Py.code c <=? 32)%N.

Definition is_unsafe (c : ascii) : bool :=
  (Py.code c =? 9)%N || (Py.code c =? 10)%N || (Py.code c =? 13)%N.

Definition scheme_char (c : ascii) : bool :=
  Py.is_ascii_alpha c || Py.is_digit c
  || (Py.code c =? 43)%N || (Py.code c =? 45)%N || (Py.code c =? 46)%N.

Definition is_colon (c : ascii) : bool := (Py.code c =? 58)%N.

Definition netloc_delim (c : ascii) : bool :=
  (Py.code c =? 47)%N || (Py.code c =? 63)%N || (Py.code c =? 35)%N.

(** [url.find(':')] as the text before and after the first colon. *)
Fixpoint split_colon (s : string) : option (string * string) :=
  match s with
  | EmptyString => None
  | String c r =>
      if is_colon c then Some (EmptyString, r)
      else match split_colon r with
           | Some (a, b) => Some (String c a, b)
           | None => None
           end
  end.

Definition valid_scheme (sch : string) : bool :=
  match sch with
  | EmptyString => false
  | String c _ => Py.is_ascii_alpha c && Py.all_chars scheme_char sch
  end.

Definition after_scheme (url : string) : string :=
  match split_colon url with
  | Some (sch, rest) => if valid_scheme sch then rest else url
  | None => url
  end.

Definition netloc (url : string) : string :=
  let url := Py.lstrip_by is_c0_or_space url in
  let url := Py.remove_chars is_unsafe url in
  match after_scheme url with
  | String "/" (String "/" r) => Py.take_while (fun c => negb (netloc_delim c)) r
  | _ => EmptyString
  end.

(** The class of the object [ipaddress.ip_address] returns. *)
Inductive ip_version : Type := IPv4 | IPv6.

Definition is_hex (c : ascii) : bool :=
  Py.is_digit c || Py.between 65 70 c || Py.between 97 102 c.

Definition not_newline (c : ascii) : bool := negb (Py.code c =? 10)%N.

(** [re.match(r"\Av[a-fA-F0-9]+\..+\Z", hostname)] *)
Definition ipvfuture (hostname : string) : bool :=
  match hostname with
  | String "v" r =>
      match Py.take_while is_hex r, Py.drop_while is_hex r with
      | String _ _, String "." (String _ _ as tail) => Py.all_chars not_newline tail
      | _, _ => false
      end
  | _ => false
  end.

Section Brackets.

(** [ipaddress.ip_address]; [None] is its [ValueError]. *)
Variable ip_address : string -> option ip_version.

(** [_check_bracketed_host] returns; it raises [ValueError] otherwise. *)
Definition _check_bracketed_host (hostname : string) : bool :=
  if Py.startswith "v" hostname then ipvfuture hostname
  else match ip_address hostname with
       | Some IPv6 => true
       | Some IPv4 => false
       | None => false
       end.

(** [_check_bracketed_netloc] returns; it raises [ValueError] otherwise. *)
Definition _check_bracketed_netloc (netloc : string) : bool :=
  let hostname_and_port := Py.after_last "@" netloc in
  let '(before_bracket, have_open_br, bracketed) :=
    Py.partition "[" hostname_and_port in
  if have_open_br then
    if Py.truthy before_bracket then false
    else
      let '(hostname, _, port) := Py.partition "]" bracketed in
      if Py.truthy port && negb (Py.startswith ":" port) then false
      else _check_bracketed_host hostname
  else
    let '(hostname, _, _) := Py.partition ":" hostname_and_port in
    _check_bracketed_host hostname.

(** The checks of [urlsplit] on the network location. *)
Definition netloc_accepted (netloc : string) : bool :=
  let opens := Py.has_char "[" netloc in
  let closes := Py.has_char "]" netloc in
  if (opens && negb closes) || (closes && negb opens) then false
  else if opens && closes then _check_bracketed_netloc netloc
  else true.

(** [urlparse(url).netloc]; [None] is the [ValueError] of [urlsplit]. *)
Definition urlparse_netloc (url : string) : option string :=
  if netloc_accepted (netloc url) then Some (netloc url) else None.

End Brackets.

End UrlParse.

(** ** The item store: the two tables of [SCHEMA_SQL] *)

Module Db.

Record source_row : Type := SourceRow {
  src_id : Z;
  src_name : string;
  source_url : string;
  feed_url : option string;
  src_type : string;
  active : Z;
  last_fetch_at : option string;
  etag : option string;
  last_modified : option string
}.

Record item_row : Type := ItemRow {
  id : Z;
  source_id : Z;
  title : string;
  url : string;
  guid : option string;
  published_at : option string;
  fetched_at : string;
  content_text : option string;
  url_hash : string;
  status : string;
  summary_json : option string;
  model_used : option string
}.

Record db : Type := Database {
  sources : list source_row;
  items : list item_row
}.

(** A database file on which only [executescript(SCHEMA_SQL)] has run. *)
Definition empty : db := {| sources := []; items := [] |}.

(** The rowid SQLite gives to a row inserted without an id: one more than
    the largest in the table. *)
Definition next_rowid (ids : list Z) : Z := 1 + fold_right Z.max 0 ids.

(** SELECT id FROM sources WHERE source_url = ?  (fetchone) *)
Definition select_source_by_url (u : string) (d : db) : option source_row :=
  find (fun r => String.eqb (source_url r) u) (sources d).

(** SELECT etag, last_modified FROM sources WHERE id=?  (fetchone) *)
Definition select_source (sid : Z) (d : db) : option source_row :=
  find (fun r => src_id r =? sid) (sources d).

Definition update_sources (f : source_row -> source_row) (sid : Z) (d : db) : db :=
  {| sources := map (fun r => if src_id r =? sid then f r else r) (sources d);
     items := items d |}.

(** UPDATE sources SET name=?, feed_url=?, type=?, active=? WHERE id=? *)
Definition update_source_config (nm : string) (fu : option string) (ty : string)
           (act : Z) : Z -> db -> db :=
  update_sources (fun r =>
    {| src_id := src_id r; src_name := nm; source_url := source_url r;
       feed_url := fu; src_type := ty; active := act;
       last_fetch_at := last_fetch_at r; etag := etag r;
       last_modified := last_modified r |}).

(** INSERT INTO sources (name, source_url, feed_url, type, active); the
    result carries [cursor.lastrowid]. *)
Definition insert_source (nm su : string) (fu : option string) (ty : string)
           (act : Z) (d : db) : Z * db :=
  let rid := next_rowid (map src_id (sources d)) in
  (rid,
   {| sources := sources d ++
        [{| src_id := rid; src_name := nm; source_url := su; feed_url := fu;
            src_type := ty; active := act; last_fetch_at := None;
            etag := None; last_modified := None |}];
      items := items d |}).

(** UPDATE sources SET etag=?, last_modified=?, last_fetch_at=? WHERE id=? *)
Definition update_source_validators (et lm : option string) (now : string)
  : Z -> db -> db :=
  update_sources (fun r =>
    {| src_id := src_id r; src_name := src_name r; source_url := source_url r;
       feed_url := feed_url r; src_type := src_type r; active := active r;
       last_fetch_at := Some now; etag := et; last_modified := lm |}).

(** SELECT 1 FROM items WHERE url_hash=?  (fetchone, as a truth value) *)
Definition item_exists (h : string) (d : db) : bool :=
  existsb (fun r => String.eqb (url_hash r) h) (items d).

(** INSERT INTO items (source_id, title, url, guid, published_at,
    fetched_at, content_text, url_hash, status).  [None] is the
    [sqlite3.IntegrityError] of the UNIQUE constraint on [url_hash]. *)
Definition insert_item (sid : Z) (ttl u : string) (g pub : option string)
           (now content h st : string) (d : db) : option db :=
  if item_exists h d then None
  else Some
    {| sources := sources d;
       items := items d ++
         [{| id := next_rowid (map id (items d)); source_id := sid;
             title := ttl; url := u; guid := g; published_at := pub;
             fetched_at := now; content_text := Some content; url_hash := h;
             status := st; summary_json := None; model_used := None |}] |}.

Definition set_status (st : string) (r : item_row) : item_row :=
  {| id := id r; source_id := source_id r; title := title r; url := url r;
     guid := guid r; published_at := published_at r;
     fetched_at := fetched_at r; content_text := content_text r;
     url_hash := url_hash r; status := st; summary_json := summary_json r;
     model_used := model_used r |}.

Definition set_summary (js model : string) (r : item_row) : item_row :=
  {| id := id r; source_id := source_id r; title := title r; url := url r;
     guid := guid r; published_at := published_at r;
     fetched_at := fetched_at r; content_text := content_text r;
     url_hash := url_hash r; status := "summarized";
     summary_json := Some js; model_used := Some model |}.

Definition update_items (sel : item_row -> bool) (f : item_row -> item_row)
           (d : db) : db :=
  {| sources := sources d;
     items := map (fun r => if sel r then f r else r) (items d) |}.

(** TEXT comparison with a bound parameter; NULL compares as unknown. *)
Definition text_lt (o : option string) (bound : string) : bool :=
  match o with Some s => String.ltb s bound | None => false end.

Definition text_ge (o : option string) (bound : string) : bool :=
  match o with Some s => String.leb bound s | None => false end.

Definition is_null (o : option string) : bool :=
  match o with Some _ => false | None => true end.

(** UPDATE items SET status = 'skipped'
    WHERE status = 'new' AND published_at < ?;  with [rowcount] *)
Definition sweep_before (cutoff : string) (d : db) : nat * db :=
  let sel r := String.eqb (status r) "new" && text_lt (published_at r) cutoff in
  (length (List.filter sel (items d)), update_items sel (set_status "skipped") d).

(** ORDER BY published_at DESC: NULL sorts below every text, rows that
    compare equal keep their table order. *)
Definition published_before (a b : item_row) : bool :=
  match published_at a, published_at b with
  | _, None => true
  | None, Some _ => false
  | Some x, Some y => String.leb y x
  end.

Fixpoint insert_sorted (r : item_row) (l : list item_row) : list item_row :=
  match l with
  | [] => [r]
  | x :: xs => if published_before r x then r :: l else x :: insert_sorted r xs
  end.

Definition order_by_published_desc (l : list item_row) : list item_row :=
  fold_right insert_sorted [] l.

(** LIMIT ?: a negative bound means no limit. *)
Definition limit (n : Z) (l : list item_row) : list item_row :=
  if n <? 0 then l else firstn (Z.to_nat n) l.

(** SELECT id, title, content_text FROM items
    WHERE status = 'new' AND (published_at >= ? OR published_at IS NULL)
    ORDER BY published_at DESC LIMIT ? *)
Definition select_new_items (cutoff : string) (cap : Z) (d : db) : list item_row :=
  limit cap
    (order_by_published_desc
       (List.filter (fun r => String.eqb (status r) "new"
                         && (text_ge (published_at r) cutoff
                             || is_null (published_at r)))
               (items d))).

(** UPDATE items SET status='skipped' WHERE id=? *)
Definition mark_skipped (i : Z) : db -> db :=
  update_items (fun r => id r =? i) (set_status "skipped").

(** UPDATE items SET summary_json=?, model_used=?, status='summarized'
    WHERE id=? *)
Definition mark_summarized (js model : string) (i : Z) : db -> db :=
  update_items (fun r => id r =? i) (set_summary js model).

End Db.

(** ** Exceptions that leave a pipeline function *)

Inductive error : Type :=
| IntegrityError
| TypeError
| ValueError (msg : string)
| RuntimeError (msg : string)
| SdkError (cls : string)
| LibraryError (cls : string).

Inductive result (A : Type) : Type :=
| Done (a : A)
| Raised (e : error).

Arguments Done {A} a.
Arguments Raised {A} e.

(** ** Stage 1: [fetcher.py] *)

Module Fetcher.

Definition REQUEST_TIMEOUT : Z := 15.
Definition MAX_RETRIES : nat := 3.
Definition BACKOFF_BASE : Z := 2.

(** A raised exception: [type(e).__name__] and [e.__cause__]. *)
#[warnings="-register-all"]
Inductive exc : Type :=
| Exc (cls : string) (cause : option exc).

Definition cls_name (e : exc) : string := let 'Exc n _ := e in n.

(** The part of a [requests.Response] that the pipeline reads. *)
Record response : Type := Response {
  status_code : Z;
  content_type : option string;
  etag_header : option string;
  last_modified_header : option string;
  text : string
}.

(** What one [SESSION.get] does: it returns a response, raises
    [requests.ConnectionError] (or a subclass), or raises another
    [requests.RequestException]. *)
Inductive get_outcome : Type :=
| Returned (r : response)
| RaisedConnectionError (e : exc)
| RaisedRequestException (e : exc).

Definition headers : Type := list (string * string).

(** Observable effects of the client: requests, sleeps and log lines. *)
Inductive event : Type :=
| Get (url : string) (hdrs : option headers) (timeout : Z)
| Sleep (secs : Z)
| LogSkipDomain (url : string)
| LogStatus (url : string) (code : Z)
| LogNonRetryable (url : string) (cls : string)
| LogAttemptFailed (attempt : nat) (url : string) (wait : Z)
| LogAllFailed (url : string)
| Pause.

(** The process state of one run: the remote side as an oracle indexed by
    the number of requests already sent, the module-level set
    [_failed_domains], and the trace of effects so far. *)
Record client : Type := Client {
  session_get : nat -> string -> option headers -> get_outcome;
  sent : nat;
  failed_domains : gset string;
  trace : list event
}.

Definition emit (ev : event) (w : client) : client :=
  {| session_get := session_get w; sent := sent w;
     failed_domains := failed_domains w; trace := trace w ++ [ev] |}.

Definition blacklist (domain : string) (w : client) : client :=
  {| session_get := session_get w; sent := sent w;
     failed_domains := {[domain]} ∪ failed_domains w; trace := trace w |}.

Definition request (url : string) (hdrs : option headers) (w : client) : client :=
  {| session_get := session_get w; sent := S (sent w);
     failed_domains := failed_domains w;
     trace := trace w ++ [Get url hdrs REQUEST_TIMEOUT] |}.

Section Client.

(** [ipaddress.ip_address], which [urlsplit] consults for a bracketed host *)
Variable ip_address : string -> option UrlParse.ip_version.

(** [urlparse] raises [ValueError] for a network location it rejects. *)
Definition _get_domain (url : string) : result string :=
  match UrlParse.urlparse_netloc ip_address url with
  | Some netloc => Done (Py.lower netloc)
  | None => Raised (LibraryError "ValueError")
  end.

End Client.

(** The last exception of the [__cause__] chain. *)
Fixpoint root_cause (e : exc) : exc :=
  match e with
  | Exc _ None => e
  | Exc _ (Some c) => root_cause c
  end.

Definition _is_non_retryable_error (e : exc) : bool :=
  let name := cls_name (root_cause e) in
  existsb (fun k => Py.contains k name)
          ["NameResolution"; "gaierror"; "ConnectionRefused"].

(** [resp.raise_for_status()] raises [HTTPError] for 400 <= status < 600. *)
Definition raises_for_status (resp : response) : bool :=
  (400 <=? status_code resp) && (status_code resp <? 600).

Definition definitive_4xx (code : Z) : bool :=
  (400 <=? code) && (code <? 500) && negb (code =? 429).

(** The two retrying [except] branches: log, then sleep unless this was
    the last attempt. *)
Definition backoff (attempt : nat) (url : string) (w : client) : client :=
  let wait := Py.pow BACKOFF_BASE attempt in
  let w := emit (LogAttemptFailed (attempt + 1) url wait) w in
  if (attempt <? MAX_RETRIES - 1)%nat then emit (Sleep wait) w else w.

(** The [for attempt in range(MAX_RETRIES)] loop and the code after it. *)
Fixpoint attempts (url domain : string) (hdrs : option headers)
         (todo : list nat) (w : client) : option response * client :=
  match todo with
  | [] => (None, blacklist domain (emit (LogAllFailed url) w))
  | attempt :: rest =>
      let out := session_get w (sent w) url hdrs in
      let w := request url hdrs w in
      match out with
      | Returned resp =>
          if status_code resp =? 304 then (Some resp, w)
          else if definitive_4xx (status_code resp)
          then (None, emit (LogStatus url (status_code resp)) w)
          else if raises_for_status resp
          then attempts url domain hdrs rest (backoff attempt url w)
          else (Some resp, w)
      | RaisedConnectionError e =>
          if _is_non_retryable_error e
          then (None, emit (LogNonRetryable url (cls_name (match e with
                                                           | Exc _ (Some c) => c
                                                           | _ => e
                                                           end)))
                           (blacklist domain w))
          else attempts url domain hdrs rest (backoff attempt url w)
      | RaisedRequestException e =>
          attempts url domain hdrs rest (backoff attempt url w)
      end
  end.

Section Fetch.

Variable ip_address : string -> option UrlParse.ip_version.

(** The domain is computed before the [try]: the [ValueError] of
    [urlparse] leaves the function before any effect. *)
Definition fetch_with_backoff (url : string) (hdrs : option headers)
           (w : client) : result (option response) * client :=
  match _get_domain ip_address url with
  | Raised e => (Raised e, w)
  | Done domain =>
      if bool_decide (domain ∈ failed_domains w)
      then (Done None, emit (LogSkipDomain url) w)
      else
        let r := attempts url domain hdrs (seq 0 MAX_RETRIES) w in
        (Done (fst r), snd r)
  end.

End Fetch.

(** The failures the retry policy is for: a 5xx status or 429, a timeout
    (any [RequestException] that is not a [ConnectionError]), or a
    connection error whose root cause is not one of the permanent ones. *)
Definition retryable_failure (o : get_outcome) : bool :=
  match o with
  | Returned resp =>
      ((500 <=? status_code resp) && (status_code resp <? 600))
      || (status_code resp =? 429)
  | RaisedConnectionError e => negb (_is_non_retryable_error e)
  | RaisedRequestException _ => true
  end.


(** *** Feed entries as [feedparser] presents them *)

Record time_tuple : Type := TimeTuple {
  tm_year : Z; tm_mon : Z; tm_mday : Z;
  tm_hour : Z; tm_min : Z; tm_sec : Z
}.

(** One entry: what [getattr(entry, name, None)] gives for each attribute
    the pipeline reads; [e_content] lists the ["value"] of each content
    element. *)
Record entry : Type := Entry {
  e_link : option string;
  e_id : option string;
  e_title : option string;
  e_content : option (list (option string));
  e_summary : option string;
  e_published_parsed : option time_tuple;
  e_updated_parsed : option time_tuple
}.

(** A [<link rel="alternate">] element: its [type] and [href] attributes. *)
Record link_tag : Type := LinkTag {
  link_type : option string;
  link_href : option string
}.

(** A scalar of [feeds.yaml] where the pipeline expects text: [null], or
    a string. *)
Inductive yaml_text : Type :=
| YNull
| YStr (s : string).

(** One source descriptor of [feeds.yaml].  [cfg_type] is [None] when the
    key [type] is absent; for [feed_url] and [html_fallback_url], which are
    only tested for truth before they are read, [None] stands for an absent
    key and for [null] alike. *)
Record source_cfg : Type := SourceCfg {
  cfg_name : string;
  cfg_url : string;
  cfg_type : option yaml_text;
  cfg_feed_url : option string;
  cfg_html_fallback_url : option string
}.

(** [source.get("type", "site")]: the default is for an absent key only. *)
Definition source_type (source : source_cfg) : yaml_text :=
  default (YStr "site") (cfg_type source).

(** [src_type == name] *)
Definition type_is (name : string) (ty : yaml_text) : bool :=
  match ty with
  | YStr s => String.eqb s name
  | YNull => false
  end.

(** *** Dates *)

Definition is_leap (y : Z) : bool :=
  (y mod 4 =? 0) && (negb (y mod 100 =? 0) || (y mod 400 =? 0)).

Definition days_in_month (y m : Z) : Z :=
  if m =? 2 then (if is_leap y then 29 else 28)
  else if (m =? 4) || (m =? 6) || (m =? 9) || (m =? 11) then 30
  else 31.

Definition in_range (lo hi x : Z) : bool := (lo <=? x) && (x <=? hi).

(** The [datetime] constructor accepts the first six fields of the tuple
    (it raises [ValueError] otherwise). *)
Definition valid_datetime (tp : time_tuple) : bool :=
  in_range 1 9999 (tm_year tp) && in_range 1 12 (tm_mon tp)
  && in_range 1 (days_in_month (tm_year tp) (tm_mon tp)) (tm_mday tp)
  && in_range 0 23 (tm_hour tp) && in_range 0 59 (tm_min tp)
  && in_range 0 59 (tm_sec tp).

Definition digit (n : Z) : ascii := ascii_of_N (48 + Z.to_N (n mod 10)).

Definition pad2 (n : Z) : string :=
  String (digit (n / 10)) (String (digit n) EmptyString).

Definition pad4 (n : Z) : string :=
  String (digit (n / 1000)) (String (digit (n / 100)) (pad2 n)).

Definition isoformat (tp : time_tuple) : string :=
  pad4 (tm_year tp) ++ "-" ++ pad2 (tm_mon tp) ++ "-" ++ pad2 (tm_mday tp)
  ++ "T" ++ pad2 (tm_hour tp) ++ ":" ++ pad2 (tm_min tp) ++ ":"
  ++ pad2 (tm_sec tp) ++ "+00:00".

Definition parse_entry_date (e : entry) : option string :=
  let try (o : option time_tuple) (otherwise : option string) :=
    match o with
    | Some tp => if valid_datetime tp then Some (isoformat tp) else otherwise
    | None => otherwise
    end in
  try (e_published_parsed e) (try (e_updated_parsed e) None).

(** *** Feed discovery without the network *)

Definition is_slash (c : ascii) : bool := (Py.code c =? 47)%N.
Definition is_dot (c : ascii) : bool := (Py.code c =? 46)%N.

(** The class [[\w.-]] *)
Definition host_char (c : ascii) : bool :=
  Py.is_word c || is_dot c || (Py.code c =? 45)%N.

Fixpoint strip_prefix (p s : string) : option string :=
  match p, s with
  | EmptyString, _ => Some s
  | String a p', String b s' => if Ascii.eqb a b then strip_prefix p' s' else None
  | _, EmptyString => None
  end.

(** The text after a leading [https?://] *)
Definition after_http (url : string) : option string :=
  match strip_prefix "https://" url with
  | Some r => Some r
  | None => strip_prefix "http://" url
  end.

(** [re.match(r"https?://medium\.com/(@[\w.-]+)", url)], as [group(1)] *)
Definition medium_profile (url : string) : option string :=
  match after_http url with
  | Some r =>
      match strip_prefix "medium.com/@" r with
      | Some u =>
          match Py.take_while host_char u with
          | EmptyString => None
          | run => Some ("@" ++ run)
          end
      | None => None
      end
  | None => None
  end.

Fixpoint dot_then_word (s : string) : bool :=
  match s with
  | String c r =>
      match r with
      | String c' _ => (is_dot c && Py.is_word c') || dot_then_word r
      | EmptyString => false
      end
  | EmptyString => false
  end.

(** [re.match(r"https?://([\w.-]+\.[\w]+)", url)], as
    [group(0).split('//')[1].split('.')[0]]: the match exists when the run
    of host characters has, after its first character, a dot followed by a
    word character; the text up to the first dot of the run is returned. *)
Definition medium_publication (url : string) : option string :=
  match after_http url with
  | Some r =>
      match Py.take_while host_char r with
      | String _ tl as run =>
          if dot_then_word tl
          then Some (Py.take_while (fun c => negb (is_dot c)) run)
          else None
      | EmptyString => None
      end
  | None => None
  end.

Definition probe_paths : list string :=
  ["/feed"; "/rss"; "/rss.xml"; "/atom.xml"; "/feed.xml"; "/index.xml";
   "/feed/feed.xml"; "/feed/atom.xml"; "/feed/index.xml"].

(** The loop over [soup.find_all("link", rel="alternate")] *)
Fixpoint first_feed_link (url : string) (tags : list link_tag) : option string :=
  match tags with
  | [] => None
  | t :: rest =>
      let lt :=
        Py.lower (match link_type t with
                  | Some x => if Py.truthy x then x else EmptyString
                  | None => EmptyString
                  end) in
      if Py.contains "rss" lt || Py.contains "atom" lt
      then
        let href := default EmptyString (link_href t) in
        Some (if Py.startswith "/" href then url ++ href
              else if negb (Py.startswith "http" href) then url ++ "/" ++ href
              else href)
      else first_feed_link url rest
  end.

(** [re.sub(r"\n{3,}", "\n\n", text)]; [run] counts the newlines read and
    not yet written. *)
Definition newline : ascii := "010"%char.

Fixpoint repeat_char (c : ascii) (n : nat) (s : string) : string :=
  match n with
  | O => s
  | S k => String c (repeat_char c k s)
  end.

Fixpoint collapse_newlines (run : nat) (s : string) : string :=
  let flush := if (3 <=? run)%nat then 2%nat else run in
  match s with
  | EmptyString => repeat_char newline flush EmptyString
  | String c r =>
      if Ascii.eqb c newline then collapse_newlines (S run) r
      else repeat_char newline flush (String c (collapse_newlines 0 r))
  end.

(** [s[:n]], also for a negative [n]. *)
Definition slice_to (n : Z) (s : string) : string :=
  if 0 <=? n then Py.take (Z.to_nat n) s
  else Py.take (String.length s - Z.to_nat (- n)) s.

Section Ingest.

(** [ipaddress.ip_address], which [urlsplit] consults for a bracketed host *)
Variable ip_address : string -> option UrlParse.ip_version.

(** [int(os.environ.get("MAX_CHARS_PER_ITEM", "8000"))] *)
Variable MAX_CHARS_PER_ITEM : Z.

(** [hashlib.sha256(url.encode("utf-8")).hexdigest()] *)
Variable sha256_hexdigest : string -> string.

(** The text BeautifulSoup yields in [extract_text_from_html]: parse,
    drop the structural tags, choose the container, [get_text]. *)
Variable soup_get_text : string -> string.

(** [soup.find_all("link", rel="alternate")] of a page *)
Variable soup_alternate_links : string -> list link_tag.

(** [feedparser.parse(text).entries] *)
Variable feedparser_entries : string -> list entry.

Definition extract_text_from_html (html : string) : string :=
  slice_to MAX_CHARS_PER_ITEM (collapse_newlines 0 (soup_get_text html)).

Definition get_entry_content (e : entry) : string :=
  let from_summary :=
    match e_summary e with
    | Some s => if Py.truthy s then extract_text_from_html s else EmptyString
    | None => EmptyString
    end in
  match e_content e with
  | Some (first :: _) =>
      let html := default EmptyString first in
      if Py.truthy html then extract_text_from_html html else from_summary
  | _ => from_summary
  end.

Definition fetch_article_text (url : string) (w : client)
  : result string * client :=
  match fetch_with_backoff ip_address url None w with
  | (Raised e, w) => (Raised e, w)
  | (Done None, w) => (Done EmptyString, w)
  | (Done (Some resp), w) => (Done (extract_text_from_html (text resp)), w)
  end.

Definition url_hash (url : string) : string := sha256_hexdigest url.

(** The loop over the conventional feed paths. *)
Fixpoint probe (url : string) (paths : list string) (w : client)
  : result (option string) * client :=
  match paths with
  | [] => (Done None, w)
  | path :: rest =>
      let probe_url := url ++ path in
      match fetch_with_backoff ip_address probe_url None w with
      | (Raised e, w) => (Raised e, w)
      | (Done (Some p), w) =>
          if status_code p =? 200 then
            let ct := Py.lower (default EmptyString (content_type p)) in
            if existsb (fun t => Py.contains t ct) ["xml"; "rss"; "atom"]
            then (Done (Some probe_url), w)
            else match feedparser_entries (text p) with
                 | _ :: _ => (Done (Some probe_url), w)
                 | [] => probe url rest w
                 end
          else probe url rest w
      | (Done None, w) => probe url rest w
      end
  end.

Definition _discover_site_feed (url : string) (w : client)
  : result (option string) * client :=
  match fetch_with_backoff ip_address url None w with
  | (Raised e, w) => (Raised e, w)
  | (Done None, w) => (Done None, w)
  | (Done (Some resp), w) =>
      match first_feed_link url (soup_alternate_links (text resp)) with
      | Some href => (Done (Some href), w)
      | None => probe url probe_paths w
      end
  end.

Definition discover_feed_url (source : source_cfg) (w : client)
  : result (option string) * client :=
  let src_type := source_type source in
  let url := Py.rstrip_by is_slash (cfg_url source) in
  if Py.truthy_opt (cfg_feed_url source) then (Done (cfg_feed_url source), w)
  else if Py.truthy_opt (cfg_html_fallback_url source) then (Done None, w)
  else if type_is "substack" src_type then (Done (Some (url ++ "/feed")), w)
  else if type_is "medium" src_type then
    match medium_profile url with
    | Some user => (Done (Some ("https://medium.com/feed/" ++ user)), w)
    | None =>
        match medium_publication url with
        | Some publication =>
            (Done (Some ("https://medium.com/feed/" ++ publication)), w)
        | None => (Done None, w)
        end
    end
  else if type_is "youtube" src_type then (Done None, w)
  else _discover_site_feed url w.

(** *** The main pipeline *)

(** The column [type] is NOT NULL: the UPDATE and the INSERT raise
    [sqlite3.IntegrityError] for a [null] type and write nothing. *)
Definition upsert_source (source : source_cfg) (feed_url : option string)
           (d : Db.db) : result Z * Db.db :=
  let active := if Py.truthy_opt feed_url then 1 else 0 in
  match Db.select_source_by_url (cfg_url source) d with
  | Some row =>
      match source_type source with
      | YNull => (Raised IntegrityError, d)
      | YStr ty =>
          (Done (Db.src_id row),
           Db.update_source_config (cfg_name source) feed_url ty active
             (Db.src_id row) d)
      end
  | None =>
      match source_type source with
      | YNull => (Raised IntegrityError, d)
      | YStr ty =>
          let '(rid, d) :=
            Db.insert_source (cfg_name source) (cfg_url source) feed_url ty
              active d in
          (Done rid, d)
      end
  end.

(** [getattr(entry, "link", None) or getattr(entry, "id", None)] *)
Definition entry_url (e : entry) : option string :=
  if Py.truthy_opt (e_link e) then e_link e else e_id e.

(** The test that sends the entry to the article page. *)
Definition thin (content : string) : bool :=
  negb (Py.truthy content)
  || (String.length (Py.strip content) <? 100)%nat.

(** The [for entry in parsed.entries] loop of [fetch_feed].  The store in
    the result is the state of the connection, with the rows inserted before
    an exception still in it. *)
Fixpoint ingest_entries (source_id : Z) (now : string) (entries : list entry)
         (new_count : nat) (d : Db.db) (w : client)
  : result nat * Db.db * client :=
  match entries with
  | [] => (Done new_count, d, w)
  | e :: rest =>
      match entry_url e with
      | Some u =>
          if negb (Py.truthy u)
          then ingest_entries source_id now rest new_count d w
          else
            let entry_hash := url_hash u in
            if Db.item_exists entry_hash d
            then ingest_entries source_id now rest new_count d w
            else
              let title := default "Untitled" (e_title e) in
              let guid := e_id e in
              let published := parse_entry_date e in
              let '(content, w) :=
                let content := get_entry_content e in
                if thin content then fetch_article_text u w
                else (Done content, w) in
              match content with
              | Raised err => (Raised err, d, w)
              | Done content =>
                  let content := slice_to MAX_CHARS_PER_ITEM content in
                  match Db.insert_item source_id title u guid published now
                          content entry_hash "new" d with
                  | Some d => ingest_entries source_id now rest (S new_count) d w
                  | None => (Raised IntegrityError, d, w)
                  end
              end
      | None => ingest_entries source_id now rest new_count d w
      end
  end.

Definition conditional_headers (row : Db.source_row) : headers :=
  app
    (if Py.truthy_opt (Db.etag row)
     then [("If-None-Match", default EmptyString (Db.etag row))] else [])
    (if Py.truthy_opt (Db.last_modified row)
     then [("If-Modified-Since", default EmptyString (Db.last_modified row))]
     else []).

(** [now] is the value [datetime.now(timezone.utc).isoformat()] has
    during the call. *)
Definition fetch_feed (source_id : Z) (feed_url : string) (now : string)
           (d : Db.db) (w : client) : result nat * Db.db * client :=
  match Db.select_source source_id d with
  | None => (Raised TypeError, d, w)
  | Some row =>
      match fetch_with_backoff ip_address feed_url
              (Some (conditional_headers row)) w with
      | (Raised e, w) => (Raised e, d, w)
      | (Done None, w) => (Done 0%nat, d, w)
      | (Done (Some resp), w) =>
          if status_code resp =? 304 then (Done 0%nat, d, w)
          else
            let d := Db.update_source_validators (etag_header resp)
                       (last_modified_header resp) now source_id d in
            match feedparser_entries (text resp) with
            | [] => (Done 0%nat, d, w)
            | entries => ingest_entries source_id now entries 0 d w
            end
      end
  end.

(** The loop of [main] over the configured sources; [clock i] is the
    time read while the source at position [i] is processed.  [main] catches
    nothing: an exception ends the process, and the writes made since the
    last [conn.commit()] are lost with the connection.  The store in the
    result is the database file as the run leaves it. *)
Fixpoint run_sources (sources : list source_cfg) (clock : nat -> string)
         (i : nat) (total_new : nat) (d : Db.db) (w : client)
  : result nat * Db.db * client :=
  match sources with
  | [] => (Done total_new, d, w)
  | source :: rest =>
      match discover_feed_url source w with
      | (Raised err, w) => (Raised err, d, w)
      | (Done found, w) =>
          if Py.truthy_opt found then
            match upsert_source source found d with
            | (Raised err, _) => (Raised err, d, w)
            | (Done source_id, d) =>
                match fetch_feed source_id (default EmptyString found)
                        (clock i) d w with
                | (Done new_count, d, w) =>
                    run_sources rest clock (S i) (total_new + new_count) d
                                (emit Pause w)
                | (Raised err, _, w) => (Raised err, d, w)
                end
            end
          else
            match upsert_source source None d with
            | (Raised err, _) => (Raised err, d, w)
            | (Done _, d) => run_sources rest clock (S i) total_new d w
            end
      end
  end.

(** [main]: one run of the fetcher on a database, with the blacklist
    empty as at process start. *)
Definition main (sources : list source_cfg) (clock : nat -> string)
           (d : Db.db) (w : client) : result nat * Db.db * client :=
  run_sources sources clock 0 0 d w.

End Ingest.

End Fetcher.

(** ** JSON values as the [json] module builds them *)

Module Json.

#[warnings="-register-all"]
Inductive value : Type :=
| JNull
| JBool (b : bool)
| JInt (n : Z)
| JFloat (repr : string)
| JStr (s : string)
| JList (items : list value)
| JDict (members : list (string * value)).

Definition keys (members : list (string * value)) : list string :=
  map fst members.

(** What [json.loads] does with a text: it returns a value, raises
    [json.JSONDecodeError], or raises another exception, such as
    [RecursionError] on deeply nested brackets or the [ValueError] of an
    integer literal with too many digits; [cls] is [type(e).__name__]. *)
Inductive loads_outcome : Type :=
| Loaded (v : value)
| JSONDecodeError
| LoadsRaised (cls : string).

End Json.

(** ** Stage 2: [summarizer.py] *)

Module Summarizer.

Import Json.

Definition MAX_INPUT_TOKENS : nat := 2000.
Definition MAX_OUTPUT_TOKENS : Z := 1024.
Definition MAX_RETRIES : nat := 3.
Definition BACKOFF_BASE : Z := 2.

Definition nl : string := String "010"%char EmptyString.
Definition dq : string := String "034"%char EmptyString.

(** [FIX_JSON_PROMPT.format(text=text)] *)
Definition FIX_JSON_PROMPT (text : string) : string :=
  "The following text was supposed to be valid JSON but isn't. Fix it and return ONLY the corrected JSON object. Do not add markdown fences or explanation."
  ++ nl ++ nl ++ "Invalid JSON:" ++ nl ++ text.

Definition REQUIRED_FIELDS : list string :=
  ["eli5"; "eli16"; "why_this_matters"; "what_changed";
   "key_quotes"; "confidence_unknowns"].

(** The suffixes tried on a response that does not parse. *)
Definition repair_suffixes : list string :=
  [dq ++ "}" ++ nl ++ "}"; dq ++ nl ++ "}"; dq ++ "]" ++ nl ++ "}";
   "]" ++ nl ++ "}"; nl ++ "}"; "}"].

(** What one request to the provider does: it returns the text of the
    completion or raises; [os_or_value] tells whether the exception is an
    [OSError] or a [ValueError], [cls] is [type(e).__name__]. *)
Inductive api_outcome : Type :=
| Completed (text : string)
| Failed (os_or_value : bool) (cls : string).

Inductive event : Type :=
| Create (provider model system user : string) (max_tokens : Z)
| Sleep (secs : Z)
| LogAttemptFailed (attempt : nat) (wait : Z)
| LogInvalidJson
| LogSkipNoContent (item : Z)
| LogDone (item : Z) (model : string)
| LogFailed (item : Z)
| Pause.

(** The provider as an oracle indexed by the number of requests already
    made, and the trace of effects of the run. *)
Record llm : Type := Llm {
  api : nat -> string -> string -> string -> string -> api_outcome;
  calls : nat;
  trace : list event
}.

Definition emit (ev : event) (w : llm) : llm :=
  {| api := api w; calls := calls w; trace := trace w ++ [ev] |}.

Definition create (provider model system user : string) (w : llm) : llm :=
  {| api := api w; calls := S (calls w);
     trace := trace w ++ [Create provider model system user MAX_OUTPUT_TOKENS] |}.

(** The part of [os.environ] that the summarizer reads. *)
Record environ : Type := Environ {
  ANTHROPIC_API_KEY : option string;
  OPENAI_API_KEY : option string;
  ANTHROPIC_MODEL : option string;
  OPENAI_MODEL : option string
}.

Definition truncate_for_input (text : string) : string :=
  let max_chars := (MAX_INPUT_TOKENS * 4)%nat in
  if (max_chars <? String.length text)%nat
  then Py.take max_chars text ++ nl ++ "[truncated]"
  else text.

Section Run.

Variable env : environ.

(** [int(os.environ.get("MAX_NEW_ITEMS_PER_RUN", "25"))] *)
Variable MAX_NEW_ITEMS_PER_RUN : Z.

(** The module constant of that name: the instruction that lists the six
    fields; its text has characters outside the modelled range. *)
Variable SUMMARY_SYSTEM_PROMPT : string.

(** [json.loads] *)
Variable json_loads : string -> loads_outcome.

(** [json.dumps] *)
Variable json_dumps : value -> string.

(** The provider name of [get_llm_client]; the client object is the
    oracle of the [llm] state. *)
Definition get_llm_client : result string :=
  if Py.truthy_opt (ANTHROPIC_API_KEY env) then Done "anthropic"
  else if Py.truthy_opt (OPENAI_API_KEY env) then Done "openai"
  else Raised (RuntimeError
    "No LLM API key configured. Set ANTHROPIC_API_KEY or OPENAI_API_KEY.").

Definition model_of (provider : string) : string :=
  if String.eqb provider "anthropic"
  then default "claude-haiku-4-5-20251001" (ANTHROPIC_MODEL env)
  else default "gpt-4o-mini" (OPENAI_MODEL env).

Definition retryable_sdk_error (err_type : string) : bool :=
  Py.contains "Error" err_type
  && existsb (fun k => Py.contains k err_type)
             ["API"; "Rate"; "Timeout"; "Connection"; "Server"].

Definition backoff (attempt : nat) (w : llm) : llm :=
  let wait := Py.pow BACKOFF_BASE attempt in
  let w := emit (LogAttemptFailed (attempt + 1) wait) w in
  if (attempt <? MAX_RETRIES - 1)%nat then emit (Sleep wait) w else w.

(** The [for attempt in range(MAX_RETRIES)] loop of [call_llm] and the
    [raise] after it. *)
Fixpoint llm_attempts (provider system user : string) (todo : list nat)
         (w : llm) : result string * llm :=
  match todo with
  | [] => (Raised (RuntimeError "All 3 LLM attempts failed"), w)
  | attempt :: rest =>
      let out := api w (calls w) provider (model_of provider) system user in
      let w := create provider (model_of provider) system user w in
      match out with
      | Completed text => (Done text, w)
      | Failed true _ => llm_attempts provider system user rest (backoff attempt w)
      | Failed false err_type =>
          if retryable_sdk_error err_type
          then llm_attempts provider system user rest (backoff attempt w)
          else (Raised (SdkError err_type), w)
      end
  end.

Definition call_llm (provider system user : string) (w : llm)
  : result string * llm :=
  llm_attempts provider system user (seq 0 MAX_RETRIES) w.

(** Only [json.JSONDecodeError] is caught; any other exception of
    [json.loads] leaves the function. *)
Definition _try_parse (text : string)
  : result (option (list (string * value))) :=
  match json_loads text with
  | LoadsRaised cls => Raised (LibraryError cls)
  | JSONDecodeError => Done None
  | Loaded (JDict data) =>
      if forallb (fun f => existsb (String.eqb f) (keys data)) REQUIRED_FIELDS
      then Done (Some data)
      else Done None
  | Loaded _ => Done None
  end.

(** Truth value of what [_try_parse] returns: [None] and the empty dict
    are false. *)
Definition truthy_dict (o : option (list (string * value)))
  : option (list (string * value)) :=
  match o with
  | Some (_ :: _) => o
  | _ => None
  end.

Fixpoint try_suffixes (text : string) (suffixes : list string)
  : result (option (list (string * value))) :=
  match suffixes with
  | [] => Done None
  | suffix :: rest =>
      match _try_parse (text ++ suffix) with
      | Raised e => Raised e
      | Done data =>
          match truthy_dict data with
          | Some data => Done (Some data)
          | None => try_suffixes text rest
          end
      end
  end.

Definition strip_fences (text : string) : string :=
  let text := Py.strip text in
  if Py.startswith "```" text
  then
    let lines := Py.split "010"%char text in
    let lines :=
      List.filter (fun l => negb (Py.startswith "```" (Py.strip l))) lines in
    Py.strip (Py.join nl lines)
  else text.

Definition parse_summary_json (text : string)
  : result (option (list (string * value))) :=
  let text := strip_fences text in
  match _try_parse text with
  | Raised e => Raised e
  | Done data =>
      match truthy_dict data with
      | Some data => Done (Some data)
      | None => try_suffixes text repair_suffixes
      end
  end.

Definition user_prompt (title content : string) : string :=
  "Title: " ++ title ++ nl ++ nl ++ "Content:" ++ nl ++ content.

Definition summarize_item (provider title content : string) (w : llm)
  : result (list (string * value) * string) * llm :=
  let content := truncate_for_input content in
  let model := model_of provider in
  match call_llm provider SUMMARY_SYSTEM_PROMPT (user_prompt title content) w with
  | (Raised e, w) => (Raised e, w)
  | (Done response, w) =>
      match parse_summary_json response with
      | Raised e => (Raised e, w)
      | Done (Some summary) => (Done (summary, model), w)
      | Done None =>
          let w := emit LogInvalidJson w in
          let fix_prompt := FIX_JSON_PROMPT response in
          match call_llm provider "Fix this JSON." fix_prompt w with
          | (Raised e, w) => (Raised e, w)
          | (Done fixed_response, w) =>
              match parse_summary_json fixed_response with
              | Raised e => (Raised e, w)
              | Done (Some summary) => (Done (summary, model), w)
              | Done None =>
                  (Raised (ValueError "Could not get valid JSON after retry"), w)
              end
          end
      end
  end.

(** The counters and the state threaded through the loop of [main]. *)
Record progress : Type := Progress {
  success_count : nat;
  error_count : nat;
  conn : Db.db;
  world : llm
}.

(** One iteration of [for row in rows]. *)
Definition process_row (provider : string) (row : Db.item_row) (p : progress)
  : progress :=
  let content := default EmptyString (Db.content_text row) in
  if negb (Py.truthy (Py.strip content)) then
    {| success_count := success_count p; error_count := error_count p;
       conn := Db.mark_skipped (Db.id row) (conn p);
       world := emit (LogSkipNoContent (Db.id row)) (world p) |}
  else
    match summarize_item provider (Db.title row) content (world p) with
    | (Done (summary, model_used), w) =>
        {| success_count := S (success_count p);
           error_count := error_count p;
           conn := Db.mark_summarized (json_dumps (JDict summary)) model_used
                     (Db.id row) (conn p);
           world := emit Pause (emit (LogDone (Db.id row) model_used) w) |}
    | (Raised _, w) =>
        {| success_count := success_count p;
           error_count := S (error_count p);
           conn := conn p;
           world := emit Pause (emit (LogFailed (Db.id row)) w) |}
    end.

Definition process_rows (provider : string) (rows : list Db.item_row)
           (p : progress) : progress :=
  fold_left (fun p row => process_row provider row p) rows p.

Definition CUTOFF : string := "2025-10-01".

(** [main] on an existing database file. *)
Definition main (d : Db.db) (w : llm) : result unit * progress :=
  let '(_, d) := Db.sweep_before CUTOFF d in
  let rows := Db.select_new_items CUTOFF MAX_NEW_ITEMS_PER_RUN d in
  let start := {| success_count := 0; error_count := 0; conn := d; world := w |} in
  match rows with
  | [] => (Done tt, start)
  | _ =>
      match get_llm_client with
      | Raised e => (Raised e, start)
      | Done provider => (Done tt, process_rows provider rows start)
      end
  end.

End Run.

End Summarizer.

(** ** The stores the two stages can produce *)

Module Pipeline.

Section Runs.

Variable ip_address : string -> option UrlParse.ip_version.
Variable sha256_hexdigest : string -> string.
Variable soup_get_text : string -> string.
Variable soup_alternate_links : string -> list Fetcher.link_tag.
Variable feedparser_entries : string -> list Fetcher.entry.
Variable json_loads : string -> Json.loads_outcome.
Variable json_dumps : Json.value -> string.

(** A store is reachable when it is the fresh database or what a run of the
    fetcher, one call of [fetch_feed], or a run of the summarizer leaves of a
    reachable store, whatever the configuration, the clock, the network and
    the provider do during the run, and whether the run ends normally or
    with an exception. *)
Inductive reachable : Db.db -> Prop :=
| reachable_empty : reachable Db.empty
| reachable_fetch_feed
    (max_chars source_id : Z) (feed_url now : string) (d : Db.db)
    (w : Fetcher.client) :
    reachable d ->
    reachable
      (snd (fst (Fetcher.fetch_feed ip_address max_chars sha256_hexdigest
                   soup_get_text feedparser_entries source_id feed_url now d w)))
| reachable_fetcher
    (max_chars : Z) (sources : list Fetcher.source_cfg) (clock : nat -> string)
    (d : Db.db) (w : Fetcher.client) :
    reachable d ->
    reachable
      (snd (fst (Fetcher.main ip_address max_chars sha256_hexdigest
                   soup_get_text soup_alternate_links feedparser_entries sources
                   clock d w)))
| reachable_summarizer
    (env : Summarizer.environ) (cap : Z) (system_prompt : string) (d : Db.db)
    (w : Summarizer.llm) :
    reachable d ->
    reachable
      (Summarizer.conn
         (snd (Summarizer.main env cap system_prompt json_loads json_dumps d w))).

End Runs.

End Pipeline.

(** ** Sample worlds

    Concrete stand-ins for the libraries and the remote side, on which the
    model can be run. *)

Module Fixtures.

Import Fetcher.

(** Every request times out. *)
Definition timeouts : nat -> string -> option headers -> get_outcome :=
  fun _ _ _ => RaisedRequestException (Exc "ReadTimeout" None).

(** Every request is answered with 404. *)
Definition not_found : nat -> string -> option headers -> get_outcome :=
  fun _ _ _ => Returned (Response 404 None None None EmptyString).

(** The first three requests time out; the server answers every later
    one. *)
Definition times_out_then_ok : nat -> string -> option headers -> get_outcome :=
  fun n _ _ =>
    match n with
    | 0%nat | 1%nat | 2%nat => RaisedRequestException (Exc "ReadTimeout" None)
    | _ => Returned (Response 200 (Some "application/rss+xml") None None "<rss/>")
    end.

(** The host name does not resolve, as [requests] reports it: a
    [ConnectionError] raised without [from], so that its [__cause__] is
    unset. *)
Definition unresolved : nat -> string -> option headers -> get_outcome :=
  fun _ _ _ => RaisedConnectionError (Exc "ConnectionError" None).

(** A stand-in for [ipaddress.ip_address] that knows the two loopback
    addresses. *)
Definition ip_address (host : string) : option UrlParse.ip_version :=
  if String.eqb host "::1" then Some UrlParse.IPv6
  else if String.eqb host "127.0.0.1" then Some UrlParse.IPv4
  else None.

(** Every request is answered with a feed document. *)
Definition feed_served : nat -> string -> option headers -> get_outcome :=
  fun _ _ _ => Returned (Response 200 (Some "application/rss+xml") None None "<rss/>").

(** A stand-in for the digest: the URL itself. *)
Definition digest (url : string) : string := url.

(** The markup is taken to be its own text. *)
Definition get_text (html : string) : string := html.

Definition no_links (html : string) : list link_tag := [].

Definition post (link summary : string) : entry :=
  {| e_link := Some link; e_id := None; e_title := Some "A post";
     e_content := None; e_summary := Some summary;
     e_published_parsed := Some (TimeTuple 2026 1 15 9 30 0);
     e_updated_parsed := None |}.

(** A feed in which the same link appears twice. *)
Definition two_entries (text : string) : list entry :=
  [post "https://example.com/post" "A short summary.";
   post "https://example.com/post" "A short summary."].

(** A feed whose only entry has nothing but white space. *)
Definition blank_entry (text : string) : list entry :=
  [post "https://example.com/blank" "   "].

Definition example_source : source_cfg :=
  {| cfg_name := "Example"; cfg_url := "https://example.com/";
     cfg_type := None; cfg_feed_url := Some "https://example.com/feed.xml";
     cfg_html_fallback_url := Some "https://example.com/blog" |}.

Definition fallback_source : source_cfg :=
  {| cfg_name := "Example"; cfg_url := "https://example.com/";
     cfg_type := None; cfg_feed_url := None;
     cfg_html_fallback_url := Some "https://example.com/blog" |}.

Definition clock (i : nat) : string := "2026-01-15T10:00:00+00:00".

Definition fresh_client (net : nat -> string -> option headers -> get_outcome)
  : client :=
  Client net 0 ∅ [].

(** The store after one run of the fetcher on [example_source]. *)
Definition ingested : Db.db :=
  snd (fst (main ip_address 8000 digest get_text no_links two_entries
                 [example_source] clock Db.empty (fresh_client feed_served))).

(** The feed is served; every later request is answered with 404. *)
Definition feed_then_not_found : nat -> string -> option headers -> get_outcome :=
  fun n _ _ =>
    match n with
    | O => Returned (Response 200 (Some "application/rss+xml") None None "<rss/>")
    | S _ => Returned (Response 404 None None None EmptyString)
    end.

(** The store after one run of the fetcher on a feed with a blank entry
    whose article page is not found. *)
Definition ingested_blank : Db.db :=
  snd (fst (main ip_address 8000 digest get_text no_links blank_entry
                 [example_source] clock Db.empty
                 (fresh_client feed_then_not_found))).

(** *** A JSON codec that knows one document *)

Definition member (k v : string) : string :=
  Summarizer.dq ++ k ++ Summarizer.dq ++ ": " ++ Summarizer.dq ++ v ++ Summarizer.dq.

Definition summary_text : string :=
  "{" ++ member "eli5" "Simple." ++ ", " ++ member "eli16" "Detailed." ++ ", "
  ++ member "why_this_matters" "Relevant." ++ ", "
  ++ member "what_changed" "New." ++ ", "
  ++ Summarizer.dq ++ "key_quotes" ++ Summarizer.dq ++ ": [], "
  ++ member "confidence_unknowns" "None." ++ "}".

Definition summary_value : Json.value :=
  Json.JDict
    [("eli5", Json.JStr "Simple."); ("eli16", Json.JStr "Detailed.");
     ("why_this_matters", Json.JStr "Relevant.");
     ("what_changed", Json.JStr "New."); ("key_quotes", Json.JList []);
     ("confidence_unknowns", Json.JStr "None.")].

Definition loads (text : string) : Json.loads_outcome :=
  if String.eqb text summary_text then Json.Loaded summary_value
  else Json.JSONDecodeError.

Definition dumps (v : Json.value) : string := summary_text.

(** *** Providers *)

Definition answers_summary
  : nat -> string -> string -> string -> string -> Summarizer.api_outcome :=
  fun _ _ _ _ _ => Summarizer.Completed summary_text.

Definition answers_prose
  : nat -> string -> string -> string -> string -> Summarizer.api_outcome :=
  fun _ _ _ _ _ => Summarizer.Completed "Here is the summary you asked for.".

Definition with_credential : Summarizer.environ :=
  {| Summarizer.ANTHROPIC_API_KEY := Some "key";
     Summarizer.OPENAI_API_KEY := None;
     Summarizer.ANTHROPIC_MODEL := None;
     Summarizer.OPENAI_MODEL := None |}.

Definition fresh_llm
           (api : nat -> string -> string -> string -> string -> Summarizer.api_outcome)
  : Summarizer.llm :=
  Summarizer.Llm api 0 [].

Definition system_prompt : string := "Summarize the article as JSON.".

(** The store after a run of the summarizer on [ingested]. *)
Definition summarized : Db.db :=
  Summarizer.conn
    (snd (Summarizer.main with_credential 25 system_prompt loads dumps
                          ingested (fresh_llm answers_summary))).

(** The item of [ingested], and the state of a run about to process it with
    a provider that answers in prose. *)
Definition sample_row : Db.item_row :=
  Db.ItemRow 1 1 "A post" "https://example.com/post" None
    (Some "2026-01-15T09:30:00+00:00") "2026-01-15T10:00:00+00:00"
    (Some "<rss/>") "https://example.com/post" "new" None None.

Definition prose_run : Summarizer.progress :=
  Summarizer.Progress 0 0 ingested (fresh_llm answers_prose).

(** The item of [ingested_blank]. *)
Definition blank_row : Db.item_row :=
  Db.ItemRow 1 1 "A post" "https://example.com/blank" None
    (Some "2026-01-15T09:30:00+00:00") "2026-01-15T10:00:00+00:00"
    (Some EmptyString) "https://example.com/blank" "new" None None.

(** A timeout, then 503, then the feed. *)
Definition flaky_then_ok : nat -> string -> option headers -> get_outcome :=
  fun n _ _ =>
    match n with
    | 0%nat => RaisedRequestException (Exc "ReadTimeout" None)
    | 1%nat => Returned (Response 503 None None None EmptyString)
    | _ => Returned (Response 200 (Some "application/rss+xml") None None "<rss/>")
    end.

Definition feed_response : response :=
  Response 200 (Some "application/rss+xml") None None "<rss/>".

(** A server that honours conditional requests: 304 when the request
    carries headers, the feed with its validators otherwise. *)
Definition validating_server : nat -> string -> option headers -> get_outcome :=
  fun _ _ hdrs =>
    match hdrs with
    | Some (_ :: _) => Returned (Response 304 None None None EmptyString)
    | _ => Returned (Response 200 (Some "application/rss+xml") (Some "v1")
                       (Some "Thu, 15 Jan 2026 09:30:00 GMT") "<rss/>")
    end.

(** The store with [example_source] registered and nothing fetched. *)
Definition registered : Db.db :=
  snd (upsert_source example_source (Some "https://example.com/feed.xml") Db.empty).

Definition registered_row : Db.source_row :=
  Db.SourceRow 1 "Example" "https://example.com/"
    (Some "https://example.com/feed.xml") "site" 1 None None None.

(** A provider that answers every request with a rate-limit error. *)
Definition rate_limited
  : nat -> string -> string -> string -> string -> Summarizer.api_outcome :=
  fun _ _ _ _ _ => Summarizer.Failed false "RateLimitError".

(** A provider whose SDK raises a [KeyError] on every request. *)
Definition key_error
  : nat -> string -> string -> string -> string -> Summarizer.api_outcome :=
  fun _ _ _ _ _ => Summarizer.Failed false "KeyError".

(** A [json.loads] that exceeds the recursion limit on every text. *)
Definition too_deep (text : string) : Json.loads_outcome :=
  Json.LoadsRaised "RecursionError".

(** A source whose descriptor says [type: null]. *)
Definition null_type_source : source_cfg :=
  {| cfg_name := "Example"; cfg_url := "https://example.com/";
     cfg_type := Some YNull; cfg_feed_url := Some "https://example.com/feed.xml";
     cfg_html_fallback_url := None |}.

End Fixtures.

(** ** Predicates used in the statements *)

Module Spec.

(** A configuration value is present when it is set to a non-empty text. *)
Definition configured (o : option string) : Prop :=
  exists u, o = Some u /\ u <> EmptyString.

Definition is_create (ev : Summarizer.event) : bool :=
  match ev with Summarizer.Create _ _ _ _ _ => true | _ => false end.

(** The requests to the provider found in a trace. *)
Definition creates (t : list Summarizer.event) : list Summarizer.event :=
  List.filter is_create t.

(** Every item with id [i] is [skipped]. *)
Definition skipped_at (i : Z) (l : list Db.item_row) : Prop :=
  forall r, In r l -> Db.id r = i -> Db.status r = "skipped".

(** The six-field schema on the stored text. *)
Definition holds_summary (json_loads : string -> Json.loads_outcome)
           (r : Db.item_row) : Prop :=
  exists s data,
    Db.summary_json r = Some s
    /\ json_loads s = Json.Loaded (Json.JDict data)
    /\ forall f, In f Summarizer.REQUIRED_FIELDS -> In f (Json.keys data).

(** A property of the item table is kept by the fetcher when every
    insertion of a [new] item keeps it. *)
Definition kept_by_fetcher (P : list Db.item_row -> Prop) : Prop :=
  forall sid ttl u g pub now c h d d',
    Db.insert_item sid ttl u g pub now c h "new" d = Some d' ->
    P (Db.items d) -> P (Db.items d').

(** It is kept by the summarizer when the two updates of that stage keep it:
    marking rows [skipped], and storing a summary that [_try_parse]
    accepted. *)
Definition kept_by_summarizer (json_loads : string -> Json.loads_outcome)
           (json_dumps : Json.value -> string)
           (P : list Db.item_row -> Prop) : Prop :=
  (forall (sel : Db.item_row -> bool) (l : list Db.item_row),
     P l -> P (map (fun r => if sel r then Db.set_status "skipped" r else r) l))
  /\ (forall (i : Z) (text : string) (summary : list (string * Json.value))
             (model : string) (l : list Db.item_row),
        Summarizer._try_parse json_loads text = Done (Some summary) ->
        P l ->
        P (map (fun r : Db.item_row =>
                  if Db.id r =? i
                  then Db.set_summary (json_dumps (Json.JDict summary)) model r
                  else r) l)).

End Spec.

(** ** What a trace shows *)

Module Observations.

Definition is_get (ev : Fetcher.event) : bool :=
  match ev with Fetcher.Get _ _ _ => true | _ => false end.

(** The requests of a trace of the fetch client. *)
Definition requests (t : list Fetcher.event) : list Fetcher.event :=
  List.filter is_get t.

(** The waits of a trace of the fetch client, in seconds, in order. *)
Definition sleeps (t : list Fetcher.event) : list Z :=
  flat_map (fun ev => match ev with Fetcher.Sleep s => [s] | _ => [] end) t.

Definition total (l : list Z) : Z := fold_right Z.add 0 l.

(** A response the client hands to its caller: 304, or a status outside
    400..599. *)
Definition served (resp : Fetcher.response) : Prop :=
  Fetcher.status_code resp = 304
  \/ Fetcher.status_code resp < 400
  \/ 600 <= Fetcher.status_code resp.

(** An exception raised without [from]: its [__cause__] is unset, and its
    own class name has none of the three markers. *)
Definition unchained (e : Fetcher.exc) : Prop :=
  (let 'Fetcher.Exc _ cause := e in cause) = None
  /\ forall k, In k ["NameResolution"; "gaierror"; "ConnectionRefused"] ->
               Py.contains k (Fetcher.cls_name e) = false.

(** An item as [fetch_feed] inserts it for source [sid] at time [now]. *)
Definition fresh_item (max_chars : Z) (sha256_hexdigest : string -> string)
           (sid : Z) (now : string) (r : Db.item_row) : Prop :=
  Db.status r = "new"
  /\ Db.source_id r = sid
  /\ Db.fetched_at r = now
  /\ Db.summary_json r = None
  /\ Db.model_used r = None
  /\ Db.url r <> EmptyString
  /\ Db.url_hash r = sha256_hexdigest (Db.url r)
  /\ exists c, Db.content_text r = Some c
               /\ (0 <= max_chars -> Z.of_nat (String.length c) <= max_chars).

(** The [active] flag of a source row agrees with its feed URL. *)
Definition active_agrees (r : Db.source_row) : Prop :=
  Db.active r = (if Py.truthy_opt (Db.feed_url r) then 1 else 0).

(** An item as some call of [fetch_feed] inserts it. *)
Definition ingested_item (max_chars : Z) (sha256_hexdigest : string -> string)
           (r : Db.item_row) : Prop :=
  exists sid now, fresh_item max_chars sha256_hexdigest sid now r.

(** The three properties of the source table. *)
Definition sources_consistent (l : list Db.source_row) : Prop :=
  List.NoDup (map Db.source_url l)
  /\ List.NoDup (map Db.src_id l)
  /\ Forall active_agrees l.

(** [a] is listed before [b] by ORDER BY published_at DESC: [b] has no date,
    or both have one and that of [b] is not the later. *)
Definition listed_before (a b : Db.item_row) : Prop :=
  Db.published_before a b = true.

(** A row that the selection of the summarizer may return. *)
Definition eligible (cutoff : string) (r : Db.item_row) : Prop :=
  Db.status r = "new"
  /\ match Db.published_at r with
     | Some date => String.leb cutoff date = true
     | None => True
     end.

(** A failure of a provider request that [call_llm] retries: an [OSError]
    or [ValueError], or an exception whose class name has [Error] and one of
    the five markers in it. *)
Definition transient (o : Summarizer.api_outcome) : Prop :=
  match o with
  | Summarizer.Completed _ => False
  | Summarizer.Failed true _ => True
  | Summarizer.Failed false cls =>
      Py.contains "Error" cls = true
      /\ exists k, In k ["API"; "Rate"; "Timeout"; "Connection"; "Server"]
                   /\ Py.contains k cls = true
  end.

(** An exception that [call_llm] lets through. *)
Definition unexpected (cls : string) : Prop :=
  Py.contains "Error" cls = false
  \/ forall k, In k ["API"; "Rate"; "Timeout"; "Connection"; "Server"] ->
               Py.contains k cls = false.

(** Every request of a trace goes to [provider] and names [model]. *)
Definition uses (provider model : string) (ev : Summarizer.event) : Prop :=
  match ev with
  | Summarizer.Create p m _ _ _ => p = provider /\ m = model
  | _ => True
  end.

(** An item that the sweep or the blank-content check has set aside. *)
Definition is_skipped (r : Db.item_row) : bool := String.eqb (Db.status r) "skipped".

(** The three values of the status column. *)
Definition known_status (r : Db.item_row) : Prop :=
  Db.status r = "new" \/ Db.status r = "skipped" \/ Db.status r = "summarized".

(** The lexicographic combination of two comparisons. *)
Definition then_by (c rest : comparison) : comparison :=
  match c with Eq => rest | Lt => Lt | Gt => Gt end.

(** The order of two time tuples as instants. *)
Definition chronological (a b : Fetcher.time_tuple) : comparison :=
  then_by (Fetcher.tm_year a ?= Fetcher.tm_year b)
    (then_by (Fetcher.tm_mon a ?= Fetcher.tm_mon b)
       (then_by (Fetcher.tm_mday a ?= Fetcher.tm_mday b)
          (then_by (Fetcher.tm_hour a ?= Fetcher.tm_hour b)
             (then_by (Fetcher.tm_min a ?= Fetcher.tm_min b)
                (Fetcher.tm_sec a ?= Fetcher.tm_sec b))))).

(** The tuple lies before 1 October 2025. *)
Definition before_october_2025 (tp : Fetcher.time_tuple) : Prop :=
  Fetcher.tm_year tp < 2025
  \/ (Fetcher.tm_year tp = 2025 /\ Fetcher.tm_mon tp < 10).

(** The seconds the retry loop may still sleep with the attempts [todo]
    ahead. *)
Definition sleep_budget (todo : list nat) : Z :=
  total (map (fun a => if (a <? Fetcher.MAX_RETRIES - 1)%nat
                       then Py.pow Fetcher.BACKOFF_BASE a else 0)
             todo).

(** Three newlines in a row. *)
Definition blank_lines : string :=
  String Fetcher.newline (String Fetcher.newline (String Fetcher.newline EmptyString)).

(** A text that validation passes over: [json.loads] raises
    [JSONDecodeError] on it, or reads it as something other than a dict, or
    as a dict that lacks one of the six fields. *)
Definition unusable (json_loads : string -> Json.loads_outcome) (text : string)
  : Prop :=
  match json_loads text with
  | Json.Loaded (Json.JDict data) =>
      exists f, In f Summarizer.REQUIRED_FIELDS /\ ~ In f (Json.keys data)
  | Json.Loaded _ => True
  | Json.JSONDecodeError => True
  | Json.LoadsRaised _ => False
  end.

(** The exceptions with which [run_sources] ends when the libraries
    return and every source has a name and a URL: [IntegrityError], in the
    presence of a source whose type is [null], and the [ValueError] of
    [urlparse]. *)
Definition fetcher_failure (sources : list Fetcher.source_cfg) (e : error)
  : Prop :=
  (e = IntegrityError
   /\ exists source, In source sources
                     /\ Fetcher.cfg_type source = Some Fetcher.YNull)
  \/ e = LibraryError "ValueError".

End Observations.

(** * Properties of the fetch client *)

Module FetchClientFacts.

Import Fetcher Fixtures.

Lemma attempts_retry (url domain : string) (hdrs : option headers)
      (attempt : nat) (rest : list nat) (w : client) :
  retryable_failure (session_get w (sent w) url hdrs) = true ->
  attempts url domain hdrs (attempt :: rest) w
  = attempts url domain hdrs rest (backoff attempt url (request url hdrs w)).
Proof.
  intros Hretry. simpl.
  destruct (session_get w (sent w) url hdrs) as [resp | e | e]; simpl in Hretry.
  - unfold definitive_4xx, raises_for_status.
    destruct (status_code resp =? 304) eqn:E304; [lia |].
    destruct (status_code resp =? 429) eqn:E429.
    + apply Z.eqb_eq in E429. rewrite E429. reflexivity.
    + rewrite orb_false_r in Hretry.
      apply andb_true_iff in Hretry as [Hlo Hhi].
      replace (400 <=? status_code resp) with true by lia.
      replace (status_code resp <? 500) with false by lia.
      replace (status_code resp <? 600) with true by lia.
      reflexivity.
  - apply negb_true_iff in Hretry. rewrite Hretry. reflexivity.
  - reflexivity.
Qed.

Section WithAddresses.

Variable ip_address : string -> option UrlParse.ip_version.

Abbreviation _get_domain := (_get_domain ip_address).
Abbreviation fetch_with_backoff := (fetch_with_backoff ip_address).

Lemma fetch_not_blacklisted (url domain : string) (hdrs : option headers)
      (w : client) :
  _get_domain url = Done domain ->
  domain ∉ failed_domains w ->
  fetch_with_backoff url hdrs w
  = (Done (fst (attempts url domain hdrs (seq 0 MAX_RETRIES) w)),
     snd (attempts url domain hdrs (seq 0 MAX_RETRIES) w)).
Proof.
  intros Hdomain Hfresh. unfold Fetcher.fetch_with_backoff.
  rewrite Hdomain, bool_decide_eq_false_2; [reflexivity | exact Hfresh].
Qed.

Lemma fetch_blacklisted (url domain : string) (hdrs : option headers)
      (w : client) :
  _get_domain url = Done domain ->
  domain ∈ failed_domains w ->
  fetch_with_backoff url hdrs w = (Done None, emit (LogSkipDomain url) w).
Proof.
  intros Hdomain Hin. unfold Fetcher.fetch_with_backoff.
  rewrite Hdomain, bool_decide_eq_true_2; [reflexivity | exact Hin].
Qed.

Lemma fetch_unparsable (url : string) (hdrs : option headers) (w : client)
      (e : error) :
  _get_domain url = Raised e ->
  fetch_with_backoff url hdrs w = (Raised e, w).
Proof.
  intros Hdomain. unfold Fetcher.fetch_with_backoff. rewrite Hdomain. reflexivity.
Qed.

(** C3: three retryable failures in a row give three requests, two waits
    of 1 then 2 seconds between them, no further request, and failure. *)
Theorem backoff_schedule (url domain : string) (hdrs : option headers)
        (w : client) :
  _get_domain url = Done domain ->
  domain ∉ failed_domains w ->
  (forall i, (i < 3)%nat ->
     retryable_failure (session_get w (sent w + i)%nat url hdrs) = true) ->
  exists w',
    fetch_with_backoff url hdrs w = (Done None, w')
    /\ trace w' = (trace w ++
         [Get url hdrs REQUEST_TIMEOUT; LogAttemptFailed 1 url 1; Sleep 1;
          Get url hdrs REQUEST_TIMEOUT; LogAttemptFailed 2 url 2; Sleep 2;
          Get url hdrs REQUEST_TIMEOUT; LogAttemptFailed 3 url 4;
          LogAllFailed url])%list
    /\ sent w' = (sent w + 3)%nat
    /\ failed_domains w' = {[domain]} ∪ failed_domains w.
Proof.
  intros Hdomain Hfresh Hfail.
  rewrite (fetch_not_blacklisted url domain) by assumption.
  change (seq 0 MAX_RETRIES) with [0; 1; 2]%nat.
  rewrite attempts_retry
    by (rewrite <- (Nat.add_0_r (sent w)); apply Hfail; lia).
  rewrite attempts_retry
    by (simpl; rewrite <- (Nat.add_1_r (sent w)); apply Hfail; lia).
  rewrite attempts_retry
    by (simpl; replace (S (S (sent w))) with (sent w + 2)%nat by lia;
        apply Hfail; lia).
  eexists. split; [reflexivity |]. simpl.
  repeat split.
  - rewrite <- !app_assoc. reflexivity.
  - lia.
Qed.

(** Every run of the retry loop only appends to the trace, and starts with
    a request when at least one attempt is left. *)
Lemma attempts_extends (url domain : string) (hdrs : option headers)
      (todo : list nat) (w : client) :
  exists tl, trace (snd (attempts url domain hdrs todo w)) = (trace w ++ tl)%list.
Proof.
  revert w. induction todo as [| attempt rest IH]; intros w.
  - simpl. eexists. reflexivity.
  - assert (Hstep : forall w0, exists tl,
              trace (snd (attempts url domain hdrs rest
                            (backoff attempt url (request url hdrs w0))))
              = (trace w0 ++ tl)%list).
    { intros w0.
      destruct (IH (backoff attempt url (request url hdrs w0))) as [tl Htl].
      rewrite Htl. unfold backoff.
      destruct (attempt <? MAX_RETRIES - 1)%nat; simpl;
        rewrite <- !app_assoc; eexists; reflexivity. }
    simpl.
    destruct (session_get w (sent w) url hdrs) as [resp | e | e].
    + destruct (status_code resp =? 304); [simpl; eexists; reflexivity |].
      destruct (definitive_4xx (status_code resp)).
      { simpl. rewrite <- app_assoc. eexists. reflexivity. }
      destruct (raises_for_status resp); [apply Hstep |].
      simpl. eexists. reflexivity.
    + destruct (_is_non_retryable_error e); [| apply Hstep].
      simpl. rewrite <- app_assoc. eexists. reflexivity.
    + apply Hstep.
Qed.

Lemma attempts_starts_with_get (url domain : string) (hdrs : option headers)
      (attempt : nat) (rest : list nat) (w : client) :
  exists tl,
    trace (snd (attempts url domain hdrs (attempt :: rest) w))
    = (trace w ++ Get url hdrs REQUEST_TIMEOUT :: tl)%list.
Proof.
  assert (Hstep : exists tl,
            trace (snd (attempts url domain hdrs rest
                          (backoff attempt url (request url hdrs w))))
            = (trace w ++ Get url hdrs REQUEST_TIMEOUT :: tl)%list).
  { destruct (attempts_extends url domain hdrs rest
                (backoff attempt url (request url hdrs w))) as [tl Htl].
    rewrite Htl. unfold backoff.
    destruct (attempt <? MAX_RETRIES - 1)%nat; simpl;
      rewrite <- !app_assoc; eexists; reflexivity. }
  simpl.
  destruct (session_get w (sent w) url hdrs) as [resp | e | e].
  - destruct (status_code resp =? 304); [simpl; eexists; reflexivity |].
    destruct (definitive_4xx (status_code resp)).
    { simpl. rewrite <- app_assoc. eexists. reflexivity. }
    destruct (raises_for_status resp); [apply Hstep |].
    simpl. eexists. reflexivity.
  - destruct (_is_non_retryable_error e); [| apply Hstep].
    simpl. rewrite <- app_assoc. eexists. reflexivity.
  - apply Hstep.
Qed.

(** C6, as the code has it: a definitive 4xx response ends the call after
    one request, without a wait, and leaves the failed set as it was, so
    the next call to the same network location sends a request again. *)
Theorem definitive_4xx_no_retry_no_blacklist
        (url domain : string) (hdrs : option headers) (w : client)
        (resp : response) :
  _get_domain url = Done domain ->
  domain ∉ failed_domains w ->
  session_get w (sent w) url hdrs = Returned resp ->
  400 <= status_code resp < 500 ->
  status_code resp <> 429 ->
  exists w',
    fetch_with_backoff url hdrs w = (Done None, w')
    /\ trace w' = (trace w ++ [Get url hdrs REQUEST_TIMEOUT;
                                LogStatus url (status_code resp)])%list
    /\ sent w' = S (sent w)
    /\ failed_domains w' = failed_domains w
    /\ forall url2 hdrs2,
         _get_domain url2 = Done domain ->
         exists tl,
           trace (snd (fetch_with_backoff url2 hdrs2 w'))
           = (trace w' ++ Get url2 hdrs2 REQUEST_TIMEOUT :: tl)%list.
Proof.
  intros Hdomain Hfresh Hresp Hrange H429.
  rewrite (fetch_not_blacklisted url domain) by assumption.
  change (seq 0 MAX_RETRIES) with [0; 1; 2]%nat.
  simpl. rewrite Hresp.
  replace (status_code resp =? 304) with false by lia.
  unfold definitive_4xx.
  replace (400 <=? status_code resp) with true by lia.
  replace (status_code resp <? 500) with true by lia.
  replace (status_code resp =? 429) with false by lia.
  simpl. eexists. split; [reflexivity |]. simpl.
  split; [rewrite <- app_assoc; reflexivity |].
  split; [reflexivity |]. split; [reflexivity |].
  intros url2 hdrs2 Hsame.
  rewrite (fetch_not_blacklisted url2 domain) by (simpl; assumption).
  cbn [snd]. apply attempts_starts_with_get.
Qed.

End WithAddresses.

Lemma backoff_schedule_witness :
  exists w',
    Fetcher.fetch_with_backoff ip_address "https://example.com/feed" None
                               (Client timeouts 0 ∅ [])
    = (Done None, w')
    /\ trace w' =
         [Get "https://example.com/feed" None 15;
          LogAttemptFailed 1 "https://example.com/feed" 1; Sleep 1;
          Get "https://example.com/feed" None 15;
          LogAttemptFailed 2 "https://example.com/feed" 2; Sleep 2;
          Get "https://example.com/feed" None 15;
          LogAttemptFailed 3 "https://example.com/feed" 4;
          LogAllFailed "https://example.com/feed"]
    /\ sent w' = 3%nat
    /\ failed_domains w' = {["example.com"]} ∪ ∅.
Proof.
  apply (backoff_schedule ip_address "https://example.com/feed" "example.com"
           None (Client timeouts 0 ∅ [])).
  - reflexivity.
  - simpl. apply not_elem_of_empty.
  - intros i _. reflexivity.
Defined.

Lemma definitive_4xx_no_retry_no_blacklist_witness :
  exists w',
    Fetcher.fetch_with_backoff ip_address "https://example.com/missing" None
                               (Client not_found 0 ∅ [])
    = (Done None, w')
    /\ trace w' = [Get "https://example.com/missing" None 15;
                   LogStatus "https://example.com/missing" 404]
    /\ sent w' = 1%nat
    /\ failed_domains w' = ∅
    /\ forall url2 hdrs2,
         Fetcher._get_domain ip_address url2 = Done "example.com" ->
         exists tl,
           trace (snd (Fetcher.fetch_with_backoff ip_address url2 hdrs2 w'))
           = (trace w' ++ Get url2 hdrs2 15 :: tl)%list.
Proof.
  apply (definitive_4xx_no_retry_no_blacklist ip_address
           "https://example.com/missing" "example.com" None
           (Client not_found 0 ∅ [])
           (Response 404 None None None EmptyString)).
  - reflexivity.
  - simpl. apply not_elem_of_empty.
  - reflexivity.
  - simpl. lia.
  - simpl. lia.
Defined.

(** C6 as stated fails: after a 404 the network location is not in the
    failed set, and the next call to it sends a request. *)
Lemma definitive_4xx_blacklists_counterexample :
  let w0 := Client not_found 0 ∅ [] in
  let w1 := snd (Fetcher.fetch_with_backoff ip_address
                   "https://example.com/missing" None w0) in
  let w2 := snd (Fetcher.fetch_with_backoff ip_address
                   "https://example.com/feed" None w1) in
  fst (Fetcher.fetch_with_backoff ip_address "https://example.com/missing" None w0)
  = Done None
  /\ Fetcher._get_domain ip_address "https://example.com/missing" = Done "example.com"
  /\ Fetcher._get_domain ip_address "https://example.com/feed" = Done "example.com"
  /\ ("example.com" ∉ failed_domains w1)
  /\ trace w2 = [Get "https://example.com/missing" None 15;
                 LogStatus "https://example.com/missing" 404;
                 Get "https://example.com/feed" None 15;
                 LogStatus "https://example.com/feed" 404].
Proof.
  repeat split.
  - apply (bool_decide_unpack _). vm_compute. reflexivity.
Qed.

(** *** The key of the failed set *)

Ltac by_char c := destruct c as [[] [] [] [] [] [] [] []]; vm_compute; congruence.

Lemma scheme_char_not_unsafe (c : ascii) :
  UrlParse.scheme_char c = true -> UrlParse.is_unsafe c = false.
Proof. by_char c. Qed.

Lemma scheme_char_not_colon (c : ascii) :
  UrlParse.scheme_char c = true -> UrlParse.is_colon c = false.
Proof. by_char c. Qed.

Lemma alpha_not_c0 (c : ascii) :
  Py.is_ascii_alpha c = true -> UrlParse.is_c0_or_space c = false.
Proof. by_char c. Qed.

Lemma remove_unsafe_scheme (sch x : string) :
  Py.all_chars UrlParse.scheme_char sch = true ->
  Py.remove_chars UrlParse.is_unsafe (sch ++ x)
  = sch ++ Py.remove_chars UrlParse.is_unsafe x.
Proof.
  induction sch as [| c sch IH]; simpl; intros Hall; [reflexivity |].
  apply andb_true_iff in Hall as [Hc Hall].
  rewrite (scheme_char_not_unsafe c Hc), (IH Hall). reflexivity.
Qed.

Lemma split_colon_scheme (sch x : string) :
  Py.all_chars UrlParse.scheme_char sch = true ->
  UrlParse.split_colon (sch ++ ":" ++ x) = Some (sch, x).
Proof.
  induction sch as [| c sch IH]; simpl; intros Hall; [reflexivity |].
  apply andb_true_iff in Hall as [Hc Hall].
  rewrite (scheme_char_not_colon c Hc), (IH Hall). reflexivity.
Qed.

Lemma netloc_of_absolute_url (sch rest : string) :
  UrlParse.valid_scheme sch = true ->
  UrlParse.netloc (sch ++ "://" ++ rest)
  = Py.take_while (fun c => negb (UrlParse.netloc_delim c))
                  (Py.remove_chars UrlParse.is_unsafe rest).
Proof.
  intros Hvalid. unfold UrlParse.netloc.
  assert (Hall : Py.all_chars UrlParse.scheme_char sch = true).
  { destruct sch as [| c sch]; [discriminate |].
    simpl in Hvalid. apply andb_true_iff in Hvalid as [_ Hall]. exact Hall. }
  assert (Hstrip : Py.lstrip_by UrlParse.is_c0_or_space (sch ++ "://" ++ rest)
                   = sch ++ "://" ++ rest).
  { destruct sch as [| c sch]; [discriminate |].
    simpl in Hvalid. apply andb_true_iff in Hvalid as [Hc _].
    simpl. rewrite (alpha_not_c0 c Hc). reflexivity. }
  rewrite Hstrip, (remove_unsafe_scheme sch _ Hall).
  change (Py.remove_chars UrlParse.is_unsafe ("://" ++ rest))
    with (":" ++ "//" ++ Py.remove_chars UrlParse.is_unsafe rest).
  unfold UrlParse.after_scheme.
  rewrite (split_colon_scheme sch _ Hall), Hvalid. reflexivity.
Qed.

Section KeyOfFailedSet.

Variable ip_address : string -> option UrlParse.ip_version.

Abbreviation _get_domain := (_get_domain ip_address).
Abbreviation fetch_with_backoff := (fetch_with_backoff ip_address).

Lemma attempts_failed_domains (url domain : string) (hdrs : option headers)
      (todo : list nat) (w : client) :
  failed_domains (snd (attempts url domain hdrs todo w)) = failed_domains w
  \/ failed_domains (snd (attempts url domain hdrs todo w))
     = {[domain]} ∪ failed_domains w.
Proof.
  revert w.
  induction todo as [| attempt todo IH]; intros w; [right; reflexivity |].
  assert (Hstep : failed_domains
            (snd (attempts url domain hdrs todo
                    (backoff attempt url (request url hdrs w))))
            = failed_domains w
          \/ failed_domains
               (snd (attempts url domain hdrs todo
                       (backoff attempt url (request url hdrs w))))
             = {[domain]} ∪ failed_domains w).
  { destruct (IH (backoff attempt url (request url hdrs w))) as [H | H];
      rewrite H; unfold backoff;
      destruct (attempt <? MAX_RETRIES - 1)%nat; simpl; auto. }
  simpl.
  destruct (session_get w (sent w) url hdrs) as [resp | e | e].
  - destruct (status_code resp =? 304); [left; reflexivity |].
    destruct (definitive_4xx (status_code resp)); [left; reflexivity |].
    destruct (raises_for_status resp); [exact Hstep | left; reflexivity].
  - destruct (_is_non_retryable_error e); [right; reflexivity | exact Hstep].
  - exact Hstep.
Qed.

(** C9, as the code has it: the key recorded and checked is the
    lower-cased network location, in which the scheme has no part.  Two URLs
    that differ in the scheme alone are accepted or rejected by [urlparse]
    together and have the same key; a call adds at most that key, and once it
    is in the set the URL under the other scheme is refused without a
    request. *)
Theorem circuit_breaker_key_is_netloc
        (sch1 sch2 rest : string) (hdrs1 hdrs2 : option headers) (w : client) :
  UrlParse.valid_scheme sch1 = true ->
  UrlParse.valid_scheme sch2 = true ->
  let url1 := sch1 ++ "://" ++ rest in
  let url2 := sch2 ++ "://" ++ rest in
  let netloc := Py.take_while (fun c => negb (UrlParse.netloc_delim c))
                              (Py.remove_chars UrlParse.is_unsafe rest) in
  let w1 := snd (fetch_with_backoff url1 hdrs1 w) in
  _get_domain url1
    = (if UrlParse.netloc_accepted ip_address netloc
       then Done (Py.lower netloc)
       else Raised (LibraryError "ValueError"))
  /\ _get_domain url2 = _get_domain url1
  /\ (failed_domains w1 = failed_domains w
      \/ (_get_domain url1 = Done (Py.lower netloc)
          /\ failed_domains w1 = {[Py.lower netloc]} ∪ failed_domains w))
  /\ (_get_domain url1 = Done (Py.lower netloc) ->
      Py.lower netloc ∈ failed_domains w1 ->
      fetch_with_backoff url2 hdrs2 w1
      = (Done None, emit (LogSkipDomain url2) w1)).
Proof.
  intros Hv1 Hv2 url1 url2 netloc w1.
  assert (Hkey : forall sch, UrlParse.valid_scheme sch = true ->
            _get_domain (sch ++ "://" ++ rest)
            = (if UrlParse.netloc_accepted ip_address netloc
               then Done (Py.lower netloc)
               else Raised (LibraryError "ValueError"))).
  { intros sch Hv. unfold Fetcher._get_domain, UrlParse.urlparse_netloc.
    rewrite netloc_of_absolute_url by exact Hv. fold netloc.
    destruct (UrlParse.netloc_accepted ip_address netloc); reflexivity. }
  pose proof (Hkey sch1 Hv1) as Hkey1. pose proof (Hkey sch2 Hv2) as Hkey2.
  fold url1 in Hkey1. fold url2 in Hkey2.
  split; [exact Hkey1 |]. split; [rewrite Hkey1; exact Hkey2 |]. split.
  - subst w1. unfold Fetcher.fetch_with_backoff.
    destruct (_get_domain url1) as [domain | e] eqn:Hdomain; [| left; reflexivity].
    assert (domain = Py.lower netloc).
    { rewrite Hkey1 in Hdomain.
      destruct (UrlParse.netloc_accepted ip_address netloc);
        [congruence | discriminate]. }
    subst domain.
    destruct (bool_decide (Py.lower netloc ∈ failed_domains w));
      [left; reflexivity |].
    cbn [snd].
    destruct (attempts_failed_domains url1 (Py.lower netloc) hdrs1
                (seq 0 MAX_RETRIES) w) as [H | H];
      [left; exact H | right; split; [reflexivity | exact H]].
  - intros Hdomain Hin.
    apply (FetchClientFacts.fetch_blacklisted ip_address url2 (Py.lower netloc));
      [| exact Hin].
    rewrite Hkey2, <- Hkey1. exact Hdomain.
Qed.

End KeyOfFailedSet.

Lemma circuit_breaker_key_is_netloc_witness :
  let w1 := snd (Fetcher.fetch_with_backoff ip_address "http://example.com/a" None
                   (Client times_out_then_ok 0 ∅ [])) in
  Fetcher.fetch_with_backoff ip_address "https://example.com/a" None w1
  = (Done None, emit (LogSkipDomain "https://example.com/a") w1).
Proof.
  intros w1.
  destruct (circuit_breaker_key_is_netloc ip_address "http" "https"
              "example.com/a" None None (Client times_out_then_ok 0 ∅ []))
    as (_ & _ & _ & Hskip); [reflexivity | reflexivity |].
  apply Hskip; [reflexivity |].
  apply (bool_decide_unpack _). vm_compute. reflexivity.
Defined.

(** C9 as stated fails: three timeouts met under [http] also stop the
    [https] URL of the same host, which the server would have answered. *)
Lemma scheme_in_key_counterexample :
  let w0 := Client times_out_then_ok 0 ∅ [] in
  let w1 := snd (Fetcher.fetch_with_backoff ip_address "http://example.com/a" None w0) in
  let w2 := snd (Fetcher.fetch_with_backoff ip_address "https://example.com/b" None w1) in
  failed_domains w1 = {["example.com"]} ∪ ∅
  /\ fst (Fetcher.fetch_with_backoff ip_address "https://example.com/b" None w1)
     = Done None
  /\ session_get w1 (sent w1) "https://example.com/b" None
     = Returned (Response 200 (Some "application/rss+xml") None None "<rss/>")
  /\ sent w2 = sent w1
  /\ trace w2 = [Get "http://example.com/a" None 15;
                 LogAttemptFailed 1 "http://example.com/a" 1; Sleep 1;
                 Get "http://example.com/a" None 15;
                 LogAttemptFailed 2 "http://example.com/a" 2; Sleep 2;
                 Get "http://example.com/a" None 15;
                 LogAttemptFailed 3 "http://example.com/a" 4;
                 LogAllFailed "http://example.com/a";
                 LogSkipDomain "https://example.com/b"].
Proof.
  repeat split.
Qed.

End FetchClientFacts.

(** * Properties of feed discovery and ingestion *)

Module IngestFacts.

Import Fetcher Spec.

Lemma truthy_opt_configured (o : option string) :
  Py.truthy_opt o = true <-> configured o.
Proof.
  split.
  - destruct o as [[| c s] |]; simpl; try discriminate.
    intros _. eexists. split; [reflexivity | discriminate].
  - intros (u & -> & Hne). destruct u; [contradiction | reflexivity].
Qed.

Lemma truthy_opt_not_configured (o : option string) :
  Py.truthy_opt o = false <-> ~ configured o.
Proof.
  rewrite <- truthy_opt_configured. destruct (Py.truthy_opt o); split; congruence.
Qed.

Section WithLibraries.

Variable ip_address : string -> option UrlParse.ip_version.
Variable MAX_CHARS_PER_ITEM : Z.
Variable sha256_hexdigest : string -> string.
Variable soup_get_text : string -> string.
Variable soup_alternate_links : string -> list link_tag.
Variable feedparser_entries : string -> list entry.

Abbreviation _get_domain := (_get_domain ip_address).
Abbreviation fetch_with_backoff := (fetch_with_backoff ip_address).
Abbreviation discover_feed_url :=
  (discover_feed_url ip_address soup_alternate_links feedparser_entries).
Abbreviation get_entry_content :=
  (get_entry_content MAX_CHARS_PER_ITEM soup_get_text).
Abbreviation fetch_article_text :=
  (fetch_article_text ip_address MAX_CHARS_PER_ITEM soup_get_text).
Abbreviation url_hash := (url_hash sha256_hexdigest).
Abbreviation ingest_entries :=
  (ingest_entries ip_address MAX_CHARS_PER_ITEM sha256_hexdigest soup_get_text).
Abbreviation fetch_feed :=
  (fetch_feed ip_address MAX_CHARS_PER_ITEM sha256_hexdigest soup_get_text
              feedparser_entries).
Abbreviation run_sources :=
  (run_sources ip_address MAX_CHARS_PER_ITEM sha256_hexdigest soup_get_text
               soup_alternate_links feedparser_entries).

(** C8: a configured feed URL is returned as it is, with no effect on
    the client, whatever else is configured; without it a configured
    HTML fallback gives none, again with no effect; so a result from a
    pattern, an exception, or any effect on the client, means neither was
    configured. *)
Theorem discovery_first_match_wins (source : source_cfg) (w : client) :
  (configured (cfg_feed_url source) ->
   discover_feed_url source w = (Done (cfg_feed_url source), w))
  /\ (~ configured (cfg_feed_url source) ->
      configured (cfg_html_fallback_url source) ->
      discover_feed_url source w = (Done None, w))
  /\ (forall r w',
        discover_feed_url source w = (r, w') ->
        w' <> w \/ (r <> Done (cfg_feed_url source) /\ r <> Done None) ->
        ~ configured (cfg_feed_url source)
        /\ ~ configured (cfg_html_fallback_url source)).
Proof.
  unfold Fetcher.discover_feed_url.
  split; [| split].
  - intros Hfeed. apply truthy_opt_configured in Hfeed.
    rewrite Hfeed. reflexivity.
  - intros Hfeed Hfallback.
    apply truthy_opt_not_configured in Hfeed.
    apply truthy_opt_configured in Hfallback.
    rewrite Hfeed, Hfallback. reflexivity.
  - intros r w'.
    rewrite <- !truthy_opt_not_configured.
    destruct (Py.truthy_opt (cfg_feed_url source)).
    { intros [= <- <-] [Hw | [Hr _]]; contradiction. }
    destruct (Py.truthy_opt (cfg_html_fallback_url source)).
    { intros [= <- <-] [Hw | [_ Hr]]; contradiction. }
    intros _ _. split; reflexivity.
Qed.


(** The article fetch returns a text when the URL parses, and raises before
    any effect when it does not. *)
Lemma fetch_article_text_outcome (u : string) (w : client) :
  snd (fetch_article_text u w) = snd (fetch_with_backoff u None w)
  /\ (forall domain, _get_domain u = Done domain ->
        exists body, fst (fetch_article_text u w) = Done body)
  /\ (forall err, _get_domain u = Raised err ->
        fetch_article_text u w = (Raised err, w)).
Proof.
  unfold Fetcher.fetch_article_text, Fetcher.fetch_with_backoff.
  destruct (_get_domain u) as [domain | err].
  - split; [| split; [| discriminate]].
    + destruct (bool_decide (domain ∈ failed_domains w)); [reflexivity |].
      destruct (attempts u domain None (seq 0 MAX_RETRIES) w) as [[resp |] w'];
        reflexivity.
    + intros _ _.
      destruct (bool_decide (domain ∈ failed_domains w));
        [eexists; reflexivity |].
      destruct (attempts u domain None (seq 0 MAX_RETRIES) w) as [[resp |] w'];
        eexists; reflexivity.
  - split; [reflexivity |]. split; [discriminate |].
    intros err' [= <-]. reflexivity.
Qed.


(** *** The entry loop *)

Lemma item_exists_insert (h : string) (sid : Z) (ttl u : string)
      (g pub : option string) (now c h' st : string) (d d' : Db.db) :
  Db.insert_item sid ttl u g pub now c h' st d = Some d' ->
  Db.item_exists h d' = Db.item_exists h d || String.eqb h' h.
Proof.
  unfold Db.insert_item. destruct (Db.item_exists h' d); [discriminate |].
  intros [= <-]. unfold Db.item_exists. simpl.
  rewrite existsb_app. simpl. rewrite orb_false_r. reflexivity.
Qed.

(** A property of the store that every insertion of a [new] item keeps is
    kept by the loop, however it ends. *)
Lemma ingest_entries_keeps (P : Db.db -> Prop) :
  (forall sid ttl u g pub now c h d d',
     Db.insert_item sid ttl u g pub now c h "new" d = Some d' -> P d -> P d') ->
  forall sid now es n d w,
    P d -> P (snd (fst (ingest_entries sid now es n d w))).
Proof.
  intros Hins sid now es.
  induction es as [| e es IH]; intros n d w HP; [exact HP |].
  simpl. destruct (entry_url e) as [u |]; [| apply IH; exact HP].
  destruct (Py.truthy u); simpl; [| apply IH; exact HP].
  destruct (Db.item_exists (url_hash u) d) eqn:Hex; [apply IH; exact HP |].
  destruct (if thin (get_entry_content e)
            then fetch_article_text u w
            else (Done (get_entry_content e), w)) as [[content | err] w'];
    [| exact HP].
  destruct (Db.insert_item _ _ _ _ _ _ _ _ _ d) as [d' |] eqn:Hd'; [| exact HP].
  apply IH. exact (Hins _ _ _ _ _ _ _ _ _ _ Hd' HP).
Qed.

(** The loop raises nothing when [urlparse] accepts the URL of every entry:
    the existence check rules the constraint violation out. *)
Lemma ingest_entries_done (sid : Z) (now : string) (es : list entry)
      (n : nat) (d : Db.db) (w : client) :
  (forall e u, In e es -> entry_url e = Some u ->
               exists domain, _get_domain u = Done domain) ->
  exists k, fst (fst (ingest_entries sid now es n d w)) = Done (n + k)%nat.
Proof.
  revert n d w. induction es as [| e es IH]; intros n d w Hparse.
  - exists 0%nat. simpl. f_equal. lia.
  - assert (Hrest : forall n d w, exists k,
              fst (fst (ingest_entries sid now es n d w)) = Done (n + k)%nat).
    { intros n0 d0 w0. apply IH. intros e0 u0 Hin. apply Hparse. right. exact Hin. }
    simpl. destruct (entry_url e) as [u |] eqn:Hurl; [| apply Hrest].
    destruct (Py.truthy u); simpl; [| apply Hrest].
    destruct (Db.item_exists (url_hash u) d) eqn:Hex; [apply Hrest |].
    destruct (Hparse e u (or_introl eq_refl) Hurl) as [domain Hdomain].
    assert (Hcontent : exists content w',
              (if thin (get_entry_content e)
               then fetch_article_text u w
               else (Done (get_entry_content e), w)) = (Done content, w')).
    { destruct (thin (get_entry_content e)); [| eexists _, _; reflexivity].
      destruct (fetch_article_text_outcome u w) as (_ & Hparsed & _).
      destruct (Hparsed domain Hdomain) as [body Hbody].
      exists body, (snd (fetch_article_text u w)).
      rewrite <- Hbody. apply surjective_pairing. }
    destruct Hcontent as (content & w' & ->).
    unfold Db.insert_item. rewrite Hex.
    match goal with
    | |- context [ingest_entries sid now es (S n) ?d1 w'] =>
        destruct (Hrest (S n) d1 w') as [k Hk]
    end.
    exists (S k). rewrite Hk. f_equal. lia.
Qed.

(** After a loop that ended normally the hash of every entry URL is in the
    store. *)
Lemma ingest_entries_records (sid : Z) (now : string) (es : list entry)
      (n k : nat) (d : Db.db) (w : client) (e : entry) (u : string) :
  fst (fst (ingest_entries sid now es n d w)) = Done k ->
  In e es -> entry_url e = Some u ->
  Db.item_exists (url_hash u) d = true \/ Py.truthy u = true ->
  Db.item_exists (url_hash u) (snd (fst (ingest_entries sid now es n d w))) = true.
Proof.
  assert (Hmono : forall es n d w,
            Db.item_exists (url_hash u) d = true ->
            Db.item_exists (url_hash u)
              (snd (fst (ingest_entries sid now es n d w))) = true).
  { intros es0 n0 d0 w0.
    apply (ingest_entries_keeps
             (fun d => Db.item_exists (url_hash u) d = true)).
    intros ? ? ? ? ? ? ? ? ? ? Hins Hd.
    rewrite (item_exists_insert _ _ _ _ _ _ _ _ _ _ _ _ Hins), Hd. reflexivity. }
  revert n d w. induction es as [| e0 es IH]; intros n d w Hdone Hin Hurl Hu;
    [destruct Hin |].
  destruct Hu as [Hu | Hu]; [apply Hmono; exact Hu |].
  destruct Hin as [-> | Hin].
  - simpl. rewrite Hurl, Hu. simpl.
    destruct (Db.item_exists (url_hash u) d) eqn:Hex; [apply Hmono; exact Hex |].
    simpl in Hdone. rewrite Hurl, Hu in Hdone. simpl in Hdone.
    rewrite Hex in Hdone.
    destruct (if thin (get_entry_content e)
              then fetch_article_text u w
              else (Done (get_entry_content e), w)) as [[content | err] w'];
      [| discriminate].
    destruct (Db.insert_item _ _ _ _ _ _ _ _ _ d) as [d' |] eqn:Hd'.
    + apply Hmono.
      rewrite (item_exists_insert _ _ _ _ _ _ _ _ _ _ _ _ Hd'), String.eqb_refl.
      apply orb_true_r.
    + discriminate.
  - assert (Hrest : forall n d w,
              fst (fst (ingest_entries sid now es n d w)) = Done k ->
              Db.item_exists (url_hash u)
                (snd (fst (ingest_entries sid now es n d w))) = true).
    { intros n0 d0 w0 Hd0. apply IH; [exact Hd0 | exact Hin | exact Hurl |].
      right. exact Hu. }
    simpl in Hdone |- *.
    destruct (entry_url e0) as [u0 |]; [| apply Hrest; exact Hdone].
    destruct (Py.truthy u0); simpl in Hdone |- *; [| apply Hrest; exact Hdone].
    destruct (Db.item_exists (url_hash u0) d) eqn:Hex0;
      [apply Hrest; exact Hdone |].
    destruct (if thin (get_entry_content e0)
              then fetch_article_text u0 w
              else (Done (get_entry_content e0), w)) as [[content | err] w'];
      [| discriminate].
    destruct (Db.insert_item _ _ _ _ _ _ _ _ _ d) as [d' |] eqn:Hd';
      [apply Hrest; exact Hdone | discriminate].
Qed.

(** When the hash of every entry URL is in the store the loop changes
    nothing. *)
Lemma ingest_entries_all_present (sid : Z) (now : string) (es : list entry)
      (n : nat) (d : Db.db) (w : client) :
  (forall e u, In e es -> entry_url e = Some u -> Py.truthy u = true ->
               Db.item_exists (url_hash u) d = true) ->
  ingest_entries sid now es n d w = (Done n, d, w).
Proof.
  induction es as [| e es IH]; intros Hall; [reflexivity |].
  assert (Hrest : ingest_entries sid now es n d w = (Done n, d, w)).
  { apply IH. intros e0 u0 Hin. apply Hall. right. exact Hin. }
  simpl. destruct (entry_url e) as [u |] eqn:Hurl; [| exact Hrest].
  destruct (Py.truthy u) eqn:Hu; simpl; [| exact Hrest].
  rewrite (Hall e u (or_introl eq_refl) Hurl Hu). exact Hrest.
Qed.

Lemma select_source_update (f : Db.source_row -> Db.source_row) (sid : Z)
      (d : Db.db) (row : Db.source_row) :
  (forall r, Db.src_id (f r) = Db.src_id r) ->
  Db.select_source sid d = Some row ->
  Db.select_source sid (Db.update_sources f sid d) = Some (f row).
Proof.
  intros Hid. unfold Db.select_source, Db.update_sources. simpl.
  induction (Db.sources d) as [| r rs IH]; simpl; [discriminate |].
  destruct (Db.src_id r =? sid) eqn:Hr.
  - intros [= ->]. simpl. rewrite Hid, Hr. reflexivity.
  - intros Hfind. simpl. rewrite Hr. apply IH. exact Hfind.
Qed.

(** C7: once a run of [fetch_feed] has read the entries of a feed and
    ended normally, a second run on the resulting store, whatever the
    network does, reports zero new items and leaves the items as they are,
    as long as every entry URL it reads was among those of the first run.
    The first run ends normally when [urlparse] accepts every entry URL. *)
Theorem second_run_inserts_nothing
        (source_id : Z) (feed_url now1 now2 : string) (d : Db.db)
        (w w2 : client) (row : Db.source_row) (resp : response) (wa : client) :
  Db.select_source source_id d = Some row ->
  fetch_with_backoff feed_url (Some (conditional_headers row)) w
  = (Done (Some resp), wa) ->
  status_code resp <> 304 ->
  (forall hdrs resp2 wb e u,
     fetch_with_backoff feed_url hdrs w2 = (Done (Some resp2), wb) ->
     In e (feedparser_entries (text resp2)) ->
     entry_url e = Some u ->
     u <> EmptyString ->
     exists e0, In e0 (feedparser_entries (text resp)) /\ entry_url e0 = Some u) ->
  ((forall e u, In e (feedparser_entries (text resp)) -> entry_url e = Some u ->
                exists domain, _get_domain u = Done domain) ->
   exists n d1 w1, fetch_feed source_id feed_url now1 d w = (Done n, d1, w1))
  /\ forall n d1 w1,
       fetch_feed source_id feed_url now1 d w = (Done n, d1, w1) ->
       exists d2 w2',
         fetch_feed source_id feed_url now2 d1 w2 = (Done 0%nat, d2, w2')
         /\ Db.items d2 = Db.items d1.
Proof.
  intros Hrow Hresp H304 Hsame.
  set (dv := Db.update_source_validators (etag_header resp)
               (last_modified_header resp) now1 source_id d).
  set (run1 := ingest_entries source_id now1 (feedparser_entries (text resp)) 0 dv wa).
  assert (Hfirst : fetch_feed source_id feed_url now1 d w = run1).
  { unfold Fetcher.fetch_feed. rewrite Hrow, Hresp.
    replace (status_code resp =? 304) with false by lia.
    fold dv. subst run1.
    destruct (feedparser_entries (text resp)) as [| e es] eqn:Hes; reflexivity. }
  split.
  - intros Hparse.
    destruct (ingest_entries_done source_id now1 (feedparser_entries (text resp))
                0 dv wa Hparse) as [k Hk].
    exists k, (snd (fst run1)), (snd run1). rewrite Hfirst.
    fold run1 in Hk. destruct run1 as [[r d1] w1]. simpl in Hk |- *.
    rewrite Hk. reflexivity.
  - intros n d1 w1 Hrun1. rewrite Hfirst in Hrun1.
    assert (Hdone : fst (fst run1) = Done n) by (rewrite Hrun1; reflexivity).
    assert (Hd1 : d1 = snd (fst run1)) by (rewrite Hrun1; reflexivity).
    assert (Hsources : Db.sources d1 = Db.sources dv).
    { rewrite Hd1. subst run1.
      apply (ingest_entries_keeps (fun x => Db.sources x = Db.sources dv));
        [| reflexivity].
      intros ? ? ? ? ? ? ? ? ? ? Hins Hx. unfold Db.insert_item in Hins.
      destruct (Db.item_exists h d0); [discriminate |].
      injection Hins as <-. exact Hx. }
    assert (Hrow1 : exists row1, Db.select_source source_id d1 = Some row1).
    { unfold Db.select_source. rewrite Hsources.
      eexists. apply select_source_update; [reflexivity | exact Hrow]. }
    destruct Hrow1 as [row1 Hrow1].
    assert (Hparsed : exists domain, _get_domain feed_url = Done domain).
    { unfold Fetcher.fetch_with_backoff in Hresp.
      destruct (_get_domain feed_url) as [domain | err];
        [eexists; reflexivity | discriminate]. }
    destruct Hparsed as [domain Hdomain].
    unfold Fetcher.fetch_feed. rewrite Hrow1.
    destruct (fetch_with_backoff feed_url (Some (conditional_headers row1)) w2)
      as [[[resp2 |] | err] wb] eqn:Hresp2.
    + destruct (status_code resp2 =? 304); [eexists _, _; split; reflexivity |].
      destruct (feedparser_entries (text resp2)) as [| e2 es2] eqn:Hes2;
        [eexists _, _; split; reflexivity |].
      rewrite ingest_entries_all_present.
      { eexists _, _. split; reflexivity. }
      intros e u Hin Hurl Hu.
      assert (Hne : u <> EmptyString) by (destruct u; [discriminate | discriminate]).
      rewrite <- Hes2 in Hin.
      destruct (Hsame _ _ _ _ _ Hresp2 Hin Hurl Hne) as (e0 & Hin0 & Hurl0).
      unfold Db.item_exists. simpl. fold (Db.item_exists (url_hash u) d1).
      rewrite Hd1. subst run1.
      apply (ingest_entries_records _ _ _ _ n _ _ e0 u); try assumption.
      right. exact Hu.
    + eexists _, _; split; reflexivity.
    + exfalso. unfold Fetcher.fetch_with_backoff in Hresp2.
      rewrite Hdomain in Hresp2.
      destruct (bool_decide (domain ∈ failed_domains w2)); discriminate.
Qed.

(** *** Properties of the item table kept by ingestion *)

Lemma fetch_feed_keeps (P : list Db.item_row -> Prop) (source_id : Z)
      (feed_url now : string) (d : Db.db) (w : client) :
  kept_by_fetcher P ->
  P (Db.items d) ->
  P (Db.items (snd (fst (fetch_feed source_id feed_url now d w)))).
Proof.
  intros Hkept HP. unfold Fetcher.fetch_feed.
  destruct (Db.select_source source_id d) as [row |]; [| exact HP].
  destruct (fetch_with_backoff feed_url _ w) as [[[resp |] | err] w1];
    [| exact HP | exact HP].
  destruct (status_code resp =? 304); [exact HP |].
  destruct (feedparser_entries (text resp)) as [| e es]; [exact HP |].
  apply (ingest_entries_keeps (fun x => P (Db.items x))); [exact Hkept | exact HP].
Qed.

Lemma upsert_source_items (source : source_cfg) (fu : option string) (d : Db.db) :
  Db.items (snd (upsert_source source fu d)) = Db.items d.
Proof.
  unfold upsert_source.
  destruct (Db.select_source_by_url (cfg_url source) d);
    destruct (source_type source); reflexivity.
Qed.

(** A run of the fetcher, however it ends, leaves the items that the last
    commit has written: those of the start with insertions of [new] items. *)
Lemma run_sources_keeps (P : list Db.item_row -> Prop)
      (sources : list source_cfg) (clock : nat -> string) (i total : nat)
      (d : Db.db) (w : client) :
  kept_by_fetcher P ->
  P (Db.items d) ->
  P (Db.items (snd (fst (run_sources sources clock i total d w)))).
Proof.
  intros Hkept. revert i total d w.
  induction sources as [| source rest IH]; intros i total d w HP; [exact HP |].
  simpl.
  destruct (discover_feed_url source w) as [[found | err] w1]; [| exact HP].
  pose proof (upsert_source_items source found d) as Hfound.
  pose proof (upsert_source_items source None d) as Hnone.
  destruct (Py.truthy_opt found).
  - destruct (upsert_source source found d) as [[sid | err] d1];
      simpl in Hfound; [| exact HP].
    pose proof (fetch_feed_keeps P sid (default EmptyString found) (clock i)
                  d1 w1 Hkept) as Hfeed.
    rewrite Hfound in Hfeed. specialize (Hfeed HP).
    destruct (fetch_feed sid (default EmptyString found) (clock i) d1 w1)
      as [[[n | err] d2] w2]; simpl in Hfeed.
    + apply IH. exact Hfeed.
    + simpl. rewrite Hfound. exact HP.
  - destruct (upsert_source source None d) as [[sid | err] d1];
      simpl in Hnone; [| exact HP].
    apply IH. rewrite Hnone. exact HP.
Qed.

End WithLibraries.

Import Fixtures.

Lemma discovery_first_match_wins_witness :
  discover_feed_url ip_address no_links two_entries example_source
                    (fresh_client timeouts)
  = (Done (Some "https://example.com/feed.xml"), fresh_client timeouts)
  /\ discover_feed_url ip_address no_links two_entries fallback_source
                       (fresh_client timeouts)
     = (Done None, fresh_client timeouts).
Proof.
  split.
  - apply (proj1 (discovery_first_match_wins ip_address no_links two_entries
                    example_source (fresh_client timeouts))).
    exists "https://example.com/feed.xml". split; [reflexivity | discriminate].
  - apply (proj1 (proj2 (discovery_first_match_wins ip_address no_links
                           two_entries fallback_source (fresh_client timeouts)))).
    + intros (u & Hu & _). discriminate.
    + exists "https://example.com/blog". split; [reflexivity | discriminate].
Defined.


Lemma second_run_inserts_nothing_witness :
  let first :=
    fetch_feed ip_address 8000 digest get_text two_entries 1
               "https://example.com/feed.xml" (clock 0) registered
               (fresh_client feed_served) in
  fst (fst first) = Done 1%nat
  /\ exists d2 w2',
       fetch_feed ip_address 8000 digest get_text two_entries 1
                  "https://example.com/feed.xml" (clock 1) (snd (fst first))
                  (fresh_client feed_served)
       = (Done 0%nat, d2, w2')
       /\ Db.items d2 = Db.items (snd (fst first)).
Proof.
  intros first. split; [reflexivity |].
  destruct (second_run_inserts_nothing ip_address 8000 digest get_text two_entries 1
              "https://example.com/feed.xml" (clock 0) (clock 1) registered
              (fresh_client feed_served) (fresh_client feed_served)
              registered_row
              (Response 200 (Some "application/rss+xml") None None "<rss/>")
              (snd (fetch_with_backoff ip_address "https://example.com/feed.xml"
                      (Some []) (fresh_client feed_served))))
    as [_ Hsecond].
  - reflexivity.
  - reflexivity.
  - simpl. lia.
  - intros hdrs resp2 wb e u _ Hin Hurl _. exists e. split; assumption.
  - apply (Hsecond 1%nat (snd (fst first)) (snd first)). reflexivity.
Defined.

End IngestFacts.

(** * Properties of the summarization stage *)

Module SummarizerFacts.

Import Json Summarizer Spec.

Lemma creates_app (a b : list event) : creates (a ++ b)%list = (creates a ++ creates b)%list.
Proof. apply List.filter_app. Qed.

Section WithEnvironment.

Variable env : environ.
Variable MAX_NEW_ITEMS_PER_RUN : Z.
Variable SUMMARY_SYSTEM_PROMPT : string.
Variable json_loads : string -> loads_outcome.
Variable json_dumps : value -> string.

Abbreviation model_of := (model_of env).
Abbreviation llm_attempts := (llm_attempts env).
Abbreviation call_llm := (call_llm env).
Abbreviation _try_parse := (_try_parse json_loads).
Abbreviation parse_summary_json := (parse_summary_json json_loads).
Abbreviation summarize_item := (summarize_item env SUMMARY_SYSTEM_PROMPT json_loads).
Abbreviation process_row := (process_row env SUMMARY_SYSTEM_PROMPT json_loads json_dumps).
Abbreviation process_rows := (process_rows env SUMMARY_SYSTEM_PROMPT json_loads json_dumps).
Abbreviation main :=
  (main env MAX_NEW_ITEMS_PER_RUN SUMMARY_SYSTEM_PROMPT json_loads json_dumps).
Abbreviation kept_by_summarizer := (kept_by_summarizer json_loads json_dumps).

(** One call of [call_llm] sends the same request between one and three
    times; when it returns a text, that text answers the last request and
    every earlier one raised. *)
Lemma llm_attempts_requests (provider system user : string) (todo : list nat)
      (w : llm) :
  let r := fst (llm_attempts provider system user todo w) in
  let w' := snd (llm_attempts provider system user todo w) in
  exists k,
    (k <= length todo)%nat
    /\ (todo <> [] -> 1 <= k)%nat
    /\ creates (trace w')
       = (creates (trace w)
          ++ repeat (Create provider (model_of provider) system user MAX_OUTPUT_TOKENS) k)%list
    /\ calls w' = (calls w + k)%nat
    /\ api w' = api w
    /\ forall text, r = Done text ->
         (forall j, (S j < k)%nat ->
            exists b c, api w (calls w + j)%nat provider (model_of provider) system user
                        = Failed b c)
         /\ exists j, k = S j
              /\ api w (calls w + j)%nat provider (model_of provider) system user
                 = Completed text.
Proof.
  revert w. induction todo as [| attempt rest IH]; intros w; simpl.
  - exists 0%nat.
    split; [lia |]. split; [intros H; contradiction |].
    split; [simpl; rewrite app_nil_r; reflexivity |].
    split; [lia |]. split; [reflexivity |]. discriminate.
  - assert (Hstep : forall b c,
              api w (calls w) provider (model_of provider) system user = Failed b c ->
              let r := fst (llm_attempts provider system user rest
                              (backoff attempt (create provider (model_of provider) system user w))) in
              let w' := snd (llm_attempts provider system user rest
                               (backoff attempt (create provider (model_of provider) system user w))) in
              exists k,
                (k <= S (length rest))%nat
                /\ (attempt :: rest <> [] -> 1 <= k)%nat
                /\ creates (trace w')
                   = (creates (trace w)
                      ++ repeat (Create provider (model_of provider) system user MAX_OUTPUT_TOKENS) k)%list
                /\ calls w' = (calls w + k)%nat
                /\ api w' = api w
                /\ forall text, r = Done text ->
                     (forall j, (S j < k)%nat ->
                        exists b c, api w (calls w + j)%nat provider (model_of provider) system user
                                    = Failed b c)
                     /\ exists j, k = S j
                          /\ api w (calls w + j)%nat provider (model_of provider) system user
                             = Completed text).
    { intros b c Hfail.
      set (w1 := backoff attempt (create provider (model_of provider) system user w)).
      assert (Hw1 : creates (trace w1)
                    = (creates (trace w)
                       ++ [Create provider (model_of provider) system user MAX_OUTPUT_TOKENS])%list
                    /\ calls w1 = S (calls w) /\ api w1 = api w).
      { subst w1. unfold backoff.
        destruct (attempt <? MAX_RETRIES - 1)%nat; simpl;
          rewrite !creates_app; simpl; rewrite ?app_nil_r; auto. }
      destruct Hw1 as (Htr & Hcalls & Hapi).
      destruct (IH w1) as (k & Hle & _ & Hcreates & Hk & Hapi' & Hdone).
      exists (S k). simpl.
      split; [lia |]. split; [lia |].
      split; [rewrite Hcreates, Htr, <- app_assoc; reflexivity |].
      split; [rewrite Hk, Hcalls; lia |].
      split; [rewrite Hapi', Hapi; reflexivity |].
      intros text Htext. destruct (Hdone text Htext) as (Hearlier & j & -> & Hlast).
      rewrite Hapi, Hcalls in Hearlier, Hlast. split.
      - intros [| i] Hi.
        + rewrite Nat.add_0_r. eauto.
        + destruct (Hearlier i ltac:(lia)) as (b' & c' & Hi').
          replace (calls w + S i)%nat with (S (calls w) + i)%nat by lia. eauto.
      - exists (S j). split; [reflexivity |].
        replace (calls w + S j)%nat with (S (calls w) + j)%nat by lia. exact Hlast. }
    destruct (api w (calls w) provider (model_of provider) system user)
      as [text | [|] err_type] eqn:Hout.
    + exists 1%nat. simpl. rewrite creates_app. simpl.
      split; [lia |]. split; [lia |]. split; [reflexivity |].
      split; [lia |]. split; [reflexivity |].
      intros text' [= <-]. split; [intros j Hj; lia |].
      exists 0%nat. rewrite Nat.add_0_r. auto.
    + apply (Hstep true err_type). reflexivity.
    + destruct (retryable_sdk_error err_type); [apply (Hstep false err_type); reflexivity |].
      exists 1%nat. simpl. rewrite creates_app. simpl.
      split; [lia |]. split; [lia |]. split; [reflexivity |].
      split; [lia |]. split; [reflexivity |]. discriminate.
Qed.

(** C4: when validation of the first response returns nothing, [call_llm]
    is entered exactly once more, with the fix instruction and a prompt that
    ends with the raw response: whatever that call gives, the summarization
    of the item ends in the state that one call leaves, so the provider sees
    the corrective request one to three times and no other request.  The
    outcome is decided by that one call: its exception, or the validation of
    its text.  If that text does not validate either, [summarize_item]
    raises; and whenever [summarize_item] raises, the run counts one failure
    and the store is not written. *)
Theorem invalid_output_one_corrective_reprompt
        (provider : string) (row : Db.item_row) (p : progress)
        (response : string) (w1 : llm) :
  let content := default EmptyString (Db.content_text row) in
  let prompt :=
    user_prompt (Db.title row) (truncate_for_input content) in
  let retry :=
    call_llm provider "Fix this JSON." (FIX_JSON_PROMPT response)
             (emit LogInvalidJson w1) in
  let outcome := summarize_item provider (Db.title row) content (world p) in
  Py.strip content <> EmptyString ->
  call_llm provider SUMMARY_SYSTEM_PROMPT prompt (world p) = (Done response, w1) ->
  parse_summary_json response = Done None ->
  (exists pre, FIX_JSON_PROMPT response = pre ++ response)
  /\ snd outcome = snd retry
  /\ fst outcome
     = match fst retry with
       | Raised e => Raised e
       | Done fixed =>
           match parse_summary_json fixed with
           | Raised e => Raised e
           | Done (Some summary) => Done (summary, model_of provider)
           | Done None => Raised (ValueError "Could not get valid JSON after retry")
           end
       end
  /\ (exists k,
        (1 <= k <= 3)%nat
        /\ creates (trace (snd outcome))
           = (creates (trace w1)
              ++ repeat (Create provider (model_of provider) "Fix this JSON."
                                (FIX_JSON_PROMPT response) MAX_OUTPUT_TOKENS) k)%list
        /\ calls (snd outcome) = (calls w1 + k)%nat
        /\ forall fixed, fst retry = Done fixed ->
             (forall j, (S j < k)%nat ->
                exists b c,
                  api w1 (calls w1 + j)%nat provider (model_of provider)
                      "Fix this JSON." (FIX_JSON_PROMPT response) = Failed b c)
             /\ exists j, k = S j
                  /\ api w1 (calls w1 + j)%nat provider (model_of provider)
                         "Fix this JSON." (FIX_JSON_PROMPT response)
                     = Completed fixed)
  /\ (forall fixed,
        fst retry = Done fixed ->
        parse_summary_json fixed = Done None ->
        outcome
        = (Raised (ValueError "Could not get valid JSON after retry"), snd retry))
  /\ forall e,
       fst outcome = Raised e ->
       conn (process_row provider row p) = conn p
       /\ error_count (process_row provider row p) = S (error_count p)
       /\ success_count (process_row provider row p) = success_count p
       /\ world (process_row provider row p)
          = emit Pause (emit (LogFailed (Db.id row)) (snd retry)).
Proof.
  intros content prompt retry outcome Hcontent Hfirst Hinvalid.
  assert (Hsum : outcome
                 = (match fst retry with
                    | Raised e => Raised e
                    | Done fixed =>
                        match parse_summary_json fixed with
                        | Raised e => Raised e
                        | Done (Some summary) => Done (summary, model_of provider)
                        | Done None =>
                            Raised (ValueError "Could not get valid JSON after retry")
                        end
                    end, snd retry)).
  { subst outcome. unfold Summarizer.summarize_item. fold prompt.
    rewrite Hfirst, Hinvalid. fold retry.
    destruct retry as [[fixed | e] w2]; cbn [fst snd]; [| reflexivity].
    destruct (parse_summary_json fixed) as [[summary |] | e]; reflexivity. }
  split; [exists (FIX_JSON_PROMPT EmptyString); reflexivity |].
  split; [rewrite Hsum; reflexivity |].
  split; [rewrite Hsum; reflexivity |].
  split; [| split].
  - destruct (llm_attempts_requests provider "Fix this JSON."
                (FIX_JSON_PROMPT response) (seq 0 MAX_RETRIES)
                (emit LogInvalidJson w1))
      as (k & Hle & Hge & Hcreates & Hcalls & _ & Hdone).
    exists k. split; [split; [apply Hge; discriminate | exact Hle] |].
    rewrite Hsum. cbn [snd].
    split; [| split].
    + subst retry. unfold Summarizer.call_llm. rewrite Hcreates. simpl.
      rewrite creates_app. simpl. rewrite app_nil_r. reflexivity.
    + subst retry. unfold Summarizer.call_llm. rewrite Hcalls. reflexivity.
    + intros fixed Hfixed. exact (Hdone fixed Hfixed).
  - intros fixed Hfixed Hstill. rewrite Hsum, Hfixed, Hstill. reflexivity.
  - intros e Hraised.
    unfold Summarizer.process_row. fold content.
    assert (Htruthy : Py.truthy (Py.strip content) = true)
      by (destruct (Py.strip content); [contradiction | reflexivity]).
    rewrite Htruthy. cbn [negb].
    fold outcome. rewrite Hsum in Hraised |- *. cbn [fst] in Hraised.
    rewrite Hraised. simpl. repeat split.
Qed.

(** The iteration for a row whose content is empty once trimmed. *)
Lemma process_row_blank (provider : string) (row : Db.item_row) (p : progress) :
  Py.strip (default EmptyString (Db.content_text row)) = EmptyString ->
  conn (process_row provider row p) = Db.mark_skipped (Db.id row) (conn p)
  /\ world (process_row provider row p)
     = emit (LogSkipNoContent (Db.id row)) (world p)
  /\ success_count (process_row provider row p) = success_count p
  /\ error_count (process_row provider row p) = error_count p.
Proof.
  intros Hblank. unfold Summarizer.process_row. rewrite Hblank. simpl.
  repeat split.
Qed.

Lemma truthy_dict_some (o : option (list (string * value)))
      (data : list (string * value)) :
  truthy_dict o = Some data -> o = Some data.
Proof. destruct o as [[| kv l] |]; simpl; congruence. Qed.

(** What [_try_parse] accepts: a text that [json.loads] reads as a dict with
    the six fields among its keys. *)
Lemma _try_parse_accepts (text : string) (data : list (string * value)) :
  _try_parse text = Done (Some data) ->
  json_loads text = Loaded (JDict data)
  /\ forall f, In f REQUIRED_FIELDS -> In f (keys data).
Proof.
  unfold Summarizer._try_parse.
  destruct (json_loads text) as [[| | | | | | members] | | cls]; try discriminate.
  destruct (forallb _ REQUIRED_FIELDS) eqn:Hall; [| discriminate].
  intros [= <-]. split; [reflexivity |].
  intros f Hf. rewrite forallb_forall in Hall.
  specialize (Hall f Hf). apply existsb_exists in Hall as (k & Hk & Heq).
  apply String.eqb_eq in Heq. subst k. exact Hk.
Qed.

Lemma try_suffixes_valid (text : string) (suffixes : list string)
      (data : list (string * value)) :
  Summarizer.try_suffixes json_loads text suffixes = Done (Some data) ->
  exists t, _try_parse t = Done (Some data).
Proof.
  induction suffixes as [| suffix rest IH]; simpl; [discriminate |].
  destruct (_try_parse (text ++ suffix)) as [o | e] eqn:Htry; [| discriminate].
  destruct (truthy_dict o) as [data' |] eqn:Htruthy.
  - intros [= <-]. apply truthy_dict_some in Htruthy. subst o. eauto.
  - exact IH.
Qed.

(** Whatever [parse_summary_json] returns was accepted by [_try_parse]. *)
Lemma parse_summary_json_valid (text : string) (data : list (string * value)) :
  parse_summary_json text = Done (Some data) ->
  exists t, _try_parse t = Done (Some data).
Proof.
  unfold Summarizer.parse_summary_json.
  destruct (_try_parse (strip_fences text)) as [o | e] eqn:Htry; [| discriminate].
  destruct (truthy_dict o) as [data' |] eqn:Htruthy.
  - intros [= <-]. apply truthy_dict_some in Htruthy. subst o. eauto.
  - apply try_suffixes_valid.
Qed.

Lemma summarize_item_valid (provider title content : string) (w w' : llm)
      (summary : list (string * value)) (model : string) :
  summarize_item provider title content w = (Done (summary, model), w') ->
  exists t, _try_parse t = Done (Some summary).
Proof.
  unfold Summarizer.summarize_item.
  destruct (call_llm provider SUMMARY_SYSTEM_PROMPT _ w) as [[response | err] w1];
    [| discriminate].
  destruct (parse_summary_json response) as [[data |] | err] eqn:Hparse;
    [| | discriminate].
  - intros [= <- _ _]. exact (parse_summary_json_valid _ _ Hparse).
  - destruct (call_llm provider "Fix this JSON." _ _) as [[fixed | err] w2];
      [| discriminate].
    destruct (parse_summary_json fixed) as [[data |] | err] eqn:Hfixed;
      try discriminate.
    intros [= <- _ _]. exact (parse_summary_json_valid _ _ Hfixed).
Qed.

(** What an iteration does to the items: nothing, or one update by id. *)
Lemma process_row_items (provider : string) (row : Db.item_row) (p : progress) :
  conn (process_row provider row p) = conn p
  \/ (Py.strip (default EmptyString (Db.content_text row)) = EmptyString
      /\ conn (process_row provider row p) = Db.mark_skipped (Db.id row) (conn p))
  \/ (Py.strip (default EmptyString (Db.content_text row)) <> EmptyString
      /\ exists text summary model,
           _try_parse text = Done (Some summary)
           /\ conn (process_row provider row p)
              = Db.mark_summarized (json_dumps (JDict summary)) model
                                   (Db.id row) (conn p)).
Proof.
  unfold Summarizer.process_row.
  destruct (Py.strip (default EmptyString (Db.content_text row))) as [| c s] eqn:Hstrip.
  - right. left. split; reflexivity.
  - simpl.
    destruct (summarize_item provider (Db.title row)
                (default EmptyString (Db.content_text row)) (world p))
      as [[[summary model] | err] w'] eqn:Hsum; [| left; reflexivity].
    right. right. split; [discriminate |].
    destruct (summarize_item_valid _ _ _ _ _ _ _ Hsum) as [text Htext].
    exists text, summary, model. split; [exact Htext | reflexivity].
Qed.

Lemma process_row_keeps (P : list Db.item_row -> Prop) (provider : string)
      (row : Db.item_row) (p : progress) :
  kept_by_summarizer P ->
  P (Db.items (conn p)) -> P (Db.items (conn (process_row provider row p))).
Proof.
  intros [Hskip Hsum] HP.
  destruct (process_row_items provider row p)
    as [-> | [[_ ->] | (_ & text & summary & model & Htext & ->)]].
  - exact HP.
  - apply Hskip. exact HP.
  - apply (Hsum _ text). + exact Htext. + exact HP.
Qed.

Lemma process_rows_keeps (P : list Db.item_row -> Prop) (provider : string)
      (rows : list Db.item_row) (p : progress) :
  kept_by_summarizer P ->
  P (Db.items (conn p)) -> P (Db.items (conn (process_rows provider rows p))).
Proof.
  intros Hkept. revert p. unfold Summarizer.process_rows.
  induction rows as [| row rows IH]; intros p HP; [exact HP |].
  simpl. apply IH. apply process_row_keeps; assumption.
Qed.

Lemma main_keeps (P : list Db.item_row -> Prop) (d : Db.db) (w : llm) :
  kept_by_summarizer P ->
  P (Db.items d) -> P (Db.items (conn (snd (main d w)))).
Proof.
  intros Hkept HP. unfold Summarizer.main.
  assert (Hswept : P (Db.items (snd (Db.sweep_before CUTOFF d))))
    by (apply Hkept; exact HP).
  destruct (Db.sweep_before CUTOFF d) as [n d'] eqn:Hsweep. simpl in Hswept.
  destruct (Db.select_new_items CUTOFF MAX_NEW_ITEMS_PER_RUN d') as [| row rows];
    [exact Hswept |].
  destruct (get_llm_client env) as [provider | err]; [| exact Hswept].
  cbn [snd]. apply process_rows_keeps; assumption.
Qed.


(** *** Rows with empty content *)

Lemma map_id_update_items (sel : Db.item_row -> bool) (f : Db.item_row -> Db.item_row)
      (l : list Db.item_row) :
  (forall r, Db.id (f r) = Db.id r) ->
  map Db.id (map (fun r => if sel r then f r else r) l) = map Db.id l.
Proof.
  intros Hid. induction l as [| r l IH]; simpl; [reflexivity |].
  rewrite IH. destruct (sel r); [rewrite Hid |]; reflexivity.
Qed.

(** The ids in the item table are the same after a run of the summarizer. *)
Lemma ids_kept : forall ids, kept_by_summarizer (fun l => map Db.id l = ids).
Proof.
  intros ids. split.
  - intros sel l <-. apply map_id_update_items. reflexivity.
  - intros i text summary model l _ <-. apply map_id_update_items. reflexivity.
Qed.

Lemma process_row_blank_skips (provider : string) (row : Db.item_row) (p : progress) :
  Py.strip (default EmptyString (Db.content_text row)) = EmptyString ->
  skipped_at (Db.id row) (Db.items (conn (process_row provider row p))).
Proof.
  intros Hblank.
  destruct (process_row_blank provider row p Hblank) as [-> _].
  intros r Hin Hid. simpl in Hin. apply in_map_iff in Hin as (r0 & <- & _).
  destruct (Db.id r0 =? Db.id row) eqn:Hr0; [reflexivity |].
  apply Z.eqb_neq in Hr0. contradiction.
Qed.

Lemma process_row_other_id (provider : string) (row : Db.item_row) (p : progress)
      (i : Z) :
  Db.id row <> i ->
  skipped_at i (Db.items (conn p)) ->
  skipped_at i (Db.items (conn (process_row provider row p))).
Proof.
  intros Hne Hskipped.
  destruct (process_row_items provider row p)
    as [-> | [[_ ->] | (_ & text & summary & model & _ & ->)]];
    [exact Hskipped | |];
    intros r Hin Hid; simpl in Hin; apply in_map_iff in Hin as (r0 & <- & Hin0);
    (destruct (Db.id r0 =? Db.id row) eqn:Hr0;
     [apply Z.eqb_eq in Hr0; simpl in Hid; congruence
     | exact (Hskipped r0 Hin0 Hid)]).
Qed.

Lemma process_rows_other_ids (provider : string) (rows : list Db.item_row)
      (p : progress) (i : Z) :
  (forall r, In r rows -> Db.id r <> i) ->
  skipped_at i (Db.items (conn p)) ->
  skipped_at i (Db.items (conn (process_rows provider rows p))).
Proof.
  unfold Summarizer.process_rows. revert p.
  induction rows as [| r1 rows IH]; intros p Hother Hp; [exact Hp |].
  simpl. apply IH.
  - intros r Hin. apply Hother. right. exact Hin.
  - apply process_row_other_id; [| exact Hp]. apply Hother. left. reflexivity.
Qed.

Lemma process_rows_blank_skips (provider : string) (rows : list Db.item_row)
      (p : progress) (row : Db.item_row) :
  List.NoDup (map Db.id rows) ->
  In row rows ->
  Py.strip (default EmptyString (Db.content_text row)) = EmptyString ->
  skipped_at (Db.id row) (Db.items (conn (process_rows provider rows p))).
Proof.
  revert p.
  induction rows as [| row0 rows IH]; intros p Hnodup Hin Hblank; [destruct Hin |].
  change (map Db.id (row0 :: rows)) with (Db.id row0 :: map Db.id rows) in Hnodup.
  apply List.NoDup_cons_iff in Hnodup as [Hfresh Hnodup].
  change (process_rows provider (row0 :: rows) p)
    with (process_rows provider rows (process_row provider row0 p)).
  destruct Hin as [-> | Hin]; [| apply IH; assumption].
  apply process_rows_other_ids.
  - intros r Hr Heq. apply Hfresh. rewrite <- Heq. apply in_map. exact Hr.
  - apply process_row_blank_skips. exact Hblank.
Qed.

Lemma insert_sorted_perm (r : Db.item_row) (l : list Db.item_row) :
  Permutation (Db.insert_sorted r l) (r :: l).
Proof.
  induction l as [| x l IH]; simpl; [reflexivity |].
  destruct (Db.published_before r x); [reflexivity |].
  rewrite IH. apply perm_swap.
Qed.

Lemma order_by_published_desc_perm (l : list Db.item_row) :
  Permutation (Db.order_by_published_desc l) l.
Proof.
  unfold Db.order_by_published_desc.
  induction l as [| r l IH]; simpl; [reflexivity |].
  rewrite insert_sorted_perm, IH. reflexivity.
Qed.

Lemma NoDup_map_filter {A B : Type} (f : A -> B) (q : A -> bool) (l : list A) :
  List.NoDup (map f l) -> List.NoDup (map f (List.filter q l)).
Proof.
  induction l as [| x l IH]; [auto |].
  change (map f (x :: l)) with (f x :: map f l).
  intros Hnd. apply List.NoDup_cons_iff in Hnd as [Hfresh Hnd].
  change (List.filter q (x :: l))
    with (if q x then x :: List.filter q l else List.filter q l).
  destruct (q x); [| apply IH; exact Hnd].
  change (map f (x :: List.filter q l)) with (f x :: map f (List.filter q l)).
  apply List.NoDup_cons_iff. split; [| apply IH; exact Hnd].
  intros Hin. apply Hfresh. apply in_map_iff in Hin as (y & Hy & Hin).
  apply in_map_iff. exists y. split; [exact Hy |].
  apply filter_In in Hin. tauto.
Qed.

Lemma In_firstn {A : Type} (x : A) (n : nat) (l : list A) :
  In x (firstn n l) -> In x l.
Proof.
  revert n. induction l as [| y l IH]; intros [| n]; simpl; try tauto.
  intros [-> | Hin]; [left; reflexivity | right; exact (IH n Hin)].
Qed.

Lemma NoDup_firstn {A : Type} (n : nat) (l : list A) :
  List.NoDup l -> List.NoDup (firstn n l).
Proof.
  revert n. induction l as [| x l IH]; intros [| n] Hnd;
    try apply List.NoDup_nil.
  change (firstn (S n) (x :: l)) with (x :: firstn n l).
  apply List.NoDup_cons_iff in Hnd as [Hfresh Hnd].
  apply List.NoDup_cons_iff. split; [| apply IH; exact Hnd].
  intros Hin. apply Hfresh. exact (In_firstn _ _ _ Hin).
Qed.

(** The selected rows are rows of the table, with distinct ids when the
    table has distinct ids. *)
Lemma select_new_items_rows (cutoff : string) (cap : Z) (d : Db.db) :
  (forall row, In row (Db.select_new_items cutoff cap d) -> In row (Db.items d))
  /\ (List.NoDup (map Db.id (Db.items d)) ->
      List.NoDup (map Db.id (Db.select_new_items cutoff cap d))).
Proof.
  unfold Db.select_new_items.
  set (q := fun r : Db.item_row =>
              String.eqb (Db.status r) "new"
              && (Db.text_ge (Db.published_at r) cutoff || Db.is_null (Db.published_at r))).
  assert (Hlimit : forall l : list Db.item_row,
            (forall row, In row (Db.limit cap l) -> In row l)
            /\ (List.NoDup (map Db.id l) -> List.NoDup (map Db.id (Db.limit cap l)))).
  { intros l. unfold Db.limit. destruct (cap <? 0); [tauto |]. split.
    - intros row Hin. exact (In_firstn _ _ _ Hin).
    - intros Hnd. rewrite <- firstn_map. apply NoDup_firstn. exact Hnd. }
  destruct (Hlimit (Db.order_by_published_desc (List.filter q (Db.items d))))
    as [Hin Hnd].
  split.
  - intros row Hrow. apply Hin in Hrow.
    apply (Permutation_in _ (order_by_published_desc_perm _)) in Hrow.
    apply filter_In in Hrow. tauto.
  - intros Hids. apply Hnd.
    rewrite (Permutation_map Db.id (order_by_published_desc_perm _)).
    apply NoDup_map_filter. exact Hids.
Qed.

(** C5: a row whose content is empty once trimmed is marked [skipped] and
    the provider is not called for it; the iteration for such a row leaves
    no item [summarized] that was not so before; and after a run with a
    credential configured every selected row of that kind is [skipped]. *)
Theorem blank_content_is_skipped_without_llm :
  (forall provider row p,
     Py.strip (default EmptyString (Db.content_text row)) = EmptyString ->
     conn (process_row provider row p) = Db.mark_skipped (Db.id row) (conn p)
     /\ world (process_row provider row p)
        = emit (LogSkipNoContent (Db.id row)) (world p)
     /\ calls (world (process_row provider row p)) = calls (world p)
     /\ creates (trace (world (process_row provider row p)))
        = creates (trace (world p))
     /\ forall r,
          In r (Db.items (conn (process_row provider row p))) ->
          Db.status r = "summarized" ->
          In r (Db.items (conn p)))
  /\ (forall d w row,
        List.NoDup (map Db.id (Db.items d)) ->
        (exists provider, get_llm_client env = Done provider) ->
        In row (Db.select_new_items CUTOFF MAX_NEW_ITEMS_PER_RUN
                  (snd (Db.sweep_before CUTOFF d))) ->
        Py.strip (default EmptyString (Db.content_text row)) = EmptyString ->
        fst (main d w) = Done tt
        /\ (exists r, In r (Db.items (conn (snd (main d w))))
                      /\ Db.id r = Db.id row)
        /\ forall r, In r (Db.items (conn (snd (main d w)))) ->
                     Db.id r = Db.id row -> Db.status r = "skipped").
Proof.
  split.
  - intros provider row p Hblank.
    destruct (process_row_blank provider row p Hblank) as (Hconn & Hworld & _).
    split; [exact Hconn |]. split; [exact Hworld |].
    rewrite Hworld. split; [reflexivity |].
    split; [simpl; rewrite creates_app; simpl; apply app_nil_r |].
    rewrite Hconn. simpl. intros r Hin Hstatus.
    apply in_map_iff in Hin as (r0 & <- & Hin0).
    destruct (Db.id r0 =? Db.id row); [discriminate | exact Hin0].
  - intros d w row Hids [provider Hprovider] Hrow Hblank.
    assert (Hids' : map Db.id (Db.items (snd (Db.sweep_before CUTOFF d)))
                    = map Db.id (Db.items d))
      by (simpl; apply map_id_update_items; reflexivity).
    destruct (select_new_items_rows CUTOFF MAX_NEW_ITEMS_PER_RUN
                (snd (Db.sweep_before CUTOFF d))) as [Hrows Hnodup].
    rewrite Hids' in Hnodup. specialize (Hnodup Hids).
    assert (Hkept : map Db.id (Db.items (conn (snd (main d w))))
                    = map Db.id (Db.items d))
      by (apply (main_keeps (fun l => map Db.id l = map Db.id (Db.items d)));
          [apply ids_kept | reflexivity]).
    unfold Summarizer.main in *.
    destruct (Db.sweep_before CUTOFF d) as [n d'] eqn:Hsweep. cbn [snd] in *.
    destruct (Db.select_new_items CUTOFF MAX_NEW_ITEMS_PER_RUN d')
      as [| row0 rows] eqn:Hsel; [destruct Hrow |].
    rewrite Hprovider in *. cbn [fst snd] in *.
    split; [reflexivity |]. split.
    + assert (Hin : In (Db.id row) (map Db.id (Db.items d)))
        by (rewrite <- Hids'; apply in_map; apply Hrows; exact Hrow).
      rewrite <- Hkept in Hin. apply in_map_iff in Hin as (r & Hr & Hin).
      exists r. split; assumption.
    + apply process_rows_blank_skips; assumption.
Qed.

End WithEnvironment.

Import Fixtures.

Lemma invalid_output_one_corrective_reprompt_witness :
  conn (process_row with_credential system_prompt loads dumps "anthropic"
                    sample_row prose_run)
  = conn prose_run
  /\ error_count (process_row with_credential system_prompt loads dumps
                              "anthropic" sample_row prose_run)
     = 1%nat.
Proof.
  destruct (invalid_output_one_corrective_reprompt
              with_credential system_prompt loads dumps "anthropic"
              sample_row prose_run "Here is the summary you asked for."
              (snd (call_llm with_credential "anthropic" system_prompt
                      (user_prompt "A post" "<rss/>") (world prose_run))))
    as (_ & _ & _ & _ & _ & Hfail).
  - vm_compute. discriminate.
  - reflexivity.
  - reflexivity.
  - destruct (Hfail (ValueError "Could not get valid JSON after retry") eq_refl)
      as (Hconn & Herr & _).
    split; [exact Hconn | exact Herr].
Defined.

Lemma blank_content_is_skipped_without_llm_witness :
  exists r,
    In r (Db.items
            (conn (snd (main with_credential 25 system_prompt loads dumps
                             ingested_blank (fresh_llm answers_summary)))))
    /\ Db.id r = 1
    /\ Db.status r = "skipped".
Proof.
  destruct (proj2 (blank_content_is_skipped_without_llm
                     with_credential 25 system_prompt loads dumps)
                  ingested_blank (fresh_llm answers_summary) blank_row)
    as (_ & (r & Hin & Hid) & Hskipped).
  - vm_compute. apply List.NoDup_cons; [intros [] | apply List.NoDup_nil].
  - exists "anthropic". reflexivity.
  - vm_compute. left. reflexivity.
  - reflexivity.
  - exists r. split; [exact Hin |]. split; [exact Hid |].
    apply Hskipped; assumption.
Defined.

End SummarizerFacts.

(** * Invariants of the store *)

Module PipelineFacts.

Import Json Spec.

Lemma NoDup_snoc {A : Type} (l : list A) (x : A) :
  List.NoDup l -> ~ In x l -> List.NoDup (l ++ [x])%list.
Proof.
  intros Hnd Hfresh.
  apply (Permutation_NoDup (Permutation_cons_append l x)).
  apply List.NoDup_cons; assumption.
Qed.

Lemma item_exists_false (h : string) (d : Db.db) :
  Db.item_exists h d = false -> ~ In h (map Db.url_hash (Db.items d)).
Proof.
  unfold Db.item_exists. intros Hex Hin.
  apply in_map_iff in Hin as (r & Hr & Hin).
  assert (Htrue : existsb (fun r => String.eqb (Db.url_hash r) h) (Db.items d) = true).
  { apply existsb_exists. exists r. split; [exact Hin |].
    apply String.eqb_eq. exact Hr. }
  congruence.
Qed.

Lemma insert_item_items (sid : Z) (ttl u : string) (g pub : option string)
      (now c h st : string) (d d' : Db.db) :
  Db.insert_item sid ttl u g pub now c h st d = Some d' ->
  Db.item_exists h d = false
  /\ exists r,
       Db.items d' = (Db.items d ++ [r])%list
       /\ Db.url_hash r = h /\ Db.status r = st
       /\ Db.id r = Db.next_rowid (map Db.id (Db.items d)).
Proof.
  unfold Db.insert_item. destruct (Db.item_exists h d); [discriminate |].
  intros [= <-]. split; [reflexivity |].
  eexists. split; [reflexivity |]. repeat split.
Qed.

Lemma map_update_items {B : Type} (proj : Db.item_row -> B)
      (sel : Db.item_row -> bool) (f : Db.item_row -> Db.item_row)
      (l : list Db.item_row) :
  (forall r, proj (f r) = proj r) ->
  map proj (map (fun r => if sel r then f r else r) l) = map proj l.
Proof.
  intros Hproj. induction l as [| r l IH]; simpl; [reflexivity |].
  rewrite IH. destruct (sel r); [rewrite Hproj |]; reflexivity.
Qed.

Lemma at_most_one_of_NoDup {A : Type} (proj : A -> string) (h : string)
      (l : list A) :
  List.NoDup (map proj l) ->
  (length (List.filter (fun r => String.eqb (proj r) h) l) <= 1)%nat.
Proof.
  induction l as [| x l IH]; simpl; [lia |].
  intros Hnd. apply List.NoDup_cons_iff in Hnd as [Hfresh Hnd].
  destruct (String.eqb (proj x) h) eqn:Hx; [| apply IH; exact Hnd].
  apply String.eqb_eq in Hx.
  assert (Hnone : List.filter (fun r => String.eqb (proj r) h) l = []).
  { destruct (List.filter (fun r => String.eqb (proj r) h) l) as [| y ys] eqn:Hf;
      [reflexivity |].
    exfalso. apply Hfresh.
    assert (Hy : In y (List.filter (fun r => String.eqb (proj r) h) l))
      by (rewrite Hf; left; reflexivity).
    apply filter_In in Hy as [Hin Hy]. apply String.eqb_eq in Hy.
    rewrite Hx, <- Hy. apply in_map. exact Hin. }
  rewrite Hnone. simpl. lia.
Qed.

Lemma next_rowid_fresh (ids : list Z) : ~ In (Db.next_rowid ids) ids.
Proof.
  assert (Hmax : forall x, In x ids -> x <= fold_right Z.max 0 ids).
  { induction ids as [| y ids IH]; simpl; [tauto |].
    intros x [-> | Hin]; [lia |]. specialize (IH x Hin). lia. }
  intros Hin. apply Hmax in Hin. unfold Db.next_rowid in Hin. lia.
Qed.

Section WithLibraries.

Variable ip_address : string -> option UrlParse.ip_version.
Variable sha256_hexdigest : string -> string.
Variable soup_get_text : string -> string.
Variable soup_alternate_links : string -> list Fetcher.link_tag.
Variable feedparser_entries : string -> list Fetcher.entry.
Variable json_loads : string -> loads_outcome.
Variable json_dumps : value -> string.

Abbreviation reachable :=
  (Pipeline.reachable ip_address sha256_hexdigest soup_get_text
                      soup_alternate_links feedparser_entries json_loads
                      json_dumps).

(** A property of the item table that holds of the empty table and is kept
    by both stages holds of every reachable store. *)
Lemma reachable_items (P : list Db.item_row -> Prop) :
  P [] ->
  kept_by_fetcher P ->
  kept_by_summarizer json_loads json_dumps P ->
  forall d, reachable d -> P (Db.items d).
Proof.
  intros Hempty Hfetch Hsum d Hreach.
  induction Hreach as [| ? ? ? ? d w _ IH | ? ? ? d w _ IH | ? ? ? d w _ IH].
  - exact Hempty.
  - apply IngestFacts.fetch_feed_keeps; assumption.
  - unfold Fetcher.main. apply IngestFacts.run_sources_keeps; assumption.
  - apply SummarizerFacts.main_keeps; assumption.
Qed.

Lemma hashes_kept_by_fetcher :
  kept_by_fetcher (fun l => List.NoDup (map Db.url_hash l)).
Proof.
  intros sid ttl u g pub now c h d d' Hins Hnd.
  destruct (insert_item_items _ _ _ _ _ _ _ _ _ _ _ Hins)
    as (Hex & r & -> & Hr & _).
  rewrite map_app. simpl. rewrite Hr.
  apply NoDup_snoc; [exact Hnd | apply item_exists_false; exact Hex].
Qed.

Lemma hashes_kept_by_summarizer :
  kept_by_summarizer json_loads json_dumps
    (fun l => List.NoDup (map Db.url_hash l)).
Proof.
  split.
  - intros sel l Hnd. rewrite map_update_items; [exact Hnd | reflexivity].
  - intros i text summary model l _ Hnd.
    rewrite map_update_items; [exact Hnd | reflexivity].
Qed.

(** The primary key: ids are distinct in every reachable store. *)
Lemma reachable_ids_distinct (d : Db.db) :
  reachable d -> List.NoDup (map Db.id (Db.items d)).
Proof.
  apply (reachable_items (fun l => List.NoDup (map Db.id l))).
  - apply List.NoDup_nil.
  - intros sid ttl u g pub now c h d0 d' Hins Hnd.
    destruct (insert_item_items _ _ _ _ _ _ _ _ _ _ _ Hins)
      as (_ & r & -> & _ & _ & Hid).
    rewrite map_app. simpl. rewrite Hid.
    apply NoDup_snoc; [exact Hnd | apply next_rowid_fresh].
  - split.
    + intros sel l Hnd. rewrite map_update_items; [exact Hnd | reflexivity].
    + intros i text summary model l _ Hnd.
      rewrite map_update_items; [exact Hnd | reflexivity].
Qed.

(** C1: in every reachable store at most one item has a given content hash,
    and an insertion under a hash that is present fails for every source. *)
Theorem content_hash_unique :
  (forall d h,
     reachable d ->
     (length (List.filter (fun r => String.eqb (Db.url_hash r) h) (Db.items d))
      <= 1)%nat)
  /\ (forall d sid ttl u g pub now c h st,
        Db.item_exists h d = true ->
        Db.insert_item sid ttl u g pub now c h st d = None).
Proof.
  split.
  - intros d h Hreach. apply at_most_one_of_NoDup.
    revert d Hreach.
    apply (reachable_items (fun l => List.NoDup (map Db.url_hash l))).
    + apply List.NoDup_nil.
    + apply hashes_kept_by_fetcher.
    + apply hashes_kept_by_summarizer.
  - intros d sid ttl u g pub now c h st Hex.
    unfold Db.insert_item. rewrite Hex. reflexivity.
Qed.

(** C2: when [json.loads] reads back the dicts it produced from what
    [json.dumps] writes for them, every item with status [summarized] in a
    reachable store has a [summary_json] that parses to a dict with the six
    required fields. *)
Theorem summarized_items_hold_valid_json :
  (forall text data,
     json_loads text = Loaded (JDict data) ->
     json_loads (json_dumps (JDict data)) = Loaded (JDict data)) ->
  forall d r,
    reachable d ->
    In r (Db.items d) ->
    Db.status r = "summarized" ->
    holds_summary json_loads r.
Proof.
  intros Hroundtrip d r Hreach. revert r.
  apply (reachable_items
           (fun l => forall r, In r l -> Db.status r = "summarized" ->
                                 holds_summary json_loads r));
    [| | | exact Hreach].
  - intros r [].
  - intros sid ttl u g pub now c h d0 d' Hins Hvalid r Hin Hstatus.
    destruct (insert_item_items _ _ _ _ _ _ _ _ _ _ _ Hins)
      as (_ & r0 & Hitems & _ & Hnew & _).
    rewrite Hitems in Hin. apply in_app_iff in Hin as [Hin | [<- | []]].
    + exact (Hvalid r Hin Hstatus).
    + rewrite Hnew in Hstatus. discriminate.
  - split.
    + intros sel l Hvalid r Hin Hstatus.
      apply in_map_iff in Hin as (r0 & <- & Hin0).
      destruct (sel r0); [discriminate | exact (Hvalid r0 Hin0 Hstatus)].
    + intros i text summary model l Htext Hvalid r Hin Hstatus.
      apply in_map_iff in Hin as (r0 & <- & Hin0).
      destruct (Db.id r0 =? i); [| exact (Hvalid r0 Hin0 Hstatus)].
      destruct (SummarizerFacts._try_parse_accepts json_loads text summary Htext)
        as [Hloads Hfields].
      exists (json_dumps (JDict summary)), summary.
      split; [reflexivity |]. split; [| exact Hfields].
      exact (Hroundtrip text summary Hloads).
Qed.

End WithLibraries.

Import Fixtures.

Lemma ingested_reachable :
  Pipeline.reachable ip_address digest get_text no_links two_entries loads dumps ingested.
Proof.
  unfold ingested. apply Pipeline.reachable_fetcher, Pipeline.reachable_empty.
Defined.

Lemma summarized_reachable :
  Pipeline.reachable ip_address digest get_text no_links two_entries loads dumps summarized.
Proof.
  unfold summarized. apply Pipeline.reachable_summarizer, ingested_reachable.
Defined.

Lemma content_hash_unique_witness :
  (length (List.filter
             (fun r => String.eqb (Db.url_hash r) "https://example.com/post")
             (Db.items ingested))
   <= 1)%nat.
Proof.
  apply (proj1 (content_hash_unique ip_address digest get_text no_links two_entries
                  loads dumps)).
  exact ingested_reachable.
Defined.

(** The sample codec reads back what it writes. *)
Lemma loads_dumps (text : string) (data : list (string * value)) :
  loads text = Loaded (JDict data) ->
  loads (dumps (JDict data)) = Loaded (JDict data).
Proof.
  unfold loads, dumps. rewrite String.eqb_refl.
  destruct (String.eqb text summary_text); [trivial | discriminate].
Defined.

Lemma summarized_items_hold_valid_json_witness :
  holds_summary loads
    (Db.set_summary summary_text "claude-haiku-4-5-20251001" sample_row).
Proof.
  apply (summarized_items_hold_valid_json ip_address digest get_text no_links two_entries
           loads dumps loads_dumps summarized).
  - exact summarized_reachable.
  - vm_compute. left. reflexivity.
  - reflexivity.
Defined.

End PipelineFacts.

(** * The model on small inputs *)

Module Examples.

Import Fixtures.

Example netloc_keeps_userinfo_and_port :
  UrlParse.netloc "HTTPS://User@Example.COM:8080/a?b#c" = "User@Example.COM:8080".
Proof. reflexivity. Qed.

Example get_domain_lowers :
  Fetcher._get_domain ip_address "HTTPS://Example.COM/feed" = Done "example.com".
Proof. reflexivity. Qed.

Example get_domain_without_scheme :
  Fetcher._get_domain ip_address "example.com/feed" = Done EmptyString.
Proof. reflexivity. Qed.

Example get_domain_bracketed_host :
  Fetcher._get_domain ip_address "http://[::1]:8080/feed" = Done "[::1]:8080".
Proof. reflexivity. Qed.

(** A bracket without its partner, text before the bracket, and an IPv4
    address in brackets make [urlparse] raise. *)
Example get_domain_rejects :
  Fetcher._get_domain ip_address "http://[::1/post" = Raised (LibraryError "ValueError")
  /\ Fetcher._get_domain ip_address "http://a[::1]/post"
     = Raised (LibraryError "ValueError")
  /\ Fetcher._get_domain ip_address "http://[127.0.0.1]/post"
     = Raised (LibraryError "ValueError").
Proof. repeat split. Qed.

(** The exception leaves the fetch client before any effect. *)
Example unbalanced_bracket_raises :
  Fetcher.fetch_with_backoff ip_address "http://[::1/post" None
                             (fresh_client feed_served)
  = (Raised (LibraryError "ValueError"), fresh_client feed_served).
Proof. reflexivity. Qed.

Example root_cause_decides :
  Fetcher._is_non_retryable_error
    (Fetcher.Exc "ConnectionError"
       (Some (Fetcher.Exc "NewConnectionError"
          (Some (Fetcher.Exc "ConnectionRefusedError" None)))))
  = true
  /\ Fetcher._is_non_retryable_error
       (Fetcher.Exc "ConnectionError"
          (Some (Fetcher.Exc "ProtocolError"
             (Some (Fetcher.Exc "ConnectionResetError" None)))))
     = false.
Proof. split; reflexivity. Qed.

(** A [ConnectionError] as [requests] raises it, with [__cause__] unset, is
    retried whatever went wrong underneath. *)
Example connection_error_as_raised_is_retried :
  Fetcher._is_non_retryable_error (Fetcher.Exc "ConnectionError" None) = false
  /\ Fetcher.retryable_failure
       (Fetcher.RaisedConnectionError (Fetcher.Exc "ConnectionError" None))
     = true.
Proof. split; reflexivity. Qed.

Example substack_feed :
  Fetcher.discover_feed_url ip_address no_links two_entries
    (Fetcher.SourceCfg "Letters" "https://letters.substack.com/"
       (Some (Fetcher.YStr "substack")) None None)
    (fresh_client timeouts)
  = (Done (Some "https://letters.substack.com/feed"), fresh_client timeouts).
Proof. reflexivity. Qed.

(** [type: null] is not the default type, and the source table refuses it. *)
Example null_type_is_refused :
  Fetcher.upsert_source
    (Fetcher.SourceCfg "Example" "https://example.com/" (Some Fetcher.YNull)
       (Some "https://example.com/feed.xml") None)
    (Some "https://example.com/feed.xml") Db.empty
  = (Raised IntegrityError, Db.empty).
Proof. reflexivity. Qed.

Example medium_profile_feed :
  Fetcher.medium_profile "https://medium.com/@some.user/about" = Some "@some.user".
Proof. reflexivity. Qed.

Example medium_publication_feed :
  Fetcher.medium_publication "https://ai.gopubby.com" = Some "ai".
Proof. reflexivity. Qed.

Example isoformat_pads :
  Fetcher.isoformat (Fetcher.TimeTuple 2026 1 5 9 3 0) = "2026-01-05T09:03:00+00:00".
Proof. reflexivity. Qed.

Example leap_second_is_rejected :
  Fetcher.valid_datetime (Fetcher.TimeTuple 2026 6 30 23 59 60) = false.
Proof. reflexivity. Qed.

Example strip_trims_both_ends : Py.strip "  a b  " = "a b".
Proof. reflexivity. Qed.

Example slice_to_negative : Fetcher.slice_to (-2) "abcdef" = "abcd".
Proof. reflexivity. Qed.

(** A feed that lists one link twice gives one item, with status [new]. *)
Example duplicate_link_stored_once :
  map (fun r => (Db.url r, Db.status r)) (Db.items ingested)
  = [("https://example.com/post", "new")].
Proof. vm_compute. reflexivity. Qed.

(** The run of the summarizer on that store writes the summary. *)
Example summary_is_stored :
  map (fun r => (Db.status r, Db.model_used r)) (Db.items summarized)
  = [("summarized", Some "claude-haiku-4-5-20251001")].
Proof. vm_compute. reflexivity. Qed.

(** Markdown fences around the document are removed before parsing. *)
Example fenced_response_parses :
  Summarizer.parse_summary_json loads
    ("```json" ++ Summarizer.nl ++ summary_text ++ Summarizer.nl ++ "```")
  = Summarizer._try_parse loads summary_text.
Proof. vm_compute. reflexivity. Qed.

Example no_credential_is_fatal :
  Summarizer.get_llm_client (Summarizer.Environ None (Some EmptyString) None None)
  = Raised (RuntimeError
      "No LLM API key configured. Set ANTHROPIC_API_KEY or OPENAI_API_KEY.").
Proof. reflexivity. Qed.

End Examples.

(** * Further properties of the fetch client *)

Module FetchClientMore.

Import Fetcher Observations.

Lemma requests_app (a b : list event) :
  requests (a ++ b)%list = (requests a ++ requests b)%list.
Proof. apply List.filter_app. Qed.

Lemma sleeps_app (a b : list event) :
  sleeps (a ++ b)%list = (sleeps a ++ sleeps b)%list.
Proof. apply flat_map_app. Qed.

Lemma total_cons (x : Z) (l : list Z) : total (x :: l) = x + total l.
Proof. reflexivity. Qed.

Lemma total_app (a b : list Z) : total (a ++ b)%list = total a + total b.
Proof. induction a as [| x a IH]; simpl; [reflexivity | rewrite IH; lia]. Qed.

Lemma pow_nonneg (a : nat) : 0 <= Py.pow BACKOFF_BASE a.
Proof. unfold Py.pow, BACKOFF_BASE. apply Z.pow_nonneg. lia. Qed.

Lemma sleep_budget_nonneg (todo : list nat) : 0 <= sleep_budget todo.
Proof.
  unfold sleep_budget. induction todo as [| a todo IH]; [simpl; lia |].
  cbn [map]. rewrite total_cons.
  pose proof (pow_nonneg a). destruct (a <? MAX_RETRIES - 1)%nat; lia.
Qed.

(** What one pass through a retrying [except] branch adds. *)
Lemma backoff_request (attempt : nat) (url : string) (hdrs : option headers)
      (w : client) :
  let w1 := backoff attempt url (request url hdrs w) in
  exists tl,
    trace w1 = (trace w ++ tl)%list
    /\ length (requests tl) = 1%nat
    /\ total (sleeps tl)
       = (if (attempt <? MAX_RETRIES - 1)%nat then Py.pow BACKOFF_BASE attempt else 0)
    /\ sent w1 = S (sent w)
    /\ failed_domains w1 = failed_domains w
    /\ session_get w1 = session_get w.
Proof.
  unfold backoff.
  destruct (attempt <? MAX_RETRIES - 1)%nat; simpl;
    rewrite <- !app_assoc; eexists; (split; [reflexivity |]);
    simpl; repeat split; lia.
Qed.

(** The effects of the retry loop, whatever the remote side does. *)
Lemma attempts_effects (url domain : string) (hdrs : option headers)
      (todo : list nat) (w : client) :
  let w' := snd (attempts url domain hdrs todo w) in
  exists tl,
    trace w' = (trace w ++ tl)%list
    /\ sent w' = (sent w + length (requests tl))%nat
    /\ (length (requests tl) <= length todo)%nat
    /\ 0 <= total (sleeps tl) <= sleep_budget todo
    /\ failed_domains w ⊆ failed_domains w'
    /\ session_get w' = session_get w.
Proof.
  revert w. induction todo as [| attempt rest IH]; intros w.
  - simpl. exists [LogAllFailed url]. simpl.
    repeat split; try lia; try reflexivity. apply union_subseteq_r.
  - assert (Hone : forall evs : list event,
              requests evs = [] -> sleeps evs = [] ->
              exists tl,
                (trace w ++ Get url hdrs REQUEST_TIMEOUT :: evs)%list
                = (trace w ++ tl)%list
                /\ S (sent w) = (sent w + length (requests tl))%nat
                /\ (length (requests tl) <= length (attempt :: rest))%nat
                /\ 0 <= total (sleeps tl) <= sleep_budget (attempt :: rest)).
    { intros evs Hreq Hsl. exists (Get url hdrs REQUEST_TIMEOUT :: evs).
      pose proof (sleep_budget_nonneg (attempt :: rest)).
      unfold requests in *. simpl. rewrite Hreq, Hsl. simpl.
      repeat split; lia. }
    assert (Hstep :
              let w' := snd (attempts url domain hdrs rest
                               (backoff attempt url (request url hdrs w))) in
              exists tl,
                trace w' = (trace w ++ tl)%list
                /\ sent w' = (sent w + length (requests tl))%nat
                /\ (length (requests tl) <= length (attempt :: rest))%nat
                /\ 0 <= total (sleeps tl) <= sleep_budget (attempt :: rest)
                /\ failed_domains w ⊆ failed_domains w'
                /\ session_get w' = session_get w).
    { destruct (backoff_request attempt url hdrs w)
        as (tl1 & Htr1 & Hreq1 & Hsl1 & Hsent1 & Hfail1 & Hget1).
      destruct (IH (backoff attempt url (request url hdrs w)))
        as (tl2 & Htr2 & Hsent2 & Hreq2 & Hsl2 & Hfail2 & Hget2).
      exists (tl1 ++ tl2)%list. simpl.
      rewrite Htr2, Htr1, <- app_assoc, requests_app, sleeps_app, total_app,
        length_app, Hreq1, Hsl1.
      split; [reflexivity |].
      split; [rewrite Hsent2, Hsent1; lia |].
      split; [simpl; lia |].
      split.
      - unfold sleep_budget in *. cbn [map]. rewrite total_cons.
        pose proof (pow_nonneg attempt).
        destruct (attempt <? MAX_RETRIES - 1)%nat; lia.
      - split; [rewrite <- Hfail1; exact Hfail2 | rewrite Hget2; exact Hget1]. }
    simpl.
    destruct (session_get w (sent w) url hdrs) as [resp | e | e].
    + destruct (status_code resp =? 304).
      { destruct (Hone [] eq_refl eq_refl) as (tl & Htl & H1 & H2 & H3).
        exists tl. simpl. repeat split; try assumption; try lia; try reflexivity; try apply union_subseteq_r. }
      destruct (definitive_4xx (status_code resp)).
      { destruct (Hone [LogStatus url (status_code resp)] eq_refl eq_refl)
          as (tl & Htl & H1 & H2 & H3).
        exists tl. simpl. rewrite <- app_assoc.
        repeat split; try assumption; try lia; try reflexivity; try apply union_subseteq_r. }
      destruct (raises_for_status resp); [exact Hstep |].
      destruct (Hone [] eq_refl eq_refl) as (tl & Htl & H1 & H2 & H3).
      exists tl. simpl.
      repeat split; try assumption; try lia; try reflexivity; try apply union_subseteq_r.
    + destruct (_is_non_retryable_error e); [| exact Hstep].
      match goal with
      | |- context [LogNonRetryable url ?c] =>
          destruct (Hone [LogNonRetryable url c] eq_refl eq_refl)
            as (tl & Htl & H1 & H2 & H3)
      end.
      exists tl. simpl. rewrite <- app_assoc.
      repeat split; try assumption; try lia; try reflexivity; try apply union_subseteq_r.
    + exact Hstep.
Qed.

(** How the retry loop ends: with a served response and the failed set as it
    was, or with no response and either the location in the failed set or a
    definitive 4xx as the answer to the last request. *)
Lemma attempts_outcome (url domain : string) (hdrs : option headers)
      (todo : list nat) (w : client) :
  let w' := snd (attempts url domain hdrs todo w) in
  match fst (attempts url domain hdrs todo w) with
  | Some resp =>
      served resp
      /\ failed_domains w' = failed_domains w
      /\ exists n, sent w' = S n /\ (sent w <= n)%nat
                   /\ session_get w n url hdrs = Returned resp
  | None =>
      domain ∈ failed_domains w'
      \/ exists n resp,
           sent w' = S n /\ (sent w <= n)%nat
           /\ session_get w n url hdrs = Returned resp
           /\ 400 <= status_code resp < 500 /\ status_code resp <> 429
  end.
Proof.
  revert w. induction todo as [| attempt rest IH]; intros w.
  - simpl. left. apply elem_of_union_l, elem_of_singleton. reflexivity.
  - assert (Hstep :
              let w' := snd (attempts url domain hdrs rest
                               (backoff attempt url (request url hdrs w))) in
              match fst (attempts url domain hdrs rest
                           (backoff attempt url (request url hdrs w))) with
              | Some resp =>
                  served resp
                  /\ failed_domains w' = failed_domains w
                  /\ exists n, sent w' = S n /\ (sent w <= n)%nat
                               /\ session_get w n url hdrs = Returned resp
              | None =>
                  domain ∈ failed_domains w'
                  \/ exists n resp,
                       sent w' = S n /\ (sent w <= n)%nat
                       /\ session_get w n url hdrs = Returned resp
                       /\ 400 <= status_code resp < 500 /\ status_code resp <> 429
              end).
    { destruct (backoff_request attempt url hdrs w)
        as (_ & _ & _ & _ & Hsent1 & Hfail1 & Hget1).
      specialize (IH (backoff attempt url (request url hdrs w))).
      simpl in IH |- *.
      destruct (fst (attempts url domain hdrs rest
                       (backoff attempt url (request url hdrs w)))) as [resp |].
      - destruct IH as (Hserved & Hfail & n & Hn & Hle & Hresp).
        split; [exact Hserved |]. split; [rewrite Hfail; exact Hfail1 |].
        exists n. rewrite Hget1 in Hresp. repeat split; try assumption. lia.
      - destruct IH as [Hin | (n & resp & Hn & Hle & Hresp & Hcode)];
          [left; exact Hin | right].
        exists n, resp. rewrite Hget1 in Hresp. repeat split; try tauto. lia. }
    simpl.
    destruct (session_get w (sent w) url hdrs) as [resp | e | e] eqn:Hout.
    + destruct (status_code resp =? 304) eqn:E304.
      { simpl. split; [left; lia |]. split; [reflexivity |].
        exists (sent w). repeat split; try lia. exact Hout. }
      unfold definitive_4xx, raises_for_status.
      destruct (400 <=? status_code resp) eqn:Elo; simpl.
      * destruct (status_code resp <? 500) eqn:E500; simpl.
        { destruct (status_code resp =? 429) eqn:E429; simpl.
          - replace (status_code resp <? 600) with true by lia. exact Hstep.
          - right. exists (sent w), resp. repeat split; try lia. exact Hout. }
        destruct (status_code resp <? 600) eqn:E600; [exact Hstep |].
        simpl. split; [right; right; lia |]. split; [reflexivity |].
        exists (sent w). repeat split; try lia. exact Hout.
      * simpl. split; [right; left; lia |]. split; [reflexivity |].
        exists (sent w). repeat split; try lia. exact Hout.
    + destruct (_is_non_retryable_error e); [| exact Hstep].
      simpl. left. apply elem_of_union_l, elem_of_singleton. reflexivity.
    + exact Hstep.
Qed.

Lemma attempts_served (url domain : string) (hdrs : option headers)
      (attempt : nat) (rest : list nat) (w : client) (resp : response) :
  session_get w (sent w) url hdrs = Returned resp ->
  served resp ->
  attempts url domain hdrs (attempt :: rest) w = (Some resp, request url hdrs w).
Proof.
  intros Hout Hserved. simpl. rewrite Hout.
  destruct (status_code resp =? 304) eqn:E304; [reflexivity |].
  unfold definitive_4xx, raises_for_status.
  destruct Hserved as [H | [H | H]]; [lia | |].
  - replace (400 <=? status_code resp) with false by lia. reflexivity.
  - replace (status_code resp <? 500) with false by lia.
    replace (status_code resp <? 600) with false by lia.
    rewrite andb_false_r. reflexivity.
Qed.

Section WithAddresses.

Variable ip_address : string -> option UrlParse.ip_version.

Abbreviation _get_domain := (_get_domain ip_address).
Abbreviation fetch_with_backoff := (fetch_with_backoff ip_address).

(** One call sends at most three requests and sleeps at most three seconds
    in all; it only appends to the trace, only adds to the failed set, and
    the number of requests it logs is the number it sends.  This holds also
    of a call that [urlparse] ends with an exception, which has no effect. *)
Theorem fetch_effects_are_bounded (url : string) (hdrs : option headers)
        (w : client) :
  let w' := snd (fetch_with_backoff url hdrs w) in
  exists tl,
    trace w' = (trace w ++ tl)%list
    /\ sent w' = (sent w + length (requests tl))%nat
    /\ (length (requests tl) <= 3)%nat
    /\ 0 <= total (sleeps tl) <= 3
    /\ failed_domains w ⊆ failed_domains w'
    /\ session_get w' = session_get w.
Proof.
  unfold Fetcher.fetch_with_backoff.
  destruct (_get_domain url) as [domain | err].
  - destruct (bool_decide (domain ∈ failed_domains w)).
    + exists [LogSkipDomain url]. simpl. repeat split; try lia; reflexivity.
    + exact (attempts_effects url domain hdrs (seq 0 MAX_RETRIES) w).
  - exists []. simpl. rewrite app_nil_r. repeat split; try lia; reflexivity.
Qed.

(** A response is handed to the caller only when it is 304 or has a status
    outside 400..599; it answers the last request of the call, and the call
    has left the failed set, in which the domain of the URL was not, as it
    was. *)
Theorem returned_response_is_served (url : string) (hdrs : option headers)
        (w w' : client) (resp : response) :
  fetch_with_backoff url hdrs w = (Done (Some resp), w') ->
  served resp
  /\ failed_domains w' = failed_domains w
  /\ (exists domain, _get_domain url = Done domain /\ domain ∉ failed_domains w)
  /\ exists n, sent w' = S n /\ (sent w <= n)%nat
               /\ session_get w n url hdrs = Returned resp.
Proof.
  unfold Fetcher.fetch_with_backoff.
  destruct (_get_domain url) as [domain | err]; [| discriminate].
  destruct (bool_decide (domain ∈ failed_domains w)) eqn:Hblack;
    [discriminate |].
  apply bool_decide_eq_false in Hblack.
  pose proof (attempts_outcome url domain hdrs (seq 0 MAX_RETRIES) w) as Hout.
  cbv zeta in Hout.
  destruct (attempts url domain hdrs (seq 0 MAX_RETRIES) w) as [r wr].
  cbn [fst snd] in *. intros [= -> ->].
  destruct Hout as (Hserved & Hfail & Hlast).
  split; [exact Hserved |]. split; [exact Hfail |].
  split; [exists domain; split; [reflexivity | exact Hblack] | exact Hlast].
Qed.

(** A call that gives no response has the location in the failed set when it
    returns, unless the last answer was a definitive 4xx. *)
Theorem failure_is_blacklisted_or_4xx (url : string) (hdrs : option headers)
        (w w' : client) :
  fetch_with_backoff url hdrs w = (Done None, w') ->
  (exists domain, _get_domain url = Done domain /\ domain ∈ failed_domains w')
  \/ exists n resp,
       sent w' = S n /\ (sent w <= n)%nat
       /\ session_get w n url hdrs = Returned resp
       /\ 400 <= status_code resp < 500 /\ status_code resp <> 429.
Proof.
  unfold Fetcher.fetch_with_backoff.
  destruct (_get_domain url) as [domain | err]; [| discriminate].
  destruct (bool_decide (domain ∈ failed_domains w)) eqn:Hblack.
  - apply bool_decide_eq_true in Hblack. intros [= <-]. left.
    exists domain. split; [reflexivity | exact Hblack].
  - pose proof (attempts_outcome url domain hdrs (seq 0 MAX_RETRIES) w) as Hout.
    cbv zeta in Hout.
    destruct (attempts url domain hdrs (seq 0 MAX_RETRIES) w) as [r wr].
    cbn [fst snd] in *. intros [= -> ->].
    destruct Hout as [Hin | Hlast]; [left | right; exact Hlast].
    exists domain. split; [reflexivity | exact Hin].
Qed.

(** A served response after [k] retryable failures, [k] below three, is
    returned: the call sends [k + 1] requests, sleeps 1, 2, ... seconds
    between them, and leaves the failed set as it was. *)
Theorem recovers_after_transient_failures
        (url domain : string) (hdrs : option headers) (w : client) (k : nat)
        (resp : response) :
  _get_domain url = Done domain ->
  domain ∉ failed_domains w ->
  (k < 3)%nat ->
  (forall i, (i < k)%nat ->
     retryable_failure (session_get w (sent w + i)%nat url hdrs) = true) ->
  session_get w (sent w + k)%nat url hdrs = Returned resp ->
  served resp ->
  exists w' tl,
    fetch_with_backoff url hdrs w = (Done (Some resp), w')
    /\ trace w' = (trace w ++ tl)%list
    /\ length (requests tl) = S k
    /\ sleeps tl = map (Py.pow BACKOFF_BASE) (seq 0 k)
    /\ sent w' = (sent w + S k)%nat
    /\ failed_domains w' = failed_domains w.
Proof.
  intros Hdomain Hfresh Hk Hfail Hresp Hserved.
  rewrite (FetchClientFacts.fetch_not_blacklisted ip_address url domain)
    by assumption.
  change (seq 0 MAX_RETRIES) with [0; 1; 2]%nat.
  destruct k as [| [| [| k]]]; [| | | lia].
  - rewrite Nat.add_0_r in Hresp.
    rewrite (attempts_served _ _ _ _ _ _ resp Hresp Hserved).
    eexists _, _. split; [reflexivity |]. simpl.
    repeat split; try lia.
  - rewrite FetchClientFacts.attempts_retry
      by (rewrite <- (Nat.add_0_r (sent w)); apply Hfail; lia).
    rewrite (attempts_served _ _ _ _ _ _ resp)
      by (simpl; rewrite <- ?(Nat.add_1_r (sent w)); assumption).
    eexists _, _. split; [reflexivity |]. simpl.
    rewrite <- !app_assoc. repeat split; try lia.
  - rewrite FetchClientFacts.attempts_retry
      by (rewrite <- (Nat.add_0_r (sent w)); apply Hfail; lia).
    rewrite FetchClientFacts.attempts_retry
      by (simpl; rewrite <- (Nat.add_1_r (sent w)); apply Hfail; lia).
    rewrite (attempts_served _ _ _ _ _ _ resp)
      by (simpl; replace (S (S (sent w))) with (sent w + 2)%nat by lia;
          assumption).
    eexists _, _. split; [reflexivity |]. simpl.
    rewrite <- !app_assoc. repeat split; try lia.
Qed.

Lemma unchained_is_retried (e : exc) :
  unchained e -> _is_non_retryable_error e = false.
Proof.
  destruct e as [cls cause]. intros [Hcause Hname]. simpl in Hcause. subst cause.
  unfold _is_non_retryable_error. cbn [root_cause cls_name].
  destruct (existsb _ _) eqn:Hex; [| reflexivity].
  apply existsb_exists in Hex as (k & Hk & Hcontains).
  specialize (Hname k Hk). cbn [cls_name] in Hname. congruence.
Qed.

(** A connection error raised without [from], as [requests] raises its
    own, is never taken for a permanent failure, whatever went wrong
    underneath: three of them in a row are retried like timeouts, with waits
    of 1 and 2 seconds, and the location enters the failed set only after the
    third request. *)
Theorem unchained_connection_errors_are_retried
        (url domain : string) (hdrs : option headers) (w : client) :
  _get_domain url = Done domain ->
  domain ∉ failed_domains w ->
  (forall i, (i < 3)%nat ->
     exists e, session_get w (sent w + i)%nat url hdrs = RaisedConnectionError e
               /\ unchained e) ->
  exists w',
    fetch_with_backoff url hdrs w = (Done None, w')
    /\ trace w' = (trace w ++
         [Get url hdrs REQUEST_TIMEOUT; LogAttemptFailed 1 url 1; Sleep 1;
          Get url hdrs REQUEST_TIMEOUT; LogAttemptFailed 2 url 2; Sleep 2;
          Get url hdrs REQUEST_TIMEOUT; LogAttemptFailed 3 url 4;
          LogAllFailed url])%list
    /\ sent w' = (sent w + 3)%nat
    /\ failed_domains w' = {[domain]} ∪ failed_domains w.
Proof.
  intros Hdomain Hfresh Hfail.
  assert (Hretry : forall i, (i < 3)%nat ->
            retryable_failure (session_get w (sent w + i)%nat url hdrs) = true).
  { intros i Hi. destruct (Hfail i Hi) as (e & -> & He).
    simpl. rewrite (unchained_is_retried e He). reflexivity. }
  rewrite (FetchClientFacts.fetch_not_blacklisted ip_address url domain)
    by assumption.
  change (seq 0 MAX_RETRIES) with [0; 1; 2]%nat.
  rewrite FetchClientFacts.attempts_retry
    by (rewrite <- (Nat.add_0_r (sent w)); apply Hretry; lia).
  rewrite FetchClientFacts.attempts_retry
    by (simpl; rewrite <- (Nat.add_1_r (sent w)); apply Hretry; lia).
  rewrite FetchClientFacts.attempts_retry
    by (simpl; replace (S (S (sent w))) with (sent w + 2)%nat by lia;
        apply Hretry; lia).
  eexists. split; [reflexivity |]. simpl.
  repeat split.
  - rewrite <- !app_assoc. reflexivity.
  - lia.
Qed.

End WithAddresses.

Import Fixtures.

Lemma returned_response_is_served_witness :
  served feed_response
  /\ failed_domains (snd (Fetcher.fetch_with_backoff ip_address
                            "https://example.com/feed" None
                            (fresh_client feed_served))) = ∅
  /\ (exists domain,
        Fetcher._get_domain ip_address "https://example.com/feed" = Done domain
        /\ domain ∉ (∅ : gset string))
  /\ exists n,
       sent (snd (Fetcher.fetch_with_backoff ip_address "https://example.com/feed"
                    None (fresh_client feed_served))) = S n
       /\ (0 <= n)%nat
       /\ feed_served n "https://example.com/feed" None = Returned feed_response.
Proof.
  apply (returned_response_is_served ip_address "https://example.com/feed" None
           (fresh_client feed_served)).
  reflexivity.
Defined.

Lemma failure_is_blacklisted_or_4xx_witness :
  (exists domain,
     Fetcher._get_domain ip_address "https://example.com/x" = Done domain
     /\ domain ∈ failed_domains
                   (snd (Fetcher.fetch_with_backoff ip_address
                           "https://example.com/x" None (fresh_client not_found))))
  \/ exists n resp,
       sent (snd (Fetcher.fetch_with_backoff ip_address "https://example.com/x"
                    None (fresh_client not_found))) = S n
       /\ (0 <= n)%nat
       /\ not_found n "https://example.com/x" None = Returned resp
       /\ 400 <= status_code resp < 500 /\ status_code resp <> 429.
Proof.
  apply (failure_is_blacklisted_or_4xx ip_address "https://example.com/x" None
           (fresh_client not_found)).
  reflexivity.
Defined.

Lemma recovers_after_transient_failures_witness :
  exists w' tl,
    Fetcher.fetch_with_backoff ip_address "https://example.com/feed" None
                               (fresh_client flaky_then_ok)
    = (Done (Some feed_response), w')
    /\ trace w' = tl
    /\ length (requests tl) = 3%nat
    /\ sleeps tl = [1; 2]
    /\ sent w' = 3%nat
    /\ failed_domains w' = ∅.
Proof.
  apply (recovers_after_transient_failures ip_address "https://example.com/feed"
           "example.com" None (fresh_client flaky_then_ok) 2 feed_response).
  - reflexivity.
  - simpl. apply not_elem_of_empty.
  - lia.
  - intros [| [| i]] Hi; [reflexivity | reflexivity | lia].
  - reflexivity.
  - right. left. simpl. lia.
Defined.

Lemma unchained_connection_errors_are_retried_witness :
  exists w',
    Fetcher.fetch_with_backoff ip_address "http://example.com/a" None
                               (fresh_client unresolved)
    = (Done None, w')
    /\ trace w' =
         [Get "http://example.com/a" None 15;
          LogAttemptFailed 1 "http://example.com/a" 1; Sleep 1;
          Get "http://example.com/a" None 15;
          LogAttemptFailed 2 "http://example.com/a" 2; Sleep 2;
          Get "http://example.com/a" None 15;
          LogAttemptFailed 3 "http://example.com/a" 4;
          LogAllFailed "http://example.com/a"]
    /\ sent w' = 3%nat
    /\ failed_domains w' = {["example.com"]} ∪ ∅.
Proof.
  apply (unchained_connection_errors_are_retried ip_address "http://example.com/a"
           "example.com" None (fresh_client unresolved)).
  - reflexivity.
  - simpl. apply not_elem_of_empty.
  - intros i _. exists (Exc "ConnectionError" None).
    split; [reflexivity |]. split; [reflexivity |].
    intros k [<- | [<- | [<- | []]]]; reflexivity.
Defined.

End FetchClientMore.

(** * Further properties of ingestion *)

Module IngestMore.

Import Fetcher Observations.

Lemma take_length (n : nat) (s : string) : (String.length (Py.take n s) <= n)%nat.
Proof.
  revert s. induction n as [| n IH]; intros [| c s]; simpl; try lia.
  specialize (IH s). lia.
Qed.

Lemma update_sources_ids (f : Db.source_row -> Db.source_row) (sid : Z)
      (d : Db.db) :
  (forall r, Db.src_id (f r) = Db.src_id r) ->
  map Db.src_id (Db.sources (Db.update_sources f sid d))
  = map Db.src_id (Db.sources d).
Proof.
  intros Hid. simpl. induction (Db.sources d) as [| r rs IH]; simpl;
    [reflexivity |].
  rewrite IH. destruct (Db.src_id r =? sid); [rewrite Hid |]; reflexivity.
Qed.

Lemma slice_to_length (n : Z) (s : string) :
  0 <= n -> Z.of_nat (String.length (slice_to n s)) <= n.
Proof.
  intros Hn. unfold slice_to. replace (0 <=? n) with true by lia.
  pose proof (take_length (Z.to_nat n) s). lia.
Qed.

Section WithLibraries.

Variable ip_address : string -> option UrlParse.ip_version.
Variable MAX_CHARS_PER_ITEM : Z.
Variable sha256_hexdigest : string -> string.
Variable soup_get_text : string -> string.
Variable soup_alternate_links : string -> list link_tag.
Variable feedparser_entries : string -> list entry.

Abbreviation _get_domain := (_get_domain ip_address).
Abbreviation fetch_with_backoff := (fetch_with_backoff ip_address).
Abbreviation fetch_article_text :=
  (fetch_article_text ip_address MAX_CHARS_PER_ITEM soup_get_text).
Abbreviation probe := (probe ip_address feedparser_entries).
Abbreviation _discover_site_feed :=
  (_discover_site_feed ip_address soup_alternate_links feedparser_entries).
Abbreviation discover_feed_url :=
  (discover_feed_url ip_address soup_alternate_links feedparser_entries).
Abbreviation ingest_entries :=
  (ingest_entries ip_address MAX_CHARS_PER_ITEM sha256_hexdigest soup_get_text).
Abbreviation fetch_feed :=
  (fetch_feed ip_address MAX_CHARS_PER_ITEM sha256_hexdigest soup_get_text
              feedparser_entries).
Abbreviation run_sources :=
  (run_sources ip_address MAX_CHARS_PER_ITEM sha256_hexdigest soup_get_text
               soup_alternate_links feedparser_entries).
Abbreviation main :=
  (main ip_address MAX_CHARS_PER_ITEM sha256_hexdigest soup_get_text
        soup_alternate_links feedparser_entries).
Abbreviation fresh_item := (fresh_item MAX_CHARS_PER_ITEM sha256_hexdigest).

(** The only exception of the fetch client is the [ValueError] of
    [urlparse]. *)
Lemma fetch_raises (url : string) (hdrs : option headers) (w : client)
      (err : error) :
  fst (fetch_with_backoff url hdrs w) = Raised err ->
  err = LibraryError "ValueError".
Proof.
  unfold Fetcher.fetch_with_backoff, Fetcher._get_domain.
  destruct (UrlParse.urlparse_netloc ip_address url) as [netloc |].
  - destruct (bool_decide (Py.lower netloc ∈ failed_domains w)); discriminate.
  - intros [= <-]. reflexivity.
Qed.

Lemma fetch_article_text_raises (url : string) (w : client) (err : error) :
  fst (fetch_article_text url w) = Raised err ->
  err = LibraryError "ValueError".
Proof.
  unfold Fetcher.fetch_article_text.
  pose proof (fetch_raises url None w) as Hfetch.
  destruct (fetch_with_backoff url None w) as [[[resp |] | e] w'];
    try discriminate.
  intros [= <-]. apply Hfetch. reflexivity.
Qed.

(** The entry loop, however it ends, appends the items it has counted and
    touches nothing else; it raises nothing but the [ValueError] of
    [urlparse]. *)
Lemma ingest_entries_appends (sid : Z) (now : string) (es : list entry)
      (n : nat) (d : Db.db) (w : client) :
  exists new,
    Db.items (snd (fst (ingest_entries sid now es n d w)))
    = (Db.items d ++ new)%list
    /\ Db.sources (snd (fst (ingest_entries sid now es n d w))) = Db.sources d
    /\ Forall (fresh_item sid now) new
    /\ (forall k, fst (fst (ingest_entries sid now es n d w)) = Done k ->
                  k = (n + length new)%nat)
    /\ (forall err, fst (fst (ingest_entries sid now es n d w)) = Raised err ->
                    err = LibraryError "ValueError").
Proof.
  revert n d w. induction es as [| e es IH]; intros n d w.
  - exists []. simpl. rewrite app_nil_r.
    repeat split; try reflexivity; [apply List.Forall_nil | | discriminate].
    intros k [= <-]. lia.
  - simpl.
    destruct (entry_url e) as [u |]; [| apply IH].
    destruct (Py.truthy u) eqn:Hu; simpl; [| apply IH].
    destruct (Db.item_exists (Fetcher.url_hash sha256_hexdigest u) d) eqn:Hex;
      [apply IH |].
    assert (Hraise : forall err,
              fst (if thin (get_entry_content MAX_CHARS_PER_ITEM soup_get_text e)
                   then fetch_article_text u w
                   else (Done (get_entry_content MAX_CHARS_PER_ITEM soup_get_text e), w))
              = Raised err -> err = LibraryError "ValueError").
    { destruct (thin _); [apply fetch_article_text_raises | discriminate]. }
    destruct (if thin (get_entry_content MAX_CHARS_PER_ITEM soup_get_text e)
              then fetch_article_text u w
              else (Done (get_entry_content MAX_CHARS_PER_ITEM soup_get_text e), w))
      as [[content | err] w1].
    + unfold Db.insert_item. rewrite Hex.
      match goal with
      | |- context [Fetcher.ingest_entries _ _ _ _ sid now es (S n) ?d1 w1] =>
          destruct (IH (S n) d1 w1)
            as (new & Hitems & Hsources & Hnew & Hcount & Herr)
      end.
      simpl in Hitems, Hsources.
      eexists (_ :: new). rewrite Hitems, Hsources, <- app_assoc.
      split; [reflexivity |]. split; [reflexivity |].
      split; [| split; [| exact Herr]].
      * apply Forall_cons. split; [| exact Hnew].
        unfold Observations.fresh_item. simpl.
        repeat split; try reflexivity.
        -- destruct u; [discriminate | discriminate].
        -- eexists. split; [reflexivity |]. apply slice_to_length.
      * intros k Hk. rewrite (Hcount k Hk). simpl. lia.
    + exists []. simpl. rewrite app_nil_r.
      split; [reflexivity |]. split; [reflexivity |].
      split; [apply List.Forall_nil |]. split; [discriminate |].
      intros err' [= <-]. apply Hraise. reflexivity.
Qed.

(** The count [fetch_feed] returns is the number of items it appended; each
    is a [new] item of that source stamped with the time of the call, holds
    the hash of its non-empty URL and, when the budget is not negative, at
    most [MAX_CHARS_PER_ITEM] characters of content; the items that were
    there are untouched, and no source row is added or removed. *)
Theorem fetch_feed_appends_what_it_counts
        (source_id : Z) (feed_url now : string) (d d' : Db.db) (w w' : client)
        (n : nat) :
  fetch_feed source_id feed_url now d w = (Done n, d', w') ->
  exists new,
    Db.items d' = (Db.items d ++ new)%list
    /\ length new = n
    /\ Forall (fresh_item source_id now) new
    /\ map Db.src_id (Db.sources d') = map Db.src_id (Db.sources d).
Proof.
  unfold Fetcher.fetch_feed.
  assert (Hnone : forall w0, (Done 0%nat, d, w0) = (Done n, d', w') ->
            exists new,
              Db.items d' = (Db.items d ++ new)%list
              /\ length new = n
              /\ Forall (fresh_item source_id now) new
              /\ map Db.src_id (Db.sources d') = map Db.src_id (Db.sources d)).
  { intros w0 [= <- <- _]. exists []. rewrite app_nil_r. auto. }
  destruct (Db.select_source source_id d) as [row |]; [| discriminate].
  destruct (fetch_with_backoff feed_url _ w) as [[[resp |] | err] w1];
    [| apply Hnone | discriminate].
  destruct (status_code resp =? 304); [apply Hnone |].
  set (dv := Db.update_source_validators (etag_header resp)
               (last_modified_header resp) now source_id d).
  assert (Hids : map Db.src_id (Db.sources dv) = map Db.src_id (Db.sources d)).
  { subst dv. apply update_sources_ids. reflexivity. }
  destruct (feedparser_entries (text resp)) as [| e es].
  - intros [= <- <- _]. exists []. rewrite app_nil_r. auto.
  - destruct (ingest_entries_appends source_id now (e :: es) 0 dv w1)
      as (new & Hitems & Hsources & Hnew & Hcount & _).
    intros Hrun. rewrite Hrun in Hcount, Hitems, Hsources.
    cbn [fst snd] in Hcount, Hitems, Hsources.
    specialize (Hcount n eq_refl).
    exists new. rewrite Hsources.
    split; [exact Hitems |]. split; [lia |]. split; [exact Hnew | exact Hids].
Qed.

Lemma select_source_validators (et lm : option string) (now : string)
      (sid : Z) (d : Db.db) (row : Db.source_row) :
  Db.select_source sid d = Some row ->
  exists row1,
    Db.select_source sid (Db.update_source_validators et lm now sid d) = Some row1
    /\ Db.etag row1 = et /\ Db.last_modified row1 = lm
    /\ Db.last_fetch_at row1 = Some now
    /\ Db.feed_url row1 = Db.feed_url row /\ Db.active row1 = Db.active row.
Proof.
  intros Hrow. eexists. split.
  - unfold Db.update_source_validators.
    apply (IngestFacts.select_source_update _ _ _ row); [reflexivity | exact Hrow].
  - simpl. repeat split.
Qed.

(** The validators a response carries are stored and sent back: after a
    fetch that was answered with an entity tag and a modification date, the
    source row yields exactly the two conditional headers with those values,
    and when the server answers the request that carries them with 304 the
    next call returns 0 and leaves the store as it is. *)
Theorem validators_round_trip
        (source_id : Z) (feed_url now1 now2 : string) (d : Db.db) (w w2 : client)
        (row : Db.source_row) (resp : response) (wa : client) (e m : string) :
  Db.select_source source_id d = Some row ->
  fetch_with_backoff feed_url (Some (conditional_headers row)) w
  = (Done (Some resp), wa) ->
  status_code resp <> 304 ->
  etag_header resp = Some e -> e <> EmptyString ->
  last_modified_header resp = Some m -> m <> EmptyString ->
  let d1 := snd (fst (fetch_feed source_id feed_url now1 d w)) in
  let carried : headers := [("If-None-Match", e); ("If-Modified-Since", m)] in
  (exists row1,
     Db.select_source source_id d1 = Some row1
     /\ conditional_headers row1 = carried
     /\ Db.last_fetch_at row1 = Some now1)
  /\ forall resp2 w2',
       fetch_with_backoff feed_url (Some carried) w2 = (Done (Some resp2), w2') ->
       status_code resp2 = 304 ->
       fetch_feed source_id feed_url now2 d1 w2 = (Done 0%nat, d1, w2').
Proof.
  intros Hrow Hresp H304 He Hne Hm Hnm d1 carried.
  set (dv := Db.update_source_validators (etag_header resp)
               (last_modified_header resp) now1 source_id d).
  assert (Hsources : Db.sources d1 = Db.sources dv).
  { subst d1. unfold Fetcher.fetch_feed. rewrite Hrow, Hresp.
    replace (status_code resp =? 304) with false by lia. fold dv.
    destruct (feedparser_entries (text resp)) as [| e0 es]; [reflexivity |].
    destruct (ingest_entries_appends source_id now1 (e0 :: es) 0 dv wa)
      as (new & _ & Hs & _).
    exact Hs. }
  destruct (select_source_validators (etag_header resp)
              (last_modified_header resp) now1 source_id d row Hrow)
    as (row1 & Hrow1 & Het & Hlm & Hat & _).
  fold dv in Hrow1.
  assert (Hsel : Db.select_source source_id d1 = Some row1)
    by (unfold Db.select_source in *; rewrite Hsources; exact Hrow1).
  assert (Hcarried : conditional_headers row1 = carried).
  { unfold conditional_headers. rewrite Het, Hlm, He, Hm. simpl.
    destruct e; [contradiction |]. destruct m; [contradiction |]. reflexivity. }
  split.
  - exists row1. auto.
  - intros resp2 w2' Hresp2 Hnot.
    unfold Fetcher.fetch_feed. rewrite Hsel, Hcarried, Hresp2.
    replace (status_code resp2 =? 304) with true by lia. reflexivity.
Qed.

(** *** The run over the configured sources *)

Lemma find_exists {A : Type} (q : A -> bool) (l : list A) (x : A) :
  In x l -> q x = true -> exists y, find q l = Some y.
Proof.
  induction l as [| a l IH]; simpl; [tauto |].
  intros [-> | Hin] Hq.
  - rewrite Hq. eauto.
  - destruct (q a); [eauto | exact (IH Hin Hq)].
Qed.

(** [upsert_source] raises for a [null] type and for nothing else, and then
    it writes nothing; the source id it returns names a row of the store it
    leaves. *)
Lemma upsert_source_outcome (source : source_cfg) (fu : option string)
      (d : Db.db) :
  match upsert_source source fu d with
  | (Done sid, d') => cfg_type source <> Some YNull
                      /\ exists row, Db.select_source sid d' = Some row
  | (Raised err, d') => err = IntegrityError /\ cfg_type source = Some YNull
                        /\ d' = d
  end.
Proof.
  unfold upsert_source, source_type.
  destruct (Db.select_source_by_url (cfg_url source) d) as [row |] eqn:Hfind;
    destruct (cfg_type source) as [[| ty] |]; cbn [default];
    try (split; [reflexivity | split; reflexivity]);
    (split; [discriminate |]).
  - apply List.find_some in Hfind as [Hin _].
    unfold Db.select_source, Db.update_source_config, Db.update_sources. simpl.
    eapply (find_exists _ _ _).
    + apply in_map. exact Hin.
    + simpl. rewrite Z.eqb_refl. simpl. apply Z.eqb_refl.
  - apply List.find_some in Hfind as [Hin _].
    unfold Db.select_source, Db.update_source_config, Db.update_sources. simpl.
    eapply (find_exists _ _ _).
    + apply in_map. exact Hin.
    + simpl. rewrite Z.eqb_refl. simpl. apply Z.eqb_refl.
  - unfold Db.select_source. simpl.
    eapply (find_exists _ _ _).
    + apply in_or_app. right. left. reflexivity.
    + simpl. apply Z.eqb_refl.
  - unfold Db.select_source. simpl.
    eapply (find_exists _ _ _).
    + apply in_or_app. right. left. reflexivity.
    + simpl. apply Z.eqb_refl.
Qed.

Lemma fetch_feed_runs (source_id : Z) (feed_url now : string) (d : Db.db)
      (w : client) (row : Db.source_row) :
  Db.select_source source_id d = Some row ->
  exists new,
    Db.items (snd (fst (fetch_feed source_id feed_url now d w)))
    = (Db.items d ++ new)%list
    /\ Forall (fresh_item source_id now) new
    /\ (forall k, fst (fst (fetch_feed source_id feed_url now d w)) = Done k ->
                  k = length new)
    /\ (forall err, fst (fst (fetch_feed source_id feed_url now d w)) = Raised err ->
                    err = LibraryError "ValueError").
Proof.
  intros Hrow. unfold Fetcher.fetch_feed. rewrite Hrow.
  assert (Hnone : exists new : list Db.item_row,
            Db.items d = (Db.items d ++ new)%list
            /\ Forall (fresh_item source_id now) new
            /\ (forall k, @Done nat 0%nat = Done k -> k = length new)
            /\ (forall err, @Done nat 0%nat = Raised err ->
                            err = LibraryError "ValueError")).
  { exists []. rewrite app_nil_r.
    split; [reflexivity |]. split; [apply List.Forall_nil |].
    split; [intros k [= <-]; reflexivity | discriminate]. }
  pose proof (fetch_raises feed_url (Some (conditional_headers row)) w) as Hfetch.
  destruct (fetch_with_backoff feed_url _ w) as [[[resp |] | e] w1];
    cbn [fst snd] in *; [| exact Hnone |].
  - destruct (status_code resp =? 304); [exact Hnone |].
    destruct (feedparser_entries (text resp)) as [| e es]; [exact Hnone |].
    match goal with
    | |- context [Fetcher.ingest_entries _ _ _ _ source_id now (e :: es) 0 ?dv w1] =>
        destruct (ingest_entries_appends source_id now (e :: es) 0 dv w1)
          as (new & Hitems & _ & Hnew & Hcount & Herr)
    end.
    exists new. rewrite Hitems.
    split; [reflexivity |]. split; [exact Hnew |]. split; [exact Hcount | exact Herr].
  - exists []. rewrite app_nil_r.
    split; [reflexivity |]. split; [apply List.Forall_nil |].
    split; [discriminate |]. intros err [= <-]. apply Hfetch. reflexivity.
Qed.

Lemma probe_raises (url : string) (paths : list string) (w : client) (err : error) :
  fst (probe url paths w) = Raised err -> err = LibraryError "ValueError".
Proof.
  revert w. induction paths as [| path rest IH]; intros w; [discriminate |].
  cbn [Fetcher.probe].
  pose proof (fetch_raises (url ++ path) None w) as Hfetch.
  destruct (fetch_with_backoff (url ++ path) None w) as [[[p |] | e] w1];
    cbn [fst] in *.
  - destruct (status_code p =? 200); [| apply IH].
    destruct (existsb _ _); [discriminate |].
    destruct (feedparser_entries (text p)); [apply IH | discriminate].
  - apply IH.
  - intros [= <-]. apply Hfetch. reflexivity.
Qed.

Lemma discover_feed_url_raises (source : source_cfg) (w : client) (err : error) :
  fst (discover_feed_url source w) = Raised err -> err = LibraryError "ValueError".
Proof.
  unfold Fetcher.discover_feed_url.
  destruct (Py.truthy_opt (cfg_feed_url source)); [discriminate |].
  destruct (Py.truthy_opt (cfg_html_fallback_url source)); [discriminate |].
  destruct (type_is "substack" (source_type source)); [discriminate |].
  destruct (type_is "medium" (source_type source)).
  { destruct (medium_profile _); [discriminate |].
    destruct (medium_publication _); discriminate. }
  destruct (type_is "youtube" (source_type source)); [discriminate |].
  unfold Fetcher._discover_site_feed.
  pose proof (fetch_raises (Py.rstrip_by is_slash (cfg_url source)) None w) as Hfetch.
  destruct (fetch_with_backoff _ None w) as [[[resp |] | e] w1]; cbn [fst] in *.
  - destruct (first_feed_link _ _); [discriminate | apply probe_raises].
  - discriminate.
  - intros [= <-]. apply Hfetch. reflexivity.
Qed.

Lemma run_sources_appends (sources : list source_cfg) (clock : nat -> string)
      (i total : nat) (d : Db.db) (w : client) :
  exists new,
    Db.items (snd (fst (run_sources sources clock i total d w)))
    = (Db.items d ++ new)%list
    /\ Forall (ingested_item MAX_CHARS_PER_ITEM sha256_hexdigest) new
    /\ (forall k, fst (fst (run_sources sources clock i total d w)) = Done k ->
                  k = (total + length new)%nat)
    /\ (forall err, fst (fst (run_sources sources clock i total d w)) = Raised err ->
                    fetcher_failure sources err).
Proof.
  revert i total d w.
  induction sources as [| source rest IH]; intros i total d w.
  - exists []. simpl. rewrite app_nil_r.
    split; [reflexivity |]. split; [apply List.Forall_nil |].
    split; [intros k [= <-]; lia | discriminate].
  - assert (Hstop : forall (d0 : Db.db) (w0 : client) (err : error),
              Db.items d0 = Db.items d ->
              fetcher_failure (source :: rest) err ->
              exists new,
                Db.items d0 = (Db.items d ++ new)%list
                /\ Forall (ingested_item MAX_CHARS_PER_ITEM sha256_hexdigest) new
                /\ (forall k, @Raised nat err = Done k ->
                              k = (total + length new)%nat)
                /\ (forall err', @Raised nat err = Raised err' ->
                                 fetcher_failure (source :: rest) err')).
    { intros d0 w0 err Hd0 Herr. exists []. rewrite app_nil_r.
      split; [exact Hd0 |]. split; [apply List.Forall_nil |].
      split; [discriminate |]. intros err' [= <-]. exact Herr. }
    assert (Hlater : forall err, fetcher_failure rest err ->
                                 fetcher_failure (source :: rest) err).
    { intros err [(-> & s & Hin & Hs) | ->]; [left | right; reflexivity].
      split; [reflexivity |]. exists s. split; [right; exact Hin | exact Hs]. }
    cbn [Fetcher.run_sources].
    pose proof (discover_feed_url_raises source w) as Hdiscover.
    destruct (discover_feed_url source w) as [[found | err] w1]; cbn [fst] in *.
    2: { apply (Hstop d w1 err); [reflexivity | right].
         apply Hdiscover. reflexivity. }
    destruct (Py.truthy_opt found).
    + pose proof (IngestFacts.upsert_source_items source found d) as Hit.
      pose proof (upsert_source_outcome source found d) as Hup.
      destruct (upsert_source source found d) as [[sid | err] d1];
        cbn [snd] in Hit.
      2: { destruct Hup as (-> & Hnull & _).
           apply (Hstop d w1 IntegrityError); [reflexivity | left].
           split; [reflexivity |]. exists source.
           split; [left; reflexivity | exact Hnull]. }
      destruct Hup as [_ [row Hrow]].
      destruct (fetch_feed_runs sid (default EmptyString found) (clock i) d1 w1
                  row Hrow) as (new1 & Hitems1 & Hnew1 & Hcount1 & Herr1).
      destruct (fetch_feed sid (default EmptyString found) (clock i) d1 w1)
        as [[[n | err] d2] w2]; cbn [fst snd] in Hitems1, Hcount1, Herr1.
      * rewrite (Hcount1 n eq_refl).
        destruct (IH (S i) (total + length new1)%nat d2 (emit Pause w2))
          as (new2 & Hitems2 & Hnew2 & Hcount2 & Herr2).
        exists (new1 ++ new2)%list.
        rewrite Hitems2, Hitems1, Hit, length_app, <- app_assoc.
        split; [reflexivity |]. split.
        { apply Forall_app. split; [| exact Hnew2].
          eapply List.Forall_impl; [| exact Hnew1].
          intros r Hr. exists sid, (clock i). exact Hr. }
        split; [intros k Hk; rewrite (Hcount2 k Hk); lia |].
        intros err Herr. apply Hlater. exact (Herr2 err Herr).
      * apply (Hstop d1 w2 err); [exact Hit | right]. apply Herr1. reflexivity.
    + pose proof (IngestFacts.upsert_source_items source None d) as Hit.
      pose proof (upsert_source_outcome source None d) as Hup.
      destruct (upsert_source source None d) as [[sid | err] d1];
        cbn [snd] in Hit.
      2: { destruct Hup as (-> & Hnull & _).
           apply (Hstop d w1 IntegrityError); [reflexivity | left].
           split; [reflexivity |]. exists source.
           split; [left; reflexivity | exact Hnull]. }
      destruct (IH (S i) total d1 w1) as (new & Hitems & Hnew & Hcount & Herr).
      exists new. rewrite Hitems, Hit.
      split; [reflexivity |]. split; [exact Hnew |]. split; [exact Hcount |].
      intros err Herr0. apply Hlater. exact (Herr err Herr0).
Qed.

(** The items in the database file after a run of the fetcher, whether the
    run ends normally or with an exception, are those from before it
    followed by items as [fetch_feed] inserts them.  When the run ends
    normally the total it reports is the number of items it appended. *)
Theorem fetcher_run_reports_what_it_appended
        (sources : list source_cfg) (clock : nat -> string) (d : Db.db)
        (w : client) :
  exists new,
    Db.items (snd (fst (main sources clock d w))) = (Db.items d ++ new)%list
    /\ Forall (ingested_item MAX_CHARS_PER_ITEM sha256_hexdigest) new
    /\ (forall total, fst (fst (main sources clock d w)) = Done total ->
                      total = length new).
Proof.
  unfold Fetcher.main.
  destruct (run_sources_appends sources clock 0 0 d w)
    as (new & Hitems & Hnew & Hcount & _).
  exists new. split; [exact Hitems |]. split; [exact Hnew | exact Hcount].
Qed.

(** *** The extracted text *)

Lemma prefix_cons (a b : ascii) (s t : string) :
  String.prefix (String a s) (String b t)
  = if Ascii.eqb a b then String.prefix s t else false.
Proof.
  cbn [String.prefix]. destruct (ascii_dec a b) as [-> | Hne].
  - rewrite Ascii.eqb_refl. reflexivity.
  - apply Ascii.eqb_neq in Hne. rewrite Hne. reflexivity.
Qed.

Lemma contains_cons (sub : string) (c : ascii) (r : string) :
  Py.contains sub (String c r)
  = String.prefix sub (String c r) || Py.contains sub r.
Proof. reflexivity. Qed.

Lemma prefix_take (t : string) (n : nat) (s : string) :
  String.prefix t (Py.take n s) = true -> String.prefix t s = true.
Proof.
  revert n s. induction t as [| a t IH]; intros n s.
  - destruct s; reflexivity.
  - destruct n as [| n], s as [| b s]; try discriminate.
    change (Py.take (S n) (String b s)) with (String b (Py.take n s)).
    rewrite !prefix_cons. destruct (Ascii.eqb a b); [apply IH | discriminate].
Qed.

Lemma contains_take (sub : string) (n : nat) (s : string) :
  Py.contains sub (Py.take n s) = true -> Py.contains sub s = true.
Proof.
  revert n. induction s as [| c s IH]; intros n.
  - destruct n; exact (fun H => H).
  - destruct n as [| n].
    + change (Py.take 0 (String c s)) with EmptyString.
      intros H. change (Py.contains sub "") with (String.prefix sub "" || false) in H.
      rewrite orb_false_r in H. destruct sub; [reflexivity | discriminate].
    + change (Py.take (S n) (String c s)) with (String c (Py.take n s)).
      rewrite !contains_cons. intros H. apply orb_true_iff in H as [H | H].
      * apply orb_true_iff. left.
        exact (prefix_take sub (S n) (String c s) H).
      * apply orb_true_iff. right. exact (IH n H).
Qed.

Lemma slice_to_is_take (n : Z) (s : string) :
  exists k, slice_to n s = Py.take k s.
Proof. unfold slice_to. destruct (0 <=? n); eexists; reflexivity. Qed.

Lemma no_blank_lines_after (a : ascii) (X : string) (k : nat) :
  (k <= 2)%nat ->
  Ascii.eqb a newline = false ->
  Py.contains blank_lines X = false ->
  Py.contains blank_lines (repeat_char newline k (String a X)) = false.
Proof.
  intros Hk Ha HX.
  assert (Hnl : Ascii.eqb newline a = false)
    by (rewrite Ascii.eqb_sym; exact Ha).
  assert (H0 : Py.contains blank_lines (String a X) = false).
  { rewrite contains_cons. unfold blank_lines at 1.
    rewrite prefix_cons, Hnl, HX. reflexivity. }
  assert (H1 : Py.contains blank_lines (String newline (String a X)) = false).
  { rewrite contains_cons. unfold blank_lines at 1.
    rewrite !prefix_cons, Ascii.eqb_refl, Hnl, H0. reflexivity. }
  destruct k as [| [| [| k]]]; [exact H0 | exact H1 | | lia].
  cbn [repeat_char]. rewrite contains_cons. unfold blank_lines at 1.
  rewrite !prefix_cons, !Ascii.eqb_refl, Hnl, H1. reflexivity.
Qed.

Lemma collapse_newlines_no_blank_lines (s : string) (run : nat) :
  Py.contains blank_lines (collapse_newlines run s) = false.
Proof.
  revert run. induction s as [| c s IH]; intros run.
  - cbn [collapse_newlines].
    destruct (3 <=? run)%nat eqn:Hrun; [reflexivity |].
    apply Nat.leb_gt in Hrun.
    destruct run as [| [| [| run]]]; [reflexivity | reflexivity | reflexivity | lia].
  - cbn [collapse_newlines].
    destruct (Ascii.eqb c newline) eqn:Hc; [apply IH |].
    apply no_blank_lines_after; [| exact Hc | apply IH].
    destruct (3 <=? run)%nat eqn:Hrun; [lia |].
    apply Nat.leb_gt in Hrun. lia.
Qed.

(** The text [extract_text_from_html] returns never has three newlines in a
    row, and when the budget is not negative it has at most
    [MAX_CHARS_PER_ITEM] characters; the same holds of the content taken
    from a feed entry. *)
Theorem extracted_text_is_collapsed_and_capped :
  (forall html,
     Py.contains blank_lines
       (extract_text_from_html MAX_CHARS_PER_ITEM soup_get_text html) = false
     /\ (0 <= MAX_CHARS_PER_ITEM ->
         Z.of_nat (String.length
                     (extract_text_from_html MAX_CHARS_PER_ITEM soup_get_text html))
         <= MAX_CHARS_PER_ITEM))
  /\ (forall e,
        Py.contains blank_lines
          (get_entry_content MAX_CHARS_PER_ITEM soup_get_text e) = false
        /\ (0 <= MAX_CHARS_PER_ITEM ->
            Z.of_nat (String.length
                        (get_entry_content MAX_CHARS_PER_ITEM soup_get_text e))
            <= MAX_CHARS_PER_ITEM)).
Proof.
  assert (Hextract : forall html,
            Py.contains blank_lines
              (extract_text_from_html MAX_CHARS_PER_ITEM soup_get_text html) = false
            /\ (0 <= MAX_CHARS_PER_ITEM ->
                Z.of_nat (String.length
                            (extract_text_from_html MAX_CHARS_PER_ITEM
                                                    soup_get_text html))
                <= MAX_CHARS_PER_ITEM)).
  { intros html. unfold extract_text_from_html. split.
    - destruct (slice_to_is_take MAX_CHARS_PER_ITEM
                  (collapse_newlines 0 (soup_get_text html))) as [k ->].
      destruct (Py.contains blank_lines
                  (Py.take k (collapse_newlines 0 (soup_get_text html))))
        eqn:Hc; [| reflexivity].
      apply contains_take in Hc.
      rewrite collapse_newlines_no_blank_lines in Hc. discriminate.
    - apply slice_to_length. }
  split; [exact Hextract |].
  intros e. unfold get_entry_content.
  assert (Hempty : Py.contains blank_lines EmptyString = false
                   /\ (0 <= MAX_CHARS_PER_ITEM ->
                       Z.of_nat (String.length EmptyString) <= MAX_CHARS_PER_ITEM))
    by (split; [reflexivity | simpl; lia]).
  assert (Hsummary :
            Py.contains blank_lines
              (match e_summary e with
               | Some s => if Py.truthy s
                           then extract_text_from_html MAX_CHARS_PER_ITEM soup_get_text s
                           else EmptyString
               | None => EmptyString
               end) = false
            /\ (0 <= MAX_CHARS_PER_ITEM ->
                Z.of_nat (String.length
                  (match e_summary e with
                   | Some s => if Py.truthy s
                               then extract_text_from_html MAX_CHARS_PER_ITEM
                                                           soup_get_text s
                               else EmptyString
                   | None => EmptyString
                   end)) <= MAX_CHARS_PER_ITEM)).
  { destruct (e_summary e) as [s |]; [| exact Hempty].
    destruct (Py.truthy s); [apply Hextract | exact Hempty]. }
  destruct (e_content e) as [[| first rest] |]; try exact Hsummary.
  destruct (Py.truthy (default EmptyString first)); [apply Hextract | exact Hsummary].
Qed.

(** *** Discovery *)

Lemma append_assoc (a b c : string) : (a ++ b) ++ c = a ++ (b ++ c).
Proof.
  induction a as [| x a IH]; [reflexivity |].
  change (String x ((a ++ b) ++ c) = String x (a ++ (b ++ c))).
  f_equal. exact IH.
Qed.

Lemma rstrip_by_all (p : ascii -> bool) (t : string) :
  Py.all_chars p t = true -> Py.rstrip_by p t = EmptyString.
Proof.
  induction t as [| c t IH]; simpl; [reflexivity |].
  intros H. apply andb_true_iff in H as [Hc Ht]. rewrite (IH Ht), Hc. reflexivity.
Qed.

Lemma rstrip_by_app (p : ascii -> bool) (s t : string) :
  Py.all_chars p t = true -> Py.rstrip_by p (s ++ t) = Py.rstrip_by p s.
Proof.
  intros Ht. induction s as [| c s IH].
  - apply rstrip_by_all. exact Ht.
  - change (String c s ++ t) with (String c (s ++ t)).
    cbn [Py.rstrip_by]. rewrite IH. reflexivity.
Qed.

Lemma rstrip_by_none (p : ascii -> bool) (s : string) :
  Py.all_chars (fun c => negb (p c)) s = true -> Py.rstrip_by p s = s.
Proof.
  induction s as [| c s IH]; simpl; [reflexivity |].
  intros H. apply andb_true_iff in H as [Hc Hs]. rewrite (IH Hs).
  apply negb_true_iff in Hc. rewrite Hc. destruct s; reflexivity.
Qed.

Lemma rstrip_by_keeps (p : ascii -> bool) (a s : string) :
  s <> EmptyString ->
  Py.all_chars (fun c => negb (p c)) s = true ->
  Py.rstrip_by p (a ++ s) = a ++ s.
Proof.
  intros Hne Hs. induction a as [| c a IH].
  - apply rstrip_by_none. exact Hs.
  - change (String c a ++ s) with (String c (a ++ s)).
    cbn [Py.rstrip_by]. rewrite IH. destruct (a ++ s) eqn:Happ; [| reflexivity].
    destruct a; [contradiction | discriminate].
Qed.

Lemma take_while_all (p : ascii -> bool) (s : string) :
  Py.all_chars p s = true -> Py.take_while p s = s.
Proof.
  induction s as [| c s IH]; simpl; [reflexivity |].
  intros H. apply andb_true_iff in H as [Hc Hs]. rewrite Hc, (IH Hs). reflexivity.
Qed.

Lemma host_char_not_slash (c : ascii) : host_char c = true -> negb (is_slash c) = true.
Proof. destruct c as [[] [] [] [] [] [] [] []]; vm_compute; congruence. Qed.

Lemma all_chars_impl (p q : ascii -> bool) (s : string) :
  (forall c, p c = true -> q c = true) ->
  Py.all_chars p s = true -> Py.all_chars q s = true.
Proof.
  intros Hpq. induction s as [| c s IH]; simpl; [reflexivity |].
  intros H. apply andb_true_iff in H as [Hc Hs].
  rewrite (Hpq c Hc), (IH Hs). reflexivity.
Qed.

(** For a Substack source without a configured feed or fallback the feed is
    the origin with its trailing slashes removed followed by [/feed]; no
    request is made. *)
Theorem substack_feed_ignores_trailing_slashes
        (name base slashes : string) (fu fb : option string) (w : client) :
  ~ Spec.configured fu ->
  ~ Spec.configured fb ->
  Py.all_chars is_slash slashes = true ->
  discover_feed_url
    (SourceCfg name (base ++ slashes) (Some (YStr "substack")) fu fb) w
  = (Done (Some (Py.rstrip_by is_slash base ++ "/feed")), w).
Proof.
  intros Hfu Hfb Hslashes.
  apply IngestFacts.truthy_opt_not_configured in Hfu, Hfb.
  unfold Fetcher.discover_feed_url.
  cbn [cfg_feed_url cfg_html_fallback_url cfg_type cfg_url].
  rewrite Hfu, Hfb, (rstrip_by_app is_slash base slashes Hslashes).
  reflexivity.
Qed.

(** For a Medium profile [https://medium.com/@user] the feed is
    [https://medium.com/feed/@user], trailing slashes or not; no request is
    made. *)
Theorem medium_profile_feed_any_slashes
        (name user slashes : string) (fu fb : option string) (w : client) :
  ~ Spec.configured fu ->
  ~ Spec.configured fb ->
  user <> EmptyString ->
  Py.all_chars host_char user = true ->
  Py.all_chars is_slash slashes = true ->
  discover_feed_url
    (SourceCfg name ("https://medium.com/@" ++ user ++ slashes)
               (Some (YStr "medium")) fu fb) w
  = (Done (Some ("https://medium.com/feed/@" ++ user)), w).
Proof.
  intros Hfu Hfb Hne Huser Hslashes.
  apply IngestFacts.truthy_opt_not_configured in Hfu, Hfb.
  unfold Fetcher.discover_feed_url.
  cbn [cfg_feed_url cfg_html_fallback_url cfg_type cfg_url].
  rewrite Hfu, Hfb.
  rewrite <- (append_assoc "https://medium.com/@" user slashes).
  rewrite (rstrip_by_app is_slash _ slashes Hslashes).
  rewrite (rstrip_by_keeps is_slash "https://medium.com/@" user Hne)
    by (exact (all_chars_impl _ _ user host_char_not_slash Huser)).
  change (type_is "substack"
            (source_type (SourceCfg name ("https://medium.com/@" ++ user ++ slashes)
                            (Some (YStr "medium")) fu fb))) with false.
  change (type_is "medium"
            (source_type (SourceCfg name ("https://medium.com/@" ++ user ++ slashes)
                            (Some (YStr "medium")) fu fb))) with true.
  cbv iota.
  assert (Hprofile : medium_profile ("https://medium.com/@" ++ user)
                     = Some ("@" ++ user)).
  { unfold medium_profile.
    change (after_http ("https://medium.com/@" ++ user))
      with (Some ("medium.com/@" ++ user)).
    cbv iota beta.
    change (strip_prefix "medium.com/@" ("medium.com/@" ++ user)) with (Some user).
    cbv iota beta.
    rewrite (take_while_all host_char user Huser).
    destruct user; [contradiction | reflexivity]. }
  rewrite Hprofile. reflexivity.
Qed.

Lemma fetch_sent_bound (url : string) (hdrs : option headers) (w : client) :
  (sent w <= sent (snd (fetch_with_backoff url hdrs w)) <= sent w + 3)%nat
  /\ failed_domains w ⊆ failed_domains (snd (fetch_with_backoff url hdrs w)).
Proof.
  unfold Fetcher.fetch_with_backoff.
  destruct (_get_domain url) as [domain | err].
  - destruct (bool_decide (domain ∈ failed_domains w)).
    + simpl. split; [lia | reflexivity].
    + destruct (FetchClientMore.attempts_effects url domain hdrs
                  (seq 0 MAX_RETRIES) w)
        as (tl & _ & Hsent & Hle & _ & Hfail & _).
      simpl in Hle. cbn [snd]. split; [lia | exact Hfail].
  - simpl. split; [lia | reflexivity].
Qed.

Lemma probe_bound (url : string) (paths : list string) (w : client) :
  let r := fst (probe url paths w) in
  let w' := snd (probe url paths w) in
  (sent w <= sent w' <= sent w + 3 * length paths)%nat
  /\ failed_domains w ⊆ failed_domains w'
  /\ forall f, r = Done (Some f) -> exists path, In path paths /\ f = url ++ path.
Proof.
  revert w. induction paths as [| path rest IH]; intros w.
  - simpl. split; [lia |]. split; [reflexivity | discriminate].
  - cbn [Fetcher.probe].
    destruct (fetch_sent_bound (url ++ path) None w) as [Hsent Hfail].
    assert (Hnext : forall w1,
              (sent w <= sent w1 <= sent w + 3)%nat ->
              failed_domains w ⊆ failed_domains w1 ->
              let r := fst (probe url rest w1) in
              let w' := snd (probe url rest w1) in
              (sent w <= sent w' <= sent w + 3 * length (path :: rest))%nat
              /\ failed_domains w ⊆ failed_domains w'
              /\ forall f, r = Done (Some f) ->
                   exists path0, In path0 (path :: rest) /\ f = url ++ path0).
    { intros w1 Hs1 Hf1. destruct (IH w1) as (Hs & Hf & Hr). simpl.
      split; [lia |]. split; [etransitivity; eassumption |].
      intros f Hf0. destruct (Hr f Hf0) as (path0 & Hin & ->).
      exists path0. split; [right; exact Hin | reflexivity]. }
    destruct (fetch_with_backoff (url ++ path) None w) as [[[p |] | err] w1];
      cbn [fst snd] in Hsent, Hfail.
    + assert (Hfound :
                (sent w <= sent w1 <= sent w + 3 * length (path :: rest))%nat
                /\ failed_domains w ⊆ failed_domains w1
                /\ forall f, @Done (option string) (Some (url ++ path)) = Done (Some f) ->
                     exists path0, In path0 (path :: rest) /\ f = url ++ path0).
      { simpl. split; [lia |]. split; [exact Hfail |].
        intros f [= <-]. exists path. split; [left; reflexivity | reflexivity]. }
      destruct (status_code p =? 200); [| apply Hnext; assumption].
      destruct (existsb _ ["xml"; "rss"; "atom"]); [exact Hfound |].
      destruct (feedparser_entries (text p));
        [apply Hnext; assumption | exact Hfound].
    + apply Hnext; assumption.
    + cbn [fst snd]. simpl. split; [lia |]. split; [exact Hfail | discriminate].
Qed.

(** Probing a site for its feed sends at most thirty requests and only adds
    to the failed set.  When the origin page cannot be fetched no path is
    probed and the result is none.  A feed that is found is either the link
    the origin page advertises or the origin followed by one of the nine
    conventional paths. *)
Theorem site_discovery_is_bounded (url : string) (w : client) :
  let r := fst (_discover_site_feed url w) in
  let w' := snd (_discover_site_feed url w) in
  (sent w <= sent w' <= sent w + 30)%nat
  /\ failed_domains w ⊆ failed_domains w'
  /\ (fst (fetch_with_backoff url None w) = Done None ->
      r = Done None /\ w' = snd (fetch_with_backoff url None w))
  /\ forall f,
       r = Done (Some f) ->
       (exists resp,
          fst (fetch_with_backoff url None w) = Done (Some resp)
          /\ first_feed_link url (soup_alternate_links (text resp)) = Some f)
       \/ exists path, In path probe_paths /\ f = url ++ path.
Proof.
  unfold Fetcher._discover_site_feed.
  destruct (fetch_sent_bound url None w) as [Hsent Hfail].
  destruct (fetch_with_backoff url None w) as [[[resp |] | err] w1];
    cbn [fst snd] in Hsent, Hfail |- *.
  - destruct (first_feed_link url (soup_alternate_links (text resp)))
      as [href |] eqn:Hlink.
    + cbn [fst snd]. split; [lia |]. split; [exact Hfail |].
      split; [discriminate |].
      intros f [= <-]. left. exists resp. split; [reflexivity | exact Hlink].
    + destruct (probe_bound url probe_paths w1) as (Hs & Hf & Hr).
      change (length probe_paths) with 9%nat in Hs.
      split; [lia |]. split; [etransitivity; eassumption |].
      split; [discriminate |].
      intros f Hf0. right. exact (Hr f Hf0).
  - split; [lia |]. split; [exact Hfail |]. split; [auto | discriminate].
  - split; [lia |]. split; [exact Hfail |]. split; discriminate.
Qed.

End WithLibraries.

Import Fixtures.

Lemma fetch_feed_appends_what_it_counts_witness :
  exists new,
    Db.items (snd (fst (Fetcher.fetch_feed ip_address 8000 digest get_text
                          two_entries 1 "https://example.com/feed.xml" (clock 0)
                          registered (fresh_client feed_served))))
    = (Db.items registered ++ new)%list
    /\ length new = 1%nat
    /\ Forall (Observations.fresh_item 8000 digest 1 (clock 0)) new
    /\ map Db.src_id
         (Db.sources (snd (fst (Fetcher.fetch_feed ip_address 8000 digest get_text
                                  two_entries 1 "https://example.com/feed.xml"
                                  (clock 0) registered (fresh_client feed_served)))))
       = map Db.src_id (Db.sources registered).
Proof.
  apply (fetch_feed_appends_what_it_counts ip_address 8000 digest get_text
           two_entries 1 "https://example.com/feed.xml" (clock 0) registered _
           (fresh_client feed_served)
           (snd (Fetcher.fetch_feed ip_address 8000 digest get_text two_entries 1
                   "https://example.com/feed.xml" (clock 0) registered
                   (fresh_client feed_served)))).
  vm_compute. reflexivity.
Defined.

Lemma validators_round_trip_witness :
  let d1 :=
    snd (fst (Fetcher.fetch_feed ip_address 8000 digest get_text two_entries 1
                "https://example.com/feed.xml" (clock 0) registered
                (fresh_client validating_server))) in
  exists w2',
    Fetcher.fetch_feed ip_address 8000 digest get_text two_entries 1
      "https://example.com/feed.xml" (clock 1) d1 (fresh_client validating_server)
    = (Done 0%nat, d1, w2').
Proof.
  intros d1.
  destruct (validators_round_trip ip_address 8000 digest get_text two_entries 1
              "https://example.com/feed.xml" (clock 0) (clock 1) registered
              (fresh_client validating_server) (fresh_client validating_server)
              registered_row
              (Response 200 (Some "application/rss+xml") (Some "v1")
                 (Some "Thu, 15 Jan 2026 09:30:00 GMT") "<rss/>")
              (snd (Fetcher.fetch_with_backoff ip_address
                      "https://example.com/feed.xml" (Some [])
                      (fresh_client validating_server)))
              "v1" "Thu, 15 Jan 2026 09:30:00 GMT")
    as [_ Hnext]; try reflexivity; try discriminate.
  eexists. apply (Hnext (Response 304 None None None EmptyString)); reflexivity.
Defined.

Lemma fetcher_run_reports_what_it_appended_witness :
  fst (fst (Fetcher.main ip_address 8000 digest get_text no_links two_entries
              [example_source] clock Db.empty (fresh_client feed_served)))
  = Done 1%nat
  /\ exists new,
       Db.items ingested = new
       /\ Forall (ingested_item 8000 digest) new
       /\ 1%nat = length new.
Proof.
  destruct (fetcher_run_reports_what_it_appended ip_address 8000 digest get_text
              no_links two_entries [example_source] clock Db.empty
              (fresh_client feed_served)) as (new & Hitems & Hnew & Hcount).
  split; [reflexivity |]. exists new.
  split; [exact Hitems |]. split; [exact Hnew |]. apply Hcount. reflexivity.
Defined.

Lemma extracted_text_is_collapsed_and_capped_witness :
  Z.of_nat (String.length (extract_text_from_html 5 get_text "<p>Hello</p>")) <= 5.
Proof.
  apply (proj1 (extracted_text_is_collapsed_and_capped 5 get_text)). lia.
Defined.

Lemma substack_feed_ignores_trailing_slashes_witness :
  Fetcher.discover_feed_url ip_address no_links two_entries
    (SourceCfg "Letters" "https://letters.substack.com//" (Some (YStr "substack"))
       None (Some EmptyString))
    (fresh_client timeouts)
  = (Done (Some "https://letters.substack.com/feed"), fresh_client timeouts).
Proof.
  apply (substack_feed_ignores_trailing_slashes ip_address no_links two_entries
           "Letters" "https://letters.substack.com" "//" None (Some EmptyString)
           (fresh_client timeouts)).
  - intros (u & Hu & _). discriminate.
  - intros (u & [= <-] & Hne). contradiction.
  - reflexivity.
Defined.

Lemma medium_profile_feed_any_slashes_witness :
  Fetcher.discover_feed_url ip_address no_links two_entries
    (SourceCfg "Writer" "https://medium.com/@some.writer/" (Some (YStr "medium"))
       None None)
    (fresh_client timeouts)
  = (Done (Some "https://medium.com/feed/@some.writer"), fresh_client timeouts).
Proof.
  apply (medium_profile_feed_any_slashes ip_address no_links two_entries "Writer"
           "some.writer" "/" None None (fresh_client timeouts)).
  - intros (u & Hu & _). discriminate.
  - intros (u & Hu & _). discriminate.
  - discriminate.
  - reflexivity.
  - reflexivity.
Defined.

Lemma site_discovery_is_bounded_witness :
  fst (Fetcher._discover_site_feed ip_address no_links two_entries
         "https://example.com" (fresh_client timeouts)) = Done None
  /\ snd (Fetcher._discover_site_feed ip_address no_links two_entries
            "https://example.com" (fresh_client timeouts))
     = snd (Fetcher.fetch_with_backoff ip_address "https://example.com" None
              (fresh_client timeouts)).
Proof.
  destruct (site_discovery_is_bounded ip_address no_links two_entries
              "https://example.com" (fresh_client timeouts)) as (_ & _ & Hfail & _).
  apply Hfail. reflexivity.
Defined.

End IngestMore.

(** * Further properties of the store *)

Module StoreMore.

Import Json Spec Observations.

Lemma same_id_same_row (l : list Db.item_row) (a b : Db.item_row) :
  List.NoDup (map Db.id l) -> In a l -> In b l -> Db.id a = Db.id b -> a = b.
Proof.
  induction l as [| x l IH]; [intros _ [] |].
  change (map Db.id (x :: l)) with (Db.id x :: map Db.id l).
  intros Hnd Ha Hb Hid. apply List.NoDup_cons_iff in Hnd as [Hfresh Hnd].
  destruct Ha as [-> | Ha], Hb as [-> | Hb].
  - reflexivity.
  - exfalso. apply Hfresh. rewrite Hid. apply in_map. exact Hb.
  - exfalso. apply Hfresh. rewrite <- Hid. apply in_map. exact Ha.
  - exact (IH Hnd Ha Hb Hid).
Qed.

Lemma In_take {A : Type} (x : A) (n : nat) (l : list A) :
  In x (firstn n l) -> In x l.
Proof.
  revert n. induction l as [| y l IH]; intros [| n]; simpl; try tauto.
  intros [-> | Hin]; [left; reflexivity | right; exact (IH n Hin)].
Qed.

(** *** The selection of the summarizer *)

Lemma leb_trans (a b c : string) :
  String.leb a b = true -> String.leb b c = true -> String.leb a c = true.
Proof.
  intros Hab Hbc. apply Is_true_true.
  apply Is_true_true in Hab, Hbc.
  exact (@transitivity _ String.le _ a b c Hab Hbc).
Qed.

Lemma published_before_total (a b : Db.item_row) :
  Db.published_before a b = false -> Db.published_before b a = true.
Proof.
  unfold Db.published_before.
  destruct (Db.published_at a) as [x |], (Db.published_at b) as [y |];
    try discriminate; try reflexivity.
  intros H. destruct (String.leb_total x y) as [Hxy | Hyx]; [exact Hxy | congruence].
Qed.

Lemma published_before_trans (a b c : Db.item_row) :
  Db.published_before a b = true -> Db.published_before b c = true ->
  Db.published_before a c = true.
Proof.
  unfold Db.published_before.
  destruct (Db.published_at a) as [x |], (Db.published_at b) as [y |],
    (Db.published_at c) as [z |]; try discriminate; try reflexivity.
  intros Hyx Hzy. exact (leb_trans z y x Hzy Hyx).
Qed.

Lemma insert_sorted_in (r x : Db.item_row) (l : list Db.item_row) :
  In x (Db.insert_sorted r l) -> x = r \/ In x l.
Proof.
  intros Hin.
  apply (Permutation_in _ (SummarizerFacts.insert_sorted_perm r l)) in Hin.
  destruct Hin as [<- | Hin]; auto.
Qed.

Lemma insert_sorted_sorted (r : Db.item_row) (l : list Db.item_row) :
  StronglySorted listed_before l ->
  StronglySorted listed_before (Db.insert_sorted r l).
Proof.
  induction l as [| x l IH]; intros Hsorted; simpl.
  - apply SSorted_cons; [apply SSorted_nil | apply List.Forall_nil].
  - apply StronglySorted_inv in Hsorted as [Hl Hx].
    destruct (Db.published_before r x) eqn:Hrx.
    + apply SSorted_cons; [apply SSorted_cons; assumption |].
      apply List.Forall_cons; [exact Hrx |].
      eapply List.Forall_impl; [| exact Hx].
      intros y Hy. exact (published_before_trans r x y Hrx Hy).
    + apply SSorted_cons; [apply IH; exact Hl |].
      apply List.Forall_forall. intros y Hy.
      apply insert_sorted_in in Hy as [-> | Hy].
      * exact (published_before_total r x Hrx).
      * rewrite List.Forall_forall in Hx. exact (Hx y Hy).
Qed.

Lemma order_by_published_desc_sorted (l : list Db.item_row) :
  StronglySorted listed_before (Db.order_by_published_desc l).
Proof.
  unfold Db.order_by_published_desc.
  induction l as [| r l IH]; simpl; [apply SSorted_nil |].
  apply insert_sorted_sorted. exact IH.
Qed.

Lemma firstn_sorted {A : Type} (R : A -> A -> Prop) (n : nat) (l : list A) :
  StronglySorted R l -> StronglySorted R (firstn n l).
Proof.
  revert n. induction l as [| x l IH]; intros [| n] Hsorted;
    try apply SSorted_nil.
  change (firstn (S n) (x :: l)) with (x :: firstn n l).
  apply StronglySorted_inv in Hsorted as [Hl Hx].
  apply SSorted_cons; [apply IH; exact Hl |].
  apply List.Forall_forall. intros y Hy.
  rewrite List.Forall_forall in Hx. apply Hx.
  exact (In_take _ _ _ Hy).
Qed.

(** The rows the summarizer selects are rows of the table with status [new]
    and a date that is unknown or not before the cutoff; they come newest
    first with the undated ones last; a cap that is not negative bounds
    their number, and a negative cap bounds nothing. *)
Theorem selection_is_eligible_ordered_and_capped
        (cutoff : string) (cap : Z) (d : Db.db) :
  let rows := Db.select_new_items cutoff cap d in
  (forall row, In row rows -> In row (Db.items d) /\ eligible cutoff row)
  /\ StronglySorted listed_before rows
  /\ (0 <= cap -> Z.of_nat (length rows) <= cap)
  /\ (cap < 0 ->
      forall r, In r (Db.items d) -> eligible cutoff r -> In r rows).
Proof.
  unfold Db.select_new_items.
  set (q := fun r : Db.item_row =>
              String.eqb (Db.status r) "new"
              && (Db.text_ge (Db.published_at r) cutoff
                  || Db.is_null (Db.published_at r))).
  assert (Hq : forall r, q r = true <-> eligible cutoff r).
  { intros r. unfold q, eligible, Db.text_ge, Db.is_null.
    rewrite andb_true_iff, String.eqb_eq.
    destruct (Db.published_at r) as [date |].
    - rewrite orb_false_r. tauto.
    - rewrite orb_true_r. tauto. }
  set (sorted := Db.order_by_published_desc (List.filter q (Db.items d))).
  assert (Hin : forall row, In row sorted <-> In row (Db.items d) /\ eligible cutoff row).
  { intros row. subst sorted. rewrite <- Hq, <- filter_In. split.
    - apply Permutation_in. apply SummarizerFacts.order_by_published_desc_perm.
    - apply Permutation_in. symmetry.
      apply SummarizerFacts.order_by_published_desc_perm. }
  assert (Hsorted : StronglySorted listed_before sorted)
    by apply order_by_published_desc_sorted.
  unfold Db.limit. destruct (cap <? 0) eqn:Hcap.
  - split; [intros row Hrow; apply Hin; exact Hrow |].
    split; [exact Hsorted |]. split; [lia |].
    intros _ r Hr He. apply Hin. split; assumption.
  - split.
    + intros row Hrow. apply Hin. exact (In_take _ _ _ Hrow).
    + split; [apply firstn_sorted; exact Hsorted |].
      split; [| lia]. intros _.
      pose proof (firstn_le_length (Z.to_nat cap) sorted). lia.
Qed.

(** *** The sweep before the selection *)

Lemma not_lt_ge (a b : string) : String.ltb a b = false -> String.leb b a = true.
Proof.
  unfold String.ltb, String.leb. rewrite (String.compare_antisym b a).
  destruct (String.compare a b); simpl; congruence.
Qed.

(** The sweep changes nothing but the status of the [new] items dated
    before the cutoff, which become [skipped]; the count it reports is the
    number of items that became [skipped]; and every item that is still
    [new] afterwards is eligible for selection. *)
Theorem sweep_leaves_only_eligible_new_items (cutoff : string) (d : Db.db) :
  let n := fst (Db.sweep_before cutoff d) in
  let d' := snd (Db.sweep_before cutoff d) in
  Db.sources d' = Db.sources d
  /\ (forall r, In r (Db.items d) ->
        Db.status r <> "new" \/ Db.text_lt (Db.published_at r) cutoff = false ->
        In r (Db.items d'))
  /\ (forall r', In r' (Db.items d') ->
        In r' (Db.items d)
        \/ exists r, In r (Db.items d) /\ Db.status r = "new"
                     /\ r' = Db.set_status "skipped" r)
  /\ (forall r', In r' (Db.items d') -> Db.status r' = "new" -> eligible cutoff r')
  /\ length (List.filter is_skipped (Db.items d'))
     = (length (List.filter is_skipped (Db.items d)) + n)%nat.
Proof.
  unfold Db.sweep_before. cbn [fst snd].
  set (sel := fun r : Db.item_row =>
                String.eqb (Db.status r) "new"
                && Db.text_lt (Db.published_at r) cutoff).
  split; [reflexivity |]. split; [| split; [| split]].
  - intros r Hin Hkeep. simpl. apply in_map_iff. exists r. split; [| exact Hin].
    assert (Hsel : sel r = false).
    { unfold sel. destruct Hkeep as [Hst | Hdate].
      - apply andb_false_iff. left. apply String.eqb_neq. exact Hst.
      - rewrite Hdate. apply andb_false_r. }
    rewrite Hsel. reflexivity.
  - intros r' Hin. simpl in Hin. apply in_map_iff in Hin as (r & <- & Hin).
    destruct (sel r) eqn:Hsel; [right | left; exact Hin].
    exists r. split; [exact Hin |]. split; [| reflexivity].
    unfold sel in Hsel. apply andb_true_iff in Hsel as [Hst _].
    apply String.eqb_eq. exact Hst.
  - intros r' Hin Hnew. simpl in Hin. apply in_map_iff in Hin as (r & <- & Hin).
    destruct (sel r) eqn:Hsel; [discriminate |].
    split; [exact Hnew |].
    unfold sel in Hsel. rewrite Hnew in Hsel. simpl in Hsel.
    unfold Db.text_lt in Hsel.
    destruct (Db.published_at r) as [date |]; [| exact I].
    apply not_lt_ge. exact Hsel.
  - simpl. induction (Db.items d) as [| r l IH]; [reflexivity |].
    cbn [map List.filter].
    destruct (sel r) eqn:Hsel.
    + unfold sel in Hsel. apply andb_true_iff in Hsel as [Hst _].
      apply String.eqb_eq in Hst.
      assert (Hr : is_skipped r = false) by (unfold is_skipped; rewrite Hst; reflexivity).
      rewrite Hr. change (is_skipped (Db.set_status "skipped" r)) with true.
      cbn [length]. rewrite IH. lia.
    + destruct (is_skipped r); cbn [length]; rewrite IH; lia.
Qed.

(** *** Terminal statuses *)

Lemma selected_rows_are_new (cutoff : string) (cap : Z) (d : Db.db)
      (row : Db.item_row) :
  In row (Db.select_new_items cutoff cap d) ->
  In row (Db.items d) /\ Db.status row = "new".
Proof.
  unfold Db.select_new_items, Db.limit. intros Hin.
  assert (Hsorted : In row (Db.order_by_published_desc
            (List.filter
               (fun r => String.eqb (Db.status r) "new"
                         && (Db.text_ge (Db.published_at r) cutoff
                             || Db.is_null (Db.published_at r)))
               (Db.items d))))
    by (destruct (cap <? 0); [exact Hin | exact (In_take _ _ _ Hin)]).
  apply (Permutation_in _ (SummarizerFacts.order_by_published_desc_perm _)) in Hsorted.
  apply filter_In in Hsorted as [Hitem Hq].
  apply andb_true_iff in Hq as [Hnew _]. apply String.eqb_eq in Hnew. tauto.
Qed.

Lemma sweep_keeps_terminal (cutoff : string) (d : Db.db) (r : Db.item_row) :
  In r (Db.items d) -> Db.status r <> "new" ->
  In r (Db.items (snd (Db.sweep_before cutoff d))).
Proof.
  intros Hin Hterminal. simpl. apply in_map_iff. exists r. split; [| exact Hin].
  replace (String.eqb (Db.status r) "new") with false
    by (symmetry; apply String.eqb_neq; exact Hterminal).
  reflexivity.
Qed.

Section WithEnvironment.

Variable env : Summarizer.environ.
Variable MAX_NEW_ITEMS_PER_RUN : Z.
Variable SUMMARY_SYSTEM_PROMPT : string.
Variable json_loads : string -> loads_outcome.
Variable json_dumps : value -> string.

Abbreviation process_row :=
  (Summarizer.process_row env SUMMARY_SYSTEM_PROMPT json_loads json_dumps).
Abbreviation process_rows :=
  (Summarizer.process_rows env SUMMARY_SYSTEM_PROMPT json_loads json_dumps).
Abbreviation main :=
  (Summarizer.main env MAX_NEW_ITEMS_PER_RUN SUMMARY_SYSTEM_PROMPT json_loads
                   json_dumps).

Lemma process_row_keeps_other (provider : string) (row : Db.item_row)
      (p : Summarizer.progress) (r : Db.item_row) :
  Db.id r <> Db.id row ->
  In r (Db.items (Summarizer.conn p)) ->
  In r (Db.items (Summarizer.conn (process_row provider row p))).
Proof.
  intros Hne Hin.
  assert (Hmap : forall f,
            In r (map (fun x : Db.item_row => if Db.id x =? Db.id row then f x else x)
                      (Db.items (Summarizer.conn p)))).
  { intros f. apply in_map_iff. exists r. split; [| exact Hin].
    replace (Db.id r =? Db.id row) with false by lia. reflexivity. }
  destruct (SummarizerFacts.process_row_items env SUMMARY_SYSTEM_PROMPT json_loads
              json_dumps provider row p)
    as [-> | [[_ ->] | (_ & text & summary & model & _ & ->)]].
  - exact Hin.
  - apply Hmap.
  - apply Hmap.
Qed.

Lemma process_rows_keeps_other (provider : string) (rows : list Db.item_row)
      (p : Summarizer.progress) (r : Db.item_row) :
  (forall row, In row rows -> Db.id r <> Db.id row) ->
  In r (Db.items (Summarizer.conn p)) ->
  In r (Db.items (Summarizer.conn (process_rows provider rows p))).
Proof.
  unfold Summarizer.process_rows. revert p.
  induction rows as [| row rows IH]; intros p Hother Hin; [exact Hin |].
  simpl. apply IH.
  - intros row0 H0. apply Hother. right. exact H0.
  - apply process_row_keeps_other; [| exact Hin]. apply Hother. left. reflexivity.
Qed.

(** When the ids are distinct, an item that is [summarized] or [skipped]
    before a run of the summarizer is in the store unchanged after it. *)
Theorem terminal_status_is_final (d : Db.db) (w : Summarizer.llm) (r : Db.item_row) :
  List.NoDup (map Db.id (Db.items d)) ->
  In r (Db.items d) ->
  Db.status r <> "new" ->
  In r (Db.items (Summarizer.conn (snd (main d w)))).
Proof.
  intros Hids Hin Hterminal.
  pose proof (sweep_keeps_terminal Summarizer.CUTOFF d r Hin Hterminal) as Hkeep.
  assert (Hids' : List.NoDup (map Db.id (Db.items (snd (Db.sweep_before Summarizer.CUTOFF d))))).
  { simpl. rewrite PipelineFacts.map_update_items; [exact Hids | reflexivity]. }
  pose proof (selected_rows_are_new Summarizer.CUTOFF MAX_NEW_ITEMS_PER_RUN
                (snd (Db.sweep_before Summarizer.CUTOFF d))) as Hrows.
  unfold Summarizer.main.
  destruct (Db.sweep_before Summarizer.CUTOFF d) as [n d'].
  cbn [fst snd] in *.
  destruct (Db.select_new_items Summarizer.CUTOFF MAX_NEW_ITEMS_PER_RUN d')
    as [| row0 rows] eqn:Hsel; [exact Hkeep |].
  destruct (Summarizer.get_llm_client env) as [provider | err]; [| exact Hkeep].
  cbn [snd]. apply process_rows_keeps_other; [| exact Hkeep].
  intros row Hrow Hid.
  destruct (Hrows row Hrow) as [Hrow_in Hnew].
  assert (r = row) by exact (same_id_same_row _ r row Hids' Hkeep Hrow_in Hid).
  subst row. contradiction.
Qed.

End WithEnvironment.

(** *** The source table *)

Lemma upsert_source_consistent (source : Fetcher.source_cfg) (fu : option string)
      (d : Db.db) :
  sources_consistent (Db.sources d) ->
  sources_consistent (Db.sources (snd (Fetcher.upsert_source source fu d))).
Proof.
  intros Hd. pose proof Hd as (Hurls & Hids & Hactive).
  unfold Fetcher.upsert_source.
  destruct (Db.select_source_by_url (Fetcher.cfg_url source) d) as [row |] eqn:Hfind;
    destruct (Fetcher.source_type source) as [| ty]; try exact Hd.
  - unfold sources_consistent. simpl. split; [| split].
    + rewrite map_map.
      erewrite map_ext; [exact Hurls |].
      intros r. destruct (Db.src_id r =? Db.src_id row); reflexivity.
    + rewrite map_map.
      erewrite map_ext; [exact Hids |].
      intros r. destruct (Db.src_id r =? Db.src_id row); reflexivity.
    + apply List.Forall_forall. intros r' Hin.
      apply in_map_iff in Hin as (r & <- & Hin).
      destruct (Db.src_id r =? Db.src_id row).
      * unfold active_agrees. reflexivity.
      * rewrite List.Forall_forall in Hactive. exact (Hactive r Hin).
  - unfold sources_consistent. simpl. rewrite !map_app. simpl. split; [| split].
    + apply PipelineFacts.NoDup_snoc; [exact Hurls |].
      intros Hin. apply in_map_iff in Hin as (r & Hr & Hin).
      pose proof (find_none _ _ Hfind r Hin) as Hno. simpl in Hno.
      apply String.eqb_neq in Hno. contradiction.
    + apply PipelineFacts.NoDup_snoc; [exact Hids |].
      apply PipelineFacts.next_rowid_fresh.
    + apply Forall_app. split; [exact Hactive |].
      apply List.Forall_cons; [| apply List.Forall_nil].
      unfold active_agrees. reflexivity.
Qed.

Lemma validators_consistent (et lm : option string) (now : string) (sid : Z)
      (d : Db.db) :
  sources_consistent (Db.sources d) ->
  sources_consistent (Db.sources (Db.update_source_validators et lm now sid d)).
Proof.
  intros (Hurls & Hids & Hactive). unfold sources_consistent. simpl.
  split; [| split].
  - rewrite map_map. erewrite map_ext; [exact Hurls |].
    intros r. destruct (Db.src_id r =? sid); reflexivity.
  - rewrite map_map. erewrite map_ext; [exact Hids |].
    intros r. destruct (Db.src_id r =? sid); reflexivity.
  - apply List.Forall_forall. intros r' Hin.
    apply in_map_iff in Hin as (r & <- & Hin).
    rewrite List.Forall_forall in Hactive. specialize (Hactive r Hin).
    destruct (Db.src_id r =? sid); exact Hactive.
Qed.

Section WithLibraries.

Variable ip_address : string -> option UrlParse.ip_version.
Variable sha256_hexdigest : string -> string.
Variable soup_get_text : string -> string.
Variable soup_alternate_links : string -> list Fetcher.link_tag.
Variable feedparser_entries : string -> list Fetcher.entry.
Variable json_loads : string -> loads_outcome.
Variable json_dumps : value -> string.

Abbreviation reachable :=
  (Pipeline.reachable ip_address sha256_hexdigest soup_get_text
                      soup_alternate_links feedparser_entries json_loads
                      json_dumps).

Lemma fetch_feed_consistent (max_chars source_id : Z) (feed_url now : string)
      (d : Db.db) (w : Fetcher.client) :
  sources_consistent (Db.sources d) ->
  sources_consistent
    (Db.sources (snd (fst (Fetcher.fetch_feed ip_address max_chars
                             sha256_hexdigest soup_get_text feedparser_entries
                             source_id feed_url now d w)))).
Proof.
  intros Hd. unfold Fetcher.fetch_feed.
  destruct (Db.select_source source_id d) as [row |]; [| exact Hd].
  destruct (Fetcher.fetch_with_backoff ip_address feed_url _ w)
    as [[[resp |] | err] w1]; [| exact Hd | exact Hd].
  destruct (Fetcher.status_code resp =? 304); [exact Hd |].
  destruct (feedparser_entries (Fetcher.text resp)) as [| e es].
  - apply validators_consistent. exact Hd.
  - match goal with
    | |- context [Fetcher.ingest_entries _ _ _ _ source_id now (e :: es) 0 ?dv w1] =>
        destruct (IngestMore.ingest_entries_appends ip_address max_chars
                    sha256_hexdigest soup_get_text source_id now (e :: es) 0 dv w1)
          as (new & _ & Hsources & _)
    end.
    rewrite Hsources. apply validators_consistent. exact Hd.
Qed.

Lemma run_sources_consistent (max_chars : Z) (sources : list Fetcher.source_cfg)
      (clock : nat -> string) (i total : nat) (d : Db.db) (w : Fetcher.client) :
  sources_consistent (Db.sources d) ->
  sources_consistent
    (Db.sources (snd (fst (Fetcher.run_sources ip_address max_chars
                             sha256_hexdigest soup_get_text soup_alternate_links
                             feedparser_entries sources clock i total d w)))).
Proof.
  revert i total d w.
  induction sources as [| source rest IH]; intros i total d w Hd; [exact Hd |].
  simpl.
  destruct (Fetcher.discover_feed_url ip_address soup_alternate_links
              feedparser_entries source w) as [[found | err] w1]; [| exact Hd].
  pose proof (upsert_source_consistent source found d Hd) as Hfound.
  pose proof (upsert_source_consistent source None d Hd) as Hnone.
  destruct (Py.truthy_opt found).
  - destruct (Fetcher.upsert_source source found d) as [[sid | err] d1];
      cbn [snd] in Hfound; [| exact Hd].
    pose proof (fetch_feed_consistent max_chars sid (default EmptyString found)
                  (clock i) d1 w1 Hfound) as Hfeed.
    destruct (Fetcher.fetch_feed ip_address max_chars sha256_hexdigest
                soup_get_text feedparser_entries sid (default EmptyString found)
                (clock i) d1 w1)
      as [[[n | err] d2] w2]; [apply IH; exact Hfeed | exact Hfound].
  - destruct (Fetcher.upsert_source source None d) as [[sid | err] d1];
      cbn [snd] in Hnone; [| exact Hd].
    apply IH. exact Hnone.
Qed.

Lemma process_rows_keeps_sources (env : Summarizer.environ) (prompt provider : string)
      (rows : list Db.item_row) (p : Summarizer.progress) :
  Db.sources (Summarizer.conn
                (Summarizer.process_rows env prompt json_loads json_dumps
                                         provider rows p))
  = Db.sources (Summarizer.conn p).
Proof.
  unfold Summarizer.process_rows. revert p.
  induction rows as [| r rows IH]; intros p; [reflexivity |].
  simpl. rewrite IH.
  destruct (SummarizerFacts.process_row_items env prompt json_loads json_dumps
              provider r p)
    as [-> | [[_ ->] | (_ & text & summary & model & _ & ->)]]; reflexivity.
Qed.

Lemma summarizer_keeps_sources (env : Summarizer.environ) (cap : Z)
      (prompt : string) (d : Db.db) (w : Summarizer.llm) :
  Db.sources (Summarizer.conn
                (snd (Summarizer.main env cap prompt json_loads json_dumps d w)))
  = Db.sources d.
Proof.
  unfold Summarizer.main.
  destruct (Db.sweep_before Summarizer.CUTOFF d) as [n d'] eqn:Hsweep.
  assert (Hd' : Db.sources d' = Db.sources d)
    by (unfold Db.sweep_before in Hsweep; injection Hsweep as _ <-; reflexivity).
  destruct (Db.select_new_items Summarizer.CUTOFF cap d') as [| row rows];
    [exact Hd' |].
  destruct (Summarizer.get_llm_client env) as [provider | err]; [| exact Hd'].
  cbn [snd]. rewrite process_rows_keeps_sources. exact Hd'.
Qed.

(** In every reachable store the source rows have pairwise distinct origin
    URLs and ids, and a row is active exactly when it has a feed URL. *)
Theorem source_rows_stay_consistent (d : Db.db) :
  reachable d -> sources_consistent (Db.sources d).
Proof.
  intros Hreach.
  induction Hreach as [| ? ? ? ? d w _ IH | ? ? ? d w _ IH | ? ? ? d w _ IH].
  - split; [apply List.NoDup_nil |]. split; [apply List.NoDup_nil | apply List.Forall_nil].
  - apply fetch_feed_consistent. exact IH.
  - unfold Fetcher.main. apply run_sources_consistent. exact IH.
  - rewrite summarizer_keeps_sources. exact IH.
Qed.

(** In every reachable store each item has one of the three statuses, and
    an item that is still [new] has neither a summary nor a model recorded. *)
Theorem items_have_known_status (d : Db.db) :
  reachable d ->
  Forall known_status (Db.items d)
  /\ Forall (fun r => Db.status r = "new" ->
                      Db.summary_json r = None /\ Db.model_used r = None)
            (Db.items d).
Proof.
  intros Hreach. apply Forall_and.
  revert d Hreach.
  apply (PipelineFacts.reachable_items ip_address sha256_hexdigest soup_get_text
           soup_alternate_links feedparser_entries json_loads json_dumps
           (fun l => Forall (fun r => known_status r
                                      /\ (Db.status r = "new" ->
                                          Db.summary_json r = None
                                          /\ Db.model_used r = None)) l)).
  - apply List.Forall_nil.
  - intros sid ttl u g pub now c h d0 d' Hins Hall.
    unfold Db.insert_item in Hins.
    destruct (Db.item_exists h d0); [discriminate |].
    injection Hins as <-. simpl. apply Forall_app. split; [exact Hall |].
    apply List.Forall_cons; [| apply List.Forall_nil].
    split; [left; reflexivity | intros _; split; reflexivity].
  - split.
    + intros sel l Hall. apply List.Forall_forall. intros r' Hin.
      apply in_map_iff in Hin as (r & <- & Hin).
      rewrite List.Forall_forall in Hall. specialize (Hall r Hin).
      destruct (sel r); [| exact Hall].
      split; [right; left; reflexivity | discriminate].
    + intros i text summary model l _ Hall. apply List.Forall_forall.
      intros r' Hin. apply in_map_iff in Hin as (r & <- & Hin).
      rewrite List.Forall_forall in Hall. specialize (Hall r Hin).
      destruct (Db.id r =? i); [| exact Hall].
      split; [right; right; reflexivity | discriminate].
Qed.

End WithLibraries.

Import Fixtures.

Lemma selection_is_eligible_ordered_and_capped_witness :
  eligible "2025-10-01" sample_row
  /\ Z.of_nat (length (Db.select_new_items "2025-10-01" 25 ingested)) <= 25.
Proof.
  destruct (selection_is_eligible_ordered_and_capped "2025-10-01" 25 ingested)
    as (Hrows & _ & Hcap & _).
  split.
  - apply Hrows. vm_compute. left. reflexivity.
  - apply Hcap. lia.
Defined.

Lemma sweep_leaves_only_eligible_new_items_witness :
  In sample_row (Db.items (snd (Db.sweep_before "2025-10-01" ingested)))
  /\ eligible "2025-10-01" sample_row.
Proof.
  destruct (sweep_leaves_only_eligible_new_items "2025-10-01" ingested)
    as (_ & Hkept & _ & Hnew & _).
  assert (Hin : In sample_row (Db.items (snd (Db.sweep_before "2025-10-01" ingested)))).
  { apply Hkept.
    - vm_compute. left. reflexivity.
    - right. vm_compute. reflexivity. }
  split; [exact Hin |].
  apply Hnew; [exact Hin | reflexivity].
Defined.

Lemma terminal_status_is_final_witness :
  In (Db.set_summary summary_text "claude-haiku-4-5-20251001" sample_row)
     (Db.items
        (Summarizer.conn
           (snd (Summarizer.main with_credential 25 system_prompt loads dumps
                   summarized (fresh_llm answers_summary))))).
Proof.
  apply (terminal_status_is_final with_credential 25 system_prompt loads dumps
           summarized (fresh_llm answers_summary)).
  - vm_compute. apply List.NoDup_cons; [intros [] | apply List.NoDup_nil].
  - vm_compute. left. reflexivity.
  - discriminate.
Defined.

Lemma source_rows_stay_consistent_witness :
  sources_consistent (Db.sources summarized).
Proof.
  apply (source_rows_stay_consistent ip_address digest get_text no_links two_entries
           loads dumps summarized).
  exact PipelineFacts.summarized_reachable.
Defined.

Lemma items_have_known_status_witness :
  Forall known_status (Db.items summarized)
  /\ Forall (fun r => Db.status r = "new" ->
                      Db.summary_json r = None /\ Db.model_used r = None)
            (Db.items ingested).
Proof.
  split.
  - apply (items_have_known_status ip_address digest get_text no_links two_entries
             loads dumps summarized).
    exact PipelineFacts.summarized_reachable.
  - apply (items_have_known_status ip_address digest get_text no_links two_entries
             loads dumps ingested).
    exact PipelineFacts.ingested_reachable.
Defined.

End StoreMore.

(** * Further properties of the summarization stage *)

Module SummarizerMore.

Import Json Summarizer Spec Observations.

Lemma transient_retried (o : api_outcome) :
  transient o ->
  match o with
  | Completed _ => False
  | Failed true _ => True
  | Failed false cls => retryable_sdk_error cls = true
  end.
Proof.
  destruct o as [text | [|] cls]; cbn [transient]; try tauto.
  intros (Herror & k & Hk & Hcontains). unfold retryable_sdk_error.
  rewrite Herror, andb_true_l. apply existsb_exists. exists k. split; assumption.
Qed.

Lemma unexpected_not_retried (cls : string) :
  unexpected cls -> retryable_sdk_error cls = false.
Proof.
  unfold retryable_sdk_error. intros [Herror | Hnone].
  - rewrite Herror. reflexivity.
  - apply andb_false_iff. right.
    destruct (existsb _ _) eqn:Hex; [| reflexivity].
    apply existsb_exists in Hex as (k & Hk & Hcontains).
    rewrite (Hnone k Hk) in Hcontains. discriminate.
Qed.

Section WithEnvironment.

Variable env : environ.
Variable MAX_NEW_ITEMS_PER_RUN : Z.
Variable SUMMARY_SYSTEM_PROMPT : string.
Variable json_loads : string -> loads_outcome.
Variable json_dumps : value -> string.

Abbreviation model_of := (model_of env).
Abbreviation llm_attempts := (llm_attempts env).
Abbreviation call_llm := (call_llm env).
Abbreviation _try_parse := (_try_parse json_loads).
Abbreviation parse_summary_json := (parse_summary_json json_loads).
Abbreviation summarize_item := (summarize_item env SUMMARY_SYSTEM_PROMPT json_loads).
Abbreviation process_row :=
  (process_row env SUMMARY_SYSTEM_PROMPT json_loads json_dumps).
Abbreviation process_rows :=
  (process_rows env SUMMARY_SYSTEM_PROMPT json_loads json_dumps).
Abbreviation main :=
  (main env MAX_NEW_ITEMS_PER_RUN SUMMARY_SYSTEM_PROMPT json_loads json_dumps).

Lemma llm_attempts_retry (provider system user : string) (attempt : nat)
      (rest : list nat) (w : llm) :
  transient (api w (calls w) provider (model_of provider) system user) ->
  llm_attempts provider system user (attempt :: rest) w
  = llm_attempts provider system user rest
      (backoff attempt (create provider (model_of provider) system user w)).
Proof.
  intros Htransient. apply transient_retried in Htransient. simpl.
  destruct (api w (calls w) provider (model_of provider) system user)
    as [text | [|] cls]; [contradiction | reflexivity |].
  rewrite Htransient. reflexivity.
Qed.

(** Three transient failures in a row exhaust [call_llm]: three requests
    with the same prompt, waits of 1 then 2 seconds between them, and a
    [RuntimeError]. *)
Theorem llm_retry_budget_is_three (provider system user : string) (w : llm) :
  (forall i, (i < 3)%nat ->
     transient (api w (calls w + i)%nat provider (model_of provider) system user)) ->
  exists w',
    call_llm provider system user w
    = (Raised (RuntimeError "All 3 LLM attempts failed"), w')
    /\ trace w'
       = (trace w ++
          [Create provider (model_of provider) system user MAX_OUTPUT_TOKENS;
           LogAttemptFailed 1 1; Sleep 1;
           Create provider (model_of provider) system user MAX_OUTPUT_TOKENS;
           LogAttemptFailed 2 2; Sleep 2;
           Create provider (model_of provider) system user MAX_OUTPUT_TOKENS;
           LogAttemptFailed 3 4])%list
    /\ calls w' = (calls w + 3)%nat.
Proof.
  intros Hfail. unfold Summarizer.call_llm.
  change (seq 0 MAX_RETRIES) with [0; 1; 2]%nat.
  rewrite llm_attempts_retry
    by (rewrite <- (Nat.add_0_r (calls w)); apply Hfail; lia).
  rewrite llm_attempts_retry
    by (simpl; rewrite <- (Nat.add_1_r (calls w)); apply Hfail; lia).
  rewrite llm_attempts_retry
    by (simpl; replace (S (S (calls w))) with (calls w + 2)%nat by lia;
        apply Hfail; lia).
  eexists. split; [reflexivity |]. simpl.
  split; [rewrite <- !app_assoc; reflexivity | lia].
Qed.

(** An exception that is neither an [OSError] nor a [ValueError] and whose
    class name lacks [Error] or all five markers leaves [call_llm] at once:
    one request, no wait, no retry. *)
Theorem unexpected_error_is_not_retried
        (provider system user cls : string) (w : llm) :
  api w (calls w) provider (model_of provider) system user = Failed false cls ->
  unexpected cls ->
  call_llm provider system user w
  = (Raised (SdkError cls), create provider (model_of provider) system user w).
Proof.
  intros Hout Hcls. unfold Summarizer.call_llm.
  change (seq 0 MAX_RETRIES) with [0; 1; 2]%nat.
  simpl. rewrite Hout, (unexpected_not_retried cls Hcls). reflexivity.
Qed.

(** *** Validation *)

Lemma append_nil_r (s : string) : s ++ EmptyString = s.
Proof.
  induction s as [| c s IH]; [reflexivity |].
  change (String c (s ++ EmptyString) = String c s). f_equal. exact IH.
Qed.

Lemma try_suffixes_found (text : string) (suffixes : list string)
      (data : list (string * value)) :
  try_suffixes json_loads text suffixes = Done (Some data) ->
  exists suffix, In suffix suffixes /\ _try_parse (text ++ suffix) = Done (Some data).
Proof.
  induction suffixes as [| suffix rest IH]; cbn [try_suffixes]; [discriminate |].
  destruct (_try_parse (text ++ suffix)) as [o | e] eqn:Htry; [| discriminate].
  destruct (truthy_dict o) as [data' |] eqn:Htruthy.
  - intros [= <-]. apply SummarizerFacts.truthy_dict_some in Htruthy. subst o.
    exists suffix. split; [left; reflexivity | exact Htry].
  - intros Hrest. destruct (IH Hrest) as (s & Hin & Hs).
    exists s. split; [right; exact Hin | exact Hs].
Qed.

Lemma _try_parse_complete (text : string) (data : list (string * value)) :
  json_loads text = Loaded (JDict data) ->
  (forall f, In f REQUIRED_FIELDS -> In f (keys data)) ->
  _try_parse text = Done (Some data) /\ truthy_dict (Some data) = Some data.
Proof.
  intros Hloads Hfields. unfold Summarizer._try_parse. rewrite Hloads.
  assert (Hall : forallb (fun f => existsb (String.eqb f) (keys data))
                         REQUIRED_FIELDS = true).
  { apply forallb_forall. intros f Hf. apply existsb_exists.
    exists f. split; [exact (Hfields f Hf) | apply String.eqb_refl]. }
  rewrite Hall. split; [reflexivity |].
  destruct data as [| kv data]; [| reflexivity].
  exfalso. exact (Hfields "eli5" (or_introl eq_refl)).
Qed.

Lemma _try_parse_rejects (text : string) :
  unusable json_loads text -> _try_parse text = Done None.
Proof.
  unfold unusable, Summarizer._try_parse.
  destruct (json_loads text) as [[| | | | | | data] | | cls];
    try reflexivity; [| contradiction].
  intros (f & Hf & Hmissing).
  destruct (forallb _ REQUIRED_FIELDS) eqn:Hall; [| reflexivity].
  exfalso. apply Hmissing. rewrite forallb_forall in Hall.
  specialize (Hall f Hf). apply existsb_exists in Hall as (k & Hk & Heq).
  apply String.eqb_eq in Heq. subst k. exact Hk.
Qed.

Lemma try_suffixes_rejects (text : string) (suffixes : list string) :
  (forall suffix, In suffix suffixes -> unusable json_loads (text ++ suffix)) ->
  try_suffixes json_loads text suffixes = Done None.
Proof.
  induction suffixes as [| suffix rest IH]; intros Hall; [reflexivity |].
  cbn [try_suffixes].
  rewrite (_try_parse_rejects _ (Hall suffix (or_introl eq_refl))).
  cbn [truthy_dict]. apply IH. intros s Hs. apply Hall. right. exact Hs.
Qed.

(** What [parse_summary_json] returns was read by [json.loads] from the
    response without its fences, as it is or with one of the six repair
    suffixes added, and has the six fields.  A response that parses with the
    six fields as it is needs no repair.  A response for which [json.loads]
    raises nothing but [JSONDecodeError] on these seven texts and reads none
    of them as a dict with the six fields is rejected.  An exception of
    another class that [json.loads] raises on the response as it is leaves
    [parse_summary_json]. *)
Theorem validation_accepts_only_complete_dicts :
  (forall text data,
     parse_summary_json text = Done (Some data) ->
     (forall f, In f REQUIRED_FIELDS -> In f (keys data))
     /\ exists suffix,
          In suffix (EmptyString :: repair_suffixes)
          /\ json_loads (strip_fences text ++ suffix) = Loaded (JDict data))
  /\ (forall text data,
        json_loads (strip_fences text) = Loaded (JDict data) ->
        (forall f, In f REQUIRED_FIELDS -> In f (keys data)) ->
        parse_summary_json text = Done (Some data))
  /\ (forall text,
        (forall suffix,
           In suffix (EmptyString :: repair_suffixes) ->
           unusable json_loads (strip_fences text ++ suffix)) ->
        parse_summary_json text = Done None)
  /\ (forall text cls,
        json_loads (strip_fences text) = LoadsRaised cls ->
        parse_summary_json text = Raised (LibraryError cls)).
Proof.
  split; [| split; [| split]].
  - intros text data. unfold Summarizer.parse_summary_json.
    destruct (_try_parse (strip_fences text)) as [o | e] eqn:Htry; [| discriminate].
    destruct (truthy_dict o) as [data' |] eqn:Htruthy.
    + intros [= <-]. apply SummarizerFacts.truthy_dict_some in Htruthy. subst o.
      apply SummarizerFacts._try_parse_accepts in Htry as [Hloads Hfields].
      split; [exact Hfields |].
      exists EmptyString. split; [left; reflexivity |].
      rewrite append_nil_r. exact Hloads.
    + intros Hrepair. apply try_suffixes_found in Hrepair as (suffix & Hin & Hs).
      apply SummarizerFacts._try_parse_accepts in Hs as [Hloads Hfields].
      split; [exact Hfields |].
      exists suffix. split; [right; exact Hin | exact Hloads].
  - intros text data Hloads Hfields. unfold Summarizer.parse_summary_json.
    destruct (_try_parse_complete _ _ Hloads Hfields) as [-> ->]. reflexivity.
  - intros text Hnone. unfold Summarizer.parse_summary_json.
    rewrite (_try_parse_rejects (strip_fences text)).
    + cbn [truthy_dict]. apply try_suffixes_rejects.
      intros suffix Hin. apply Hnone. right. exact Hin.
    + rewrite <- (append_nil_r (strip_fences text)).
      apply Hnone. left. reflexivity.
  - intros text cls Hraises.
    unfold Summarizer.parse_summary_json, Summarizer._try_parse.
    rewrite Hraises. reflexivity.
Qed.

(** An exception other than [JSONDecodeError] that [json.loads] raises on
    the first response ends the summarization of the item with that
    exception, in the state the first [call_llm] left: no corrective request
    is made.  The run counts one failure and writes nothing. *)
Theorem validation_error_sends_no_reprompt
        (provider : string) (row : Db.item_row) (p : progress)
        (response cls : string) (w1 : llm) :
  let content := default EmptyString (Db.content_text row) in
  Py.strip content <> EmptyString ->
  call_llm provider SUMMARY_SYSTEM_PROMPT
           (user_prompt (Db.title row) (truncate_for_input content)) (world p)
  = (Done response, w1) ->
  json_loads (strip_fences response) = LoadsRaised cls ->
  summarize_item provider (Db.title row) content (world p)
  = (Raised (LibraryError cls), w1)
  /\ conn (process_row provider row p) = conn p
  /\ error_count (process_row provider row p) = S (error_count p)
  /\ success_count (process_row provider row p) = success_count p
  /\ world (process_row provider row p)
     = emit Pause (emit (LogFailed (Db.id row)) w1)
  /\ creates (trace (world (process_row provider row p))) = creates (trace w1)
  /\ calls (world (process_row provider row p)) = calls w1.
Proof.
  intros content Hcontent Hfirst Hraises.
  assert (Hsum : summarize_item provider (Db.title row) content (world p)
                 = (Raised (LibraryError cls), w1)).
  { unfold Summarizer.summarize_item. rewrite Hfirst.
    unfold Summarizer.parse_summary_json, Summarizer._try_parse.
    rewrite Hraises. reflexivity. }
  split; [exact Hsum |].
  unfold Summarizer.process_row. fold content.
  assert (Htruthy : Py.truthy (Py.strip content) = true)
    by (destruct (Py.strip content); [contradiction | reflexivity]).
  rewrite Htruthy. cbn [negb]. rewrite Hsum. simpl.
  rewrite !SummarizerFacts.creates_app. simpl. rewrite !app_nil_r.
  repeat split.
Qed.

(** *** The input budget *)

Lemma length_append (a b : string) :
  String.length (a ++ b) = (String.length a + String.length b)%nat.
Proof.
  induction a as [| c a IH]; [reflexivity |].
  change (S (String.length (a ++ b)) = S (String.length a + String.length b)).
  f_equal. exact IH.
Qed.

Lemma take_exact_length (n : nat) (s : string) :
  (n <= String.length s)%nat -> String.length (Py.take n s) = n.
Proof.
  revert s. induction n as [| n IH]; intros [| c s]; simpl; try lia.
  intros H. rewrite IH; lia.
Qed.

Lemma take_app_exact (a b : string) :
  Py.take (String.length a) (a ++ b) = a.
Proof.
  induction a as [| c a IH]; [destruct b; reflexivity |].
  change (String c (Py.take (String.length a) (a ++ b)) = String c a).
  f_equal. exact IH.
Qed.

(** The content that goes into the prompt has at most 8012 characters, its
    first 8000 are the first 8000 of the stored content, and content of at
    most 8000 characters goes in unchanged. *)
Theorem truncation_bounds_the_prompt (text : string) :
  let budget := (MAX_INPUT_TOKENS * 4)%nat in
  Z.of_nat budget = 8000
  /\ Z.of_nat (String.length (truncate_for_input text)) <= 8012
  /\ Py.take budget (truncate_for_input text) = Py.take budget text
  /\ ((String.length text <= budget)%nat -> truncate_for_input text = text)
  /\ ((budget < String.length text)%nat ->
      truncate_for_input text = Py.take budget text ++ nl ++ "[truncated]").
Proof.
  intros budget.
  assert (Hbudget : Z.of_nat budget = 8000) by (vm_compute; reflexivity).
  split; [exact Hbudget |].
  unfold truncate_for_input. fold budget.
  destruct (budget <? String.length text)%nat eqn:Hlong.
  - apply Nat.ltb_lt in Hlong.
    assert (Hlen : String.length (Py.take budget text) = budget)
      by (apply take_exact_length; lia).
    split.
    { rewrite length_append, Hlen.
      change (String.length (nl ++ "[truncated]")) with 12%nat. lia. }
    split; [| split; [lia | reflexivity]].
    rewrite <- Hlen at 1. apply take_app_exact.
  - apply Nat.ltb_ge in Hlong.
    split; [lia |]. split; [reflexivity |]. split; [reflexivity | lia].
Qed.

(** *** The cost of a run *)

Lemma call_llm_calls (provider system user : string) (w : llm) :
  (calls w <= calls (snd (call_llm provider system user w)) <= calls w + 3)%nat.
Proof.
  unfold Summarizer.call_llm.
  destruct (SummarizerFacts.llm_attempts_requests env provider system user
              (seq 0 MAX_RETRIES) w)
    as (k & Hle & _ & _ & Hcalls & _).
  simpl in Hle. rewrite Hcalls. lia.
Qed.

Lemma summarize_item_calls (provider title content : string) (w : llm) :
  (calls w <= calls (snd (summarize_item provider title content w)) <= calls w + 6)%nat.
Proof.
  unfold Summarizer.summarize_item.
  pose proof (call_llm_calls provider SUMMARY_SYSTEM_PROMPT
                (user_prompt title (truncate_for_input content)) w) as Hfirst.
  destruct (call_llm provider SUMMARY_SYSTEM_PROMPT _ w) as [[response | err] w1];
    cbn [snd] in Hfirst |- *; [| lia].
  destruct (parse_summary_json response) as [[summary |] | err];
    cbn [snd]; [lia | | lia].
  pose proof (call_llm_calls provider "Fix this JSON." (FIX_JSON_PROMPT response)
                (emit LogInvalidJson w1)) as Hsecond.
  destruct (call_llm provider "Fix this JSON." _ _) as [[fixed | err] w2];
    cbn [snd] in Hsecond |- *; simpl in Hsecond; [| lia].
  destruct (parse_summary_json fixed) as [[summary |] | err]; cbn [snd]; lia.
Qed.

(** One iteration either skips the row without a request, or counts it as a
    success or a failure after at most six requests. *)
Lemma process_row_cost (provider : string) (row : Db.item_row) (p : progress) :
  let p' := process_row provider row p in
  exists k,
    (k <= 1)%nat
    /\ (success_count p' + error_count p' = success_count p + error_count p + k)%nat
    /\ (calls (world p) <= calls (world p') <= calls (world p) + 6 * k)%nat.
Proof.
  unfold Summarizer.process_row.
  destruct (negb (Py.truthy (Py.strip (default EmptyString (Db.content_text row))))).
  - exists 0%nat. simpl. lia.
  - pose proof (summarize_item_calls provider (Db.title row)
                  (default EmptyString (Db.content_text row)) (world p)) as Hcalls.
    destruct (summarize_item provider (Db.title row) _ (world p))
      as [[[summary model] | err] w1]; cbn [snd] in Hcalls;
      exists 1%nat; simpl; lia.
Qed.

Lemma process_rows_cost (provider : string) (rows : list Db.item_row)
      (p : progress) :
  let p' := process_rows provider rows p in
  exists k,
    (k <= length rows)%nat
    /\ (success_count p' + error_count p' = success_count p + error_count p + k)%nat
    /\ (calls (world p) <= calls (world p') <= calls (world p) + 6 * k)%nat.
Proof.
  unfold Summarizer.process_rows. revert p.
  induction rows as [| row rows IH]; intros p.
  - exists 0%nat. simpl. lia.
  - destruct (process_row_cost provider row p) as (k1 & Hk1 & Hcount1 & Hcalls1).
    destruct (IH (process_row provider row p)) as (k2 & Hk2 & Hcount2 & Hcalls2).
    exists (k1 + k2)%nat. simpl in *. lia.
Qed.

(** A run of the summarizer counts at most as many successes and failures
    as rows were selected, hence at most the cap when the cap is not
    negative, and sends at most six requests for each row it counts. *)
Theorem run_cost_is_capped (d : Db.db) (w : llm) :
  let p := snd (main d w) in
  let rows := Db.select_new_items CUTOFF MAX_NEW_ITEMS_PER_RUN
                (snd (Db.sweep_before CUTOFF d)) in
  (success_count p + error_count p <= length rows)%nat
  /\ (0 <= MAX_NEW_ITEMS_PER_RUN ->
      Z.of_nat (success_count p + error_count p) <= MAX_NEW_ITEMS_PER_RUN)
  /\ (calls w <= calls (world p)
      <= calls w + 6 * (success_count p + error_count p))%nat.
Proof.
  assert (Hcap : 0 <= MAX_NEW_ITEMS_PER_RUN ->
            Z.of_nat (length (Db.select_new_items CUTOFF MAX_NEW_ITEMS_PER_RUN
                                (snd (Db.sweep_before CUTOFF d))))
            <= MAX_NEW_ITEMS_PER_RUN).
  { intros Hnonneg. unfold Db.select_new_items, Db.limit.
    replace (MAX_NEW_ITEMS_PER_RUN <? 0) with false by lia.
    match goal with
    | |- context [firstn ?n ?l] => pose proof (firstn_le_length n l)
    end. lia. }
  unfold Summarizer.main.
  destruct (Db.sweep_before CUTOFF d) as [n d']. cbn [snd] in *.
  destruct (Db.select_new_items CUTOFF MAX_NEW_ITEMS_PER_RUN d')
    as [| row rows] eqn:Hsel.
  - simpl. repeat split; lia.
  - destruct (get_llm_client env) as [provider | err].
    + cbn [snd].
      destruct (process_rows_cost provider (row :: rows)
                  (Progress 0 0 d' w)) as (k & Hk & Hcount & Hcalls).
      cbn [success_count error_count world] in Hcount, Hcalls.
      rewrite Hcount. simpl Nat.add. repeat split; lia.
    + simpl. repeat split; lia.
Qed.

(** *** The provider of a run *)

Lemma uses_emit (provider model : string) (ev : event) (w : llm) :
  uses provider model ev ->
  Forall (uses provider model) (trace w) ->
  Forall (uses provider model) (trace (emit ev w)).
Proof.
  intros Hev Hw. simpl. apply Forall_app. split; [exact Hw |].
  apply List.Forall_cons; [exact Hev | apply List.Forall_nil].
Qed.

Lemma llm_attempts_uses (provider system user : string) (todo : list nat)
      (w : llm) :
  Forall (uses provider (model_of provider)) (trace w) ->
  Forall (uses provider (model_of provider))
         (trace (snd (llm_attempts provider system user todo w))).
Proof.
  revert w. induction todo as [| attempt rest IH]; intros w Hw; [exact Hw |].
  assert (Hcreate : Forall (uses provider (model_of provider))
            (trace (create provider (model_of provider) system user w))).
  { simpl. apply Forall_app. split; [exact Hw |].
    apply List.Forall_cons; [split; reflexivity | apply List.Forall_nil]. }
  assert (Hstep : Forall (uses provider (model_of provider))
            (trace (snd (llm_attempts provider system user rest
                           (backoff attempt
                              (create provider (model_of provider) system user w)))))).
  { apply IH. unfold backoff.
    destruct (attempt <? MAX_RETRIES - 1)%nat;
      repeat (apply uses_emit; [exact I |]); exact Hcreate. }
  simpl.
  destruct (api w (calls w) provider (model_of provider) system user)
    as [text | [|] cls]; [exact Hcreate | exact Hstep |].
  destruct (retryable_sdk_error cls); [exact Hstep | exact Hcreate].
Qed.

Lemma process_row_uses (provider : string) (row : Db.item_row) (p : progress) :
  Forall (uses provider (model_of provider)) (trace (world p)) ->
  Forall (uses provider (model_of provider))
         (trace (world (process_row provider row p))).
Proof.
  intros Hp. unfold Summarizer.process_row.
  destruct (negb (Py.truthy (Py.strip (default EmptyString (Db.content_text row))))).
  - apply uses_emit; [exact I | exact Hp].
  - assert (Hsum : Forall (uses provider (model_of provider))
              (trace (snd (summarize_item provider (Db.title row)
                             (default EmptyString (Db.content_text row))
                             (world p))))).
    { unfold Summarizer.summarize_item.
      pose proof (llm_attempts_uses provider SUMMARY_SYSTEM_PROMPT
                    (user_prompt (Db.title row)
                       (truncate_for_input
                          (default EmptyString (Db.content_text row))))
                    (seq 0 MAX_RETRIES) (world p) Hp) as Hfirst.
      fold (call_llm provider SUMMARY_SYSTEM_PROMPT
              (user_prompt (Db.title row)
                 (truncate_for_input (default EmptyString (Db.content_text row))))
              (world p)) in Hfirst.
      destruct (call_llm provider SUMMARY_SYSTEM_PROMPT _ (world p))
        as [[response | err] w1]; cbn [snd] in Hfirst |- *; [| exact Hfirst].
      destruct (parse_summary_json response) as [[summary |] | err];
        [exact Hfirst | | exact Hfirst].
      pose proof (llm_attempts_uses provider "Fix this JSON."
                    (FIX_JSON_PROMPT response) (seq 0 MAX_RETRIES)
                    (emit LogInvalidJson w1)
                    (uses_emit _ _ LogInvalidJson w1 I Hfirst)) as Hsecond.
      fold (call_llm provider "Fix this JSON." (FIX_JSON_PROMPT response)
              (emit LogInvalidJson w1)) in Hsecond.
      destruct (call_llm provider "Fix this JSON." _ _) as [[fixed | err] w2];
        cbn [snd] in Hsecond |- *; [| exact Hsecond].
      destruct (parse_summary_json fixed) as [[summary |] | err]; exact Hsecond. }
    destruct (summarize_item provider (Db.title row) _ (world p))
      as [[[summary model] | err] w1]; cbn [snd world] in Hsum |- *;
      repeat (apply uses_emit; [exact I |]); exact Hsum.
Qed.

(** The provider is chosen once: Anthropic when its key is set, else OpenAI
    when that key is set, else the run ends with a [RuntimeError] before any
    request; and every request of a run goes to the chosen provider and
    names its model. *)
Theorem one_provider_per_run (d : Db.db) (w : llm) :
  trace w = [] ->
  match get_llm_client env with
  | Done provider =>
      provider = (if Py.truthy_opt (ANTHROPIC_API_KEY env) then "anthropic"
                  else "openai")
      /\ Forall (uses provider (model_of provider))
                (trace (world (snd (main d w))))
  | Raised e =>
      Py.truthy_opt (ANTHROPIC_API_KEY env) = false
      /\ Py.truthy_opt (OPENAI_API_KEY env) = false
      /\ world (snd (main d w)) = w
      /\ (Db.select_new_items CUTOFF MAX_NEW_ITEMS_PER_RUN
            (snd (Db.sweep_before CUTOFF d)) <> [] ->
          fst (main d w) = Raised e)
  end.
Proof.
  intros Hempty. unfold Summarizer.main.
  destruct (Db.sweep_before CUTOFF d) as [n d']. cbn [snd].
  unfold get_llm_client.
  destruct (Py.truthy_opt (ANTHROPIC_API_KEY env)) eqn:Hanthropic;
    [| destruct (Py.truthy_opt (OPENAI_API_KEY env)) eqn:Hopenai].
  - split; [reflexivity |].
    destruct (Db.select_new_items CUTOFF MAX_NEW_ITEMS_PER_RUN d') as [| row rows];
      cbn [snd world]; [rewrite Hempty; apply List.Forall_nil |].
    unfold Summarizer.process_rows.
    generalize (row :: rows) as todo. intros todo.
    assert (Hstart : Forall (uses "anthropic" (model_of "anthropic"))
              (trace (world (Progress 0 0 d' w))))
      by (simpl; rewrite Hempty; apply List.Forall_nil).
    revert Hstart. generalize (Progress 0 0 d' w) as p. intros p. revert p.
    induction todo as [| r todo IH]; intros p Hp; [exact Hp |].
    simpl. apply IH. apply process_row_uses. exact Hp.
  - split; [reflexivity |].
    destruct (Db.select_new_items CUTOFF MAX_NEW_ITEMS_PER_RUN d') as [| row rows];
      cbn [snd world]; [rewrite Hempty; apply List.Forall_nil |].
    unfold Summarizer.process_rows.
    generalize (row :: rows) as todo. intros todo.
    assert (Hstart : Forall (uses "openai" (model_of "openai"))
              (trace (world (Progress 0 0 d' w))))
      by (simpl; rewrite Hempty; apply List.Forall_nil).
    revert Hstart. generalize (Progress 0 0 d' w) as p. intros p. revert p.
    induction todo as [| r todo IH]; intros p Hp; [exact Hp |].
    simpl. apply IH. apply process_row_uses. exact Hp.
  - split; [reflexivity |]. split; [reflexivity |].
    destruct (Db.select_new_items CUTOFF MAX_NEW_ITEMS_PER_RUN d') as [| row rows].
    + split; [reflexivity | intros H; contradiction].
    + split; [reflexivity | intros _; reflexivity].
Qed.

End WithEnvironment.

Import Fixtures.

Lemma llm_retry_budget_is_three_witness :
  exists w',
    Summarizer.call_llm with_credential "anthropic" "system" "user"
                        (fresh_llm rate_limited)
    = (Raised (RuntimeError "All 3 LLM attempts failed"), w')
    /\ calls w' = 3%nat.
Proof.
  destruct (llm_retry_budget_is_three with_credential "anthropic" "system" "user"
              (fresh_llm rate_limited))
    as (w' & Hraised & _ & Hcalls).
  - intros i _. split; [reflexivity |].
    exists "Rate". split; [right; left; reflexivity | reflexivity].
  - exists w'. split; [exact Hraised | exact Hcalls].
Defined.

Lemma unexpected_error_is_not_retried_witness :
  Summarizer.call_llm with_credential "anthropic" "system" "user"
                      (fresh_llm key_error)
  = (Raised (SdkError "KeyError"),
     Summarizer.create "anthropic" (Summarizer.model_of with_credential "anthropic")
                       "system" "user" (fresh_llm key_error)).
Proof.
  apply (unexpected_error_is_not_retried with_credential "anthropic" "system"
           "user" "KeyError" (fresh_llm key_error)).
  - reflexivity.
  - right. intros k [<- | [<- | [<- | [<- | [<- | []]]]]]; reflexivity.
Defined.

Lemma validation_accepts_only_complete_dicts_witness :
  Summarizer.parse_summary_json loads summary_text
  = Done (Some [("eli5", JStr "Simple."); ("eli16", JStr "Detailed.");
                ("why_this_matters", JStr "Relevant.");
                ("what_changed", JStr "New."); ("key_quotes", JList []);
                ("confidence_unknowns", JStr "None.")]).
Proof.
  destruct (validation_accepts_only_complete_dicts loads) as (_ & Hcomplete & _).
  apply Hcomplete.
  - vm_compute. reflexivity.
  - intros f [<- | [<- | [<- | [<- | [<- | [<- | []]]]]]]; vm_compute; tauto.
Defined.

Lemma validation_error_sends_no_reprompt_witness :
  Summarizer.summarize_item with_credential system_prompt too_deep "anthropic"
                            "A post" "<rss/>" (fresh_llm answers_prose)
  = (Raised (LibraryError "RecursionError"),
     Summarizer.create "anthropic" "claude-haiku-4-5-20251001" system_prompt
                       (user_prompt "A post" "<rss/>") (fresh_llm answers_prose))
  /\ error_count (Summarizer.process_row with_credential system_prompt too_deep
                                         dumps "anthropic" sample_row prose_run)
     = 1%nat.
Proof.
  destruct (validation_error_sends_no_reprompt
              with_credential system_prompt too_deep dumps "anthropic"
              sample_row prose_run "Here is the summary you asked for."
              "RecursionError"
              (Summarizer.create "anthropic" "claude-haiku-4-5-20251001"
                 system_prompt (user_prompt "A post" "<rss/>")
                 (fresh_llm answers_prose)))
    as (Hsum & _ & Herr & _).
  - vm_compute. discriminate.
  - reflexivity.
  - reflexivity.
  - split; [exact Hsum | exact Herr].
Defined.

Lemma truncation_bounds_the_prompt_witness :
  truncate_for_input "A short article." = "A short article.".
Proof.
  destruct (truncation_bounds_the_prompt "A short article.")
    as (_ & _ & _ & Hshort & _).
  apply Hshort. apply Nat.leb_le. vm_compute. reflexivity.
Defined.

Lemma run_cost_is_capped_witness :
  Z.of_nat (success_count (snd (Summarizer.main with_credential 25 system_prompt
                                  loads dumps ingested (fresh_llm answers_summary)))
            + error_count (snd (Summarizer.main with_credential 25 system_prompt
                                  loads dumps ingested (fresh_llm answers_summary))))
  <= 25.
Proof.
  destruct (run_cost_is_capped with_credential 25 system_prompt loads dumps
              ingested (fresh_llm answers_summary)) as (_ & Hcap & _).
  apply Hcap. lia.
Defined.

Lemma one_provider_per_run_witness :
  Forall (uses "anthropic" "claude-haiku-4-5-20251001")
         (trace (world (snd (Summarizer.main with_credential 25 system_prompt
                               loads dumps ingested (fresh_llm answers_summary))))).
Proof.
  destruct (one_provider_per_run with_credential 25 system_prompt loads dumps
              ingested (fresh_llm answers_summary) eq_refl) as [_ Hall].
  exact Hall.
Defined.

End SummarizerMore.

(** * Dates: what the fetcher stores and how the summarizer compares it *)

Module DatesMore.

Import Fetcher Observations.

Lemma digit_compare (x y : Z) :
  Ascii.compare (digit x) (digit y) = (x mod 10 ?= y mod 10).
Proof.
  unfold Ascii.compare, digit.
  pose proof (Z.mod_pos_bound x 10 ltac:(lia)) as Hx.
  pose proof (Z.mod_pos_bound y 10 ltac:(lia)) as Hy.
  rewrite !N_ascii_embedding by lia.
  rewrite <- N2Z.inj_compare, !N2Z.inj_add, !Z2N.id by lia.
  apply Z.add_compare_mono_l.
Qed.

Lemma compare_app (a a' s s' : string) :
  String.length a = String.length a' ->
  String.compare (a ++ s) (a' ++ s')
  = then_by (String.compare a a') (String.compare s s').
Proof.
  revert a'. induction a as [| c a IH]; intros [| c' a']; try discriminate.
  - reflexivity.
  - intros [= Hlen].
    change (match Ascii.compare c c' with
            | Eq => String.compare (a ++ s) (a' ++ s')
            | ne => ne
            end
            = then_by (match Ascii.compare c c' with
                       | Eq => String.compare a a'
                       | ne => ne
                       end) (String.compare s s')).
    destruct (Ascii.compare c c'); [apply IH; exact Hlen | reflexivity | reflexivity].
Qed.

Lemma compare_same (s : string) : String.compare s s = Eq.
Proof.
  induction s as [| c s IH]; [reflexivity |].
  cbn [String.compare]. unfold Ascii.compare. rewrite N.compare_refl. exact IH.
Qed.

Lemma compare_same_prefix (c s s' : string) :
  String.compare (c ++ s) (c ++ s') = String.compare s s'.
Proof.
  rewrite compare_app, compare_same by reflexivity. reflexivity.
Qed.

Ltac by_digits :=
  repeat match goal with
         | |- context [Z.compare ?p ?q] => destruct (Z.compare_spec p q)
         end;
  cbn [then_by]; try reflexivity; exfalso;
  Z.to_euclidean_division_equations; lia.

Lemma pad2_compare (a b : Z) :
  0 <= a < 100 -> 0 <= b < 100 ->
  String.compare (pad2 a) (pad2 b) = (a ?= b).
Proof.
  intros Ha Hb. unfold pad2. cbn [String.compare].
  rewrite !digit_compare.
  change (then_by ((a / 10) mod 10 ?= (b / 10) mod 10)
            (then_by (a mod 10 ?= b mod 10) Eq)
          = (a ?= b)).
  by_digits.
Qed.

Lemma digit_eq (x y : Z) : x mod 10 = y mod 10 -> digit x = digit y.
Proof.
  unfold digit. intros ->. reflexivity.
Qed.

Lemma pad4_split (n : Z) : pad4 n = pad2 (n / 100) ++ pad2 (n mod 100).
Proof.
  unfold pad4, pad2.
  change (String (digit (n / 1000))
            (String (digit (n / 100))
               (String (digit (n / 10)) (String (digit n) EmptyString)))
          = String (digit (n / 100 / 10))
              (String (digit (n / 100))
                 (String (digit (n mod 100 / 10))
                    (String (digit (n mod 100)) EmptyString)))).
  rewrite (digit_eq (n / 1000) (n / 100 / 10)),
          (digit_eq (n / 10) (n mod 100 / 10)),
          (digit_eq n (n mod 100));
    [reflexivity | | |]; Z.to_euclidean_division_equations; lia.
Qed.

Lemma pad4_compare (a b : Z) :
  0 <= a < 10000 -> 0 <= b < 10000 ->
  String.compare (pad4 a) (pad4 b) = (a ?= b).
Proof.
  intros Ha Hb. rewrite !pad4_split, compare_app by reflexivity.
  rewrite !pad2_compare by (Z.to_euclidean_division_equations; lia).
  by_digits.
Qed.

Lemma valid_datetime_ranges (tp : time_tuple) :
  valid_datetime tp = true ->
  1 <= tm_year tp <= 9999 /\ 1 <= tm_mon tp <= 12 /\ 1 <= tm_mday tp <= 31
  /\ 0 <= tm_hour tp <= 23 /\ 0 <= tm_min tp <= 59 /\ 0 <= tm_sec tp <= 59.
Proof.
  unfold valid_datetime, in_range. intros H.
  repeat (apply andb_true_iff in H as [H ?]).
  assert (days_in_month (tm_year tp) (tm_mon tp) <= 31).
  { unfold days_in_month.
    destruct (tm_mon tp =? 2); [destruct (is_leap (tm_year tp)); lia |].
    destruct ((tm_mon tp =? 4) || (tm_mon tp =? 6) || (tm_mon tp =? 9)
              || (tm_mon tp =? 11)); lia. }
  lia.
Qed.

(** The text order of two stored dates is the order of the instants they
    denote: comparing the ISO texts of two tuples that [datetime] accepts
    gives the comparison of the tuples field by field, year first. *)
Theorem stored_dates_order_chronologically (a b : time_tuple) :
  valid_datetime a = true ->
  valid_datetime b = true ->
  String.compare (isoformat a) (isoformat b) = chronological a b.
Proof.
  intros Ha Hb.
  apply valid_datetime_ranges in Ha. apply valid_datetime_ranges in Hb.
  unfold isoformat, chronological.
  rewrite compare_app, pad4_compare by (reflexivity || lia).
  rewrite compare_same_prefix.
  rewrite compare_app, pad2_compare by (reflexivity || lia).
  rewrite compare_same_prefix.
  rewrite compare_app, pad2_compare by (reflexivity || lia).
  rewrite compare_same_prefix.
  rewrite compare_app, pad2_compare by (reflexivity || lia).
  rewrite compare_same_prefix.
  rewrite compare_app, pad2_compare by (reflexivity || lia).
  rewrite compare_same_prefix.
  rewrite compare_app, pad2_compare by (reflexivity || lia).
  destruct (tm_sec a ?= tm_sec b); reflexivity.
Qed.

Lemma parse_entry_date_source (e : entry) (date : string) :
  parse_entry_date e = Some date ->
  exists tp,
    (e_published_parsed e = Some tp \/ e_updated_parsed e = Some tp)
    /\ valid_datetime tp = true
    /\ date = isoformat tp.
Proof.
  unfold parse_entry_date.
  destruct (e_published_parsed e) as [p |];
    [destruct (valid_datetime p) eqn:Hp |].
  - intros [= <-]. exists p. tauto.
  - destruct (e_updated_parsed e) as [u |]; [| discriminate].
    destruct (valid_datetime u) eqn:Hu; [| discriminate].
    intros [= <-]. exists u. tauto.
  - destruct (e_updated_parsed e) as [u |]; [| discriminate].
    destruct (valid_datetime u) eqn:Hu; [| discriminate].
    intros [= <-]. exists u. tauto.
Qed.

Lemma cutoff_compare (tp : time_tuple) :
  valid_datetime tp = true ->
  String.compare (isoformat tp) Summarizer.CUTOFF
  = then_by (tm_year tp ?= 2025) (then_by (tm_mon tp ?= 10) Gt).
Proof.
  intros Hv. apply valid_datetime_ranges in Hv.
  unfold isoformat.
  change Summarizer.CUTOFF
    with (pad4 2025 ++ "-" ++ pad2 10 ++ "-" ++ pad2 1 ++ EmptyString).
  rewrite compare_app, pad4_compare by (reflexivity || lia).
  rewrite compare_same_prefix.
  rewrite compare_app, pad2_compare by (reflexivity || lia).
  rewrite compare_same_prefix.
  rewrite compare_app, pad2_compare by (reflexivity || lia).
  destruct (tm_year tp ?= 2025); [| reflexivity | reflexivity].
  destruct (tm_mon tp ?= 10); [| reflexivity | reflexivity].
  destruct (Z.compare_spec (tm_mday tp) 1); [reflexivity | lia | reflexivity].
Qed.

(** The date stored for an entry is the ISO text of its published tuple or
    of its updated tuple, and the summarizer's text comparison with the
    cutoff sets the item aside exactly when that tuple lies before
    1 October 2025, and admits it exactly when it does not. *)
Theorem cutoff_is_first_of_october_2025 (e : entry) (date : string) :
  parse_entry_date e = Some date ->
  exists tp,
    (e_published_parsed e = Some tp \/ e_updated_parsed e = Some tp)
    /\ date = isoformat tp
    /\ (Db.text_lt (Some date) Summarizer.CUTOFF = true <-> before_october_2025 tp)
    /\ (Db.text_ge (Some date) Summarizer.CUTOFF = true <-> ~ before_october_2025 tp).
Proof.
  intros Hdate.
  destruct (parse_entry_date_source e date Hdate) as (tp & Hfrom & Hvalid & ->).
  exists tp. split; [exact Hfrom |]. split; [reflexivity |].
  pose proof (cutoff_compare tp Hvalid) as Hcmp.
  unfold Db.text_lt, Db.text_ge, String.ltb, String.leb, before_october_2025.
  rewrite (String.compare_antisym Summarizer.CUTOFF (isoformat tp)), Hcmp.
  destruct (Z.compare_spec (tm_year tp) 2025);
    destruct (Z.compare_spec (tm_mon tp) 10); cbn [then_by CompOpp];
    split; split; intros; try discriminate; try reflexivity; lia.
Qed.

Import Fixtures.

Lemma stored_dates_order_chronologically_witness :
  String.compare (isoformat (TimeTuple 2025 9 30 23 59 59))
                 (isoformat (TimeTuple 2025 10 1 0 0 0))
  = Lt.
Proof.
  rewrite (stored_dates_order_chronologically (TimeTuple 2025 9 30 23 59 59)
             (TimeTuple 2025 10 1 0 0 0)); reflexivity.
Defined.

Lemma cutoff_is_first_of_october_2025_witness :
  exists tp,
    (e_published_parsed (post "https://example.com/post" "A short summary.") = Some tp
     \/ e_updated_parsed (post "https://example.com/post" "A short summary.") = Some tp)
    /\ "2026-01-15T09:30:00+00:00" = isoformat tp
    /\ (Db.text_lt (Some "2026-01-15T09:30:00+00:00") Summarizer.CUTOFF = true
        <-> before_october_2025 tp)
    /\ (Db.text_ge (Some "2026-01-15T09:30:00+00:00") Summarizer.CUTOFF = true
        <-> ~ before_october_2025 tp).
Proof.
  apply (cutoff_is_first_of_october_2025
           (post "https://example.com/post" "A short summary.")).
  reflexivity.
Defined.

End DatesMore.
